(** * Antigravity quota monitor: endpoint discovery and resilient polling

    A shallow embedding of the discovery and polling core of the
    extension:

    - [Js]       the string and regular-expression primitives of the host
                 language that the parsers rely on;
    - [Unix]     [UnixProcessDetector.parseProcessInfo] and
                 [UnixProcessDetector.parseListeningPorts];
    - [Windows]  [WindowsProcessDetector.parseListeningPorts] and the
                 PowerShell/WMIC switch;
    - [Detector] the retry loop of [ProcessPortDetector.detectProcessInfo];
    - [Client]   [makeRequest] and the [AntigravityClient] polling state
                 machine.

    Strings are sequences of UTF-16 code units, integers produced by
    [parseInt] are exact (they agree with the host's numbers below 2^53),
    and the other numbers of a JSON response are rationals. *)

From Stdlib Require Import ZArith NArith QArith List Bool String Ascii Lia.
From Stdlib Require Import Sorted Permutation DecimalString.
From Equations Require Import Equations.
Import ListNotations.

Open Scope Z_scope.

(* ===================================================================== *)
(** ** Host-language strings *)
(* ===================================================================== *)

Module Js.

(** A string is its list of UTF-16 code units. *)
Definition JsString := list N.

(** An ASCII literal as a [JsString]. *)
Definition js (s : string) : JsString :=
  List.map N_of_ascii (list_ascii_of_string s).

Definition str_eqb (a b : JsString) : bool :=
  if list_eq_dec N.eq_dec a b then true else false.

(** [!s] for a string: only the empty string is falsy. *)
Definition truthy (s : JsString) : bool :=
  match s with [] => false | _ :: _ => true end.

Definition in_range (lo hi c : N) : bool := (N.leb lo c && N.leb c hi)%bool.

Definition chr (s : string) : N :=
  match s with String a _ => N_of_ascii a | EmptyString => 0%N end.

(** WhiteSpace and LineTerminator code units: what [\s] matches and what
    [trim] strips. *)
Definition is_space (c : N) : bool :=
  (in_range 9 13 c || N.eqb c 32 || N.eqb c 160 || N.eqb c 5760
   || in_range 8192 8202 c || N.eqb c 8232 || N.eqb c 8233
   || N.eqb c 8239 || N.eqb c 8287 || N.eqb c 12288 || N.eqb c 65279)%bool.

(** [.] matches everything but a line terminator. *)
Definition is_dot (c : N) : bool :=
  negb (N.eqb c 10 || N.eqb c 13 || N.eqb c 8232 || N.eqb c 8233)%bool.

Definition is_digit (c : N) : bool := in_range 48 57 c.
Definition is_upper (c : N) : bool := in_range 65 90 c.
Definition is_lower (c : N) : bool := in_range 97 122 c.

(** [\w], the word characters that [\b] looks at. *)
Definition is_word (c : N) : bool :=
  (is_digit c || is_upper c || is_lower c || N.eqb c 95)%bool.

Definition is_nonspace (c : N) : bool := negb (is_space c).

(** [toLowerCase] on the Basic Latin letters; other code units are kept.
    No code unit outside Basic Latin lower-cases to a sequence that
    could complete one of the ASCII needles searched below, so
    [includes] after [toLowerCase] is not affected. *)
Definition lower_unit (c : N) : N := if is_upper c then (c + 32)%N else c.
Definition toLowerCase (s : JsString) : JsString := List.map lower_unit s.

Fixpoint drop_while (p : N -> bool) (s : JsString) : JsString :=
  match s with
  | c :: s' => if p c then drop_while p s' else s
  | [] => []
  end.

Definition trimStart (s : JsString) : JsString := drop_while is_space s.
Definition trimEnd (s : JsString) : JsString :=
  rev (drop_while is_space (rev s)).
Definition trim (s : JsString) : JsString := trimEnd (trimStart s).

Fixpoint startsWith (p s : JsString) : bool :=
  match p, s with
  | [], _ => true
  | a :: p', b :: s' => (N.eqb a b && startsWith p' s')%bool
  | _ :: _, [] => false
  end.

(** [hay.includes(needle)]. *)
Fixpoint includes (needle hay : JsString) : bool :=
  (startsWith needle hay
   || match hay with
      | _ :: hay' => includes needle hay'
      | [] => false
      end)%bool.

(** [s.split(sep)] for a one-unit separator; the result is never empty. *)
Fixpoint split_unit (sep : N) (s : JsString) : list JsString :=
  match s with
  | [] => [[]]
  | c :: s' =>
      if N.eqb c sep then [] :: split_unit sep s'
      else match split_unit sep s' with
           | w :: ws => (c :: w) :: ws
           | [] => [[c]]
           end
  end.

(** [s.split(/\s+/)]: the pieces between maximal runs of white space,
    with an empty first (last) piece when [s] starts (ends) with one. *)
Fixpoint split_ws_from (acc : JsString) (in_run : bool) (s : JsString)
  : list JsString :=
  match s with
  | [] => [rev acc]
  | c :: s' =>
      if is_space c then
        if in_run then split_ws_from acc true s'
        else rev acc :: split_ws_from [] true s'
      else split_ws_from (c :: acc) false s'
  end.
Definition split_ws (s : JsString) : list JsString :=
  split_ws_from [] false s.

(** [parts.join(sep)]. *)
Fixpoint join (sep : JsString) (parts : list JsString) : JsString :=
  match parts with
  | [] => []
  | [p] => p
  | p :: ps => p ++ sep ++ join sep ps
  end.

Definition digit_val (c : N) : Z := Z.of_N (c - 48).

Fixpoint digits_from (acc : Z) (s : JsString) : Z :=
  match s with
  | c :: s' => if is_digit c then digits_from (10 * acc + digit_val c) s'
               else acc
  | [] => acc
  end.

Definition starts_with_digit (s : JsString) : bool :=
  match s with c :: _ => is_digit c | [] => false end.

(** [parseInt(s, 10)]: leading white space, an optional sign, then the
    longest run of decimal digits; [None] stands for [NaN]. *)
Definition parseInt (s : JsString) : option Z :=
  match trimStart s with
  | c :: s' =>
      if N.eqb c 45 then
        if starts_with_digit s' then Some (- digits_from 0 s') else None
      else if N.eqb c 43 then
        if starts_with_digit s' then Some (digits_from 0 s') else None
      else if is_digit c then Some (digits_from 0 (c :: s')) else None
  | [] => None
  end.

(** The decimal numeral of a non-negative integer. *)
Definition of_Z (n : Z) : JsString :=
  js (NilZero.string_of_uint (N.to_uint (Z.to_N n))).

(* --------------------------------------------------------------------- *)
(** *** Regular expressions *)
(* --------------------------------------------------------------------- *)

(** The fragment of the regular-expression syntax the detectors use.
    Repetition only ever applies to a character class. *)
Inductive regex :=
| Eps
| Chr (p : N -> bool)
| Star (p : N -> bool)
| Plus (p : N -> bool)
| Opt (r : regex)
| Seq (a b : regex)
| Alt (a b : regex)
| Grp (n : nat) (r : regex)
| WordB.

(** A matcher position: the unit just before it (for [\b]), the units
    still to read, and the groups captured so far. *)
Record MState := mkM {
  prev : option N;
  rest : JsString;
  caps : list (nat * JsString)
}.

Fixpoint cap (n : nat) (cs : list (nat * JsString)) : option JsString :=
  match cs with
  | (m, s) :: cs' => if Nat.eqb n m then Some s else cap n cs'
  | [] => None
  end.

(** All the places a greedy [p*] can stop, longest first. *)
Fixpoint star_run (p : N -> bool) (pv : option N) (s : JsString)
  : list (option N * JsString) :=
  match s with
  | c :: s' =>
      if p c then star_run p (Some c) s' ++ [(pv, s)] else [(pv, s)]
  | [] => [(pv, s)]
  end.

Definition opt_word (o : option N) : bool :=
  match o with Some c => is_word c | None => false end.

Definition captured (st st' : MState) : JsString :=
  firstn (List.length (rest st) - List.length (rest st')) (rest st).

(** Backtracking as a list of successes, in the priority order of the
    host's matcher: the head is the match it reports. *)
Fixpoint run (r : regex) (st : MState) : list MState :=
  match r with
  | Eps => [st]
  | Chr p =>
      match rest st with
      | c :: s' => if p c then [mkM (Some c) s' (caps st)] else []
      | [] => []
      end
  | Star p =>
      List.map (fun e => mkM (fst e) (snd e) (caps st))
               (star_run p (prev st) (rest st))
  | Plus p =>
      match rest st with
      | c :: s' =>
          if p c then
            List.map (fun e => mkM (fst e) (snd e) (caps st))
                     (star_run p (Some c) s')
          else []
      | [] => []
      end
  | Opt a => run a st ++ [st]
  | Seq a b => flat_map (run b) (run a st)
  | Alt a b => run a st ++ run b st
  | Grp n a =>
      List.map (fun st' =>
                  mkM (prev st') (rest st') ((n, captured st st') :: caps st'))
               (run a st)
  | WordB =>
      if xorb (opt_word (prev st)) (opt_word (hd_error (rest st)))
      then [st] else []
  end.

(** The leftmost match, as [String.prototype.match] and
    [RegExp.prototype.test] find it for a regex without the [g] flag. *)
Fixpoint search_from (r : regex) (pv : option N) (s : JsString)
  : option MState :=
  match run r (mkM pv s []) with
  | st :: _ => Some st
  | [] =>
      match s with
      | c :: s' => search_from r (Some c) s'
      | [] => None
      end
  end.
Definition rmatch (r : regex) (s : JsString) : option MState :=
  search_from r None s.
Definition rtest (r : regex) (s : JsString) : bool :=
  match rmatch r s with Some _ => true | None => false end.

(** The successive matches of a [g] regex under repeated [exec]: after a
    match the search resumes where it ended.  [skip] counts the units of
    the last match still to be passed over. *)
Fixpoint exec_all (r : regex) (pv : option N) (s : JsString) (skip : nat)
  : list MState :=
  match skip with
  | O =>
      match run r (mkM pv s []) with
      | st :: _ =>
          st :: match s with
                | c :: s' =>
                    exec_all r (Some c) s'
                             (List.length s - List.length (rest st) - 1)
                | [] => []
                end
      | [] =>
          match s with
          | c :: s' => exec_all r (Some c) s' O
          | [] => []
          end
      end
  | S k =>
      match s with
      | c :: s' => exec_all r (Some c) s' k
      | [] => []
      end
  end.

(** The capture groups a regex can set. *)
Fixpoint groups (r : regex) : list nat :=
  match r with
  | Opt a => groups a
  | Seq a b => groups a ++ groups b
  | Alt a b => groups a ++ groups b
  | Grp n a => n :: groups a
  | _ => []
  end.

(** A non-empty run of decimal digits. *)
Definition numeral (d : JsString) : Prop :=
  d <> [] /\ Forall (fun c => is_digit c = true) d.

(** Literal text, case-sensitive and under the [i] flag. *)
Definition unit_is (c : N) : N -> bool := N.eqb c.
Definition unit_is_i (c : N) : N -> bool :=
  fun d => N.eqb (lower_unit c) (lower_unit d).

Fixpoint lit (s : JsString) : regex :=
  match s with
  | [] => Eps
  | [c] => Chr (unit_is c)
  | c :: s' => Seq (Chr (unit_is c)) (lit s')
  end.
Fixpoint lit_i (s : JsString) : regex :=
  match s with
  | [] => Eps
  | [c] => Chr (unit_is_i c)
  | c :: s' => Seq (Chr (unit_is_i c)) (lit_i s')
  end.

End Js.

Import Js.

Declare Scope regex_scope.
Delimit Scope regex_scope with re.
Bind Scope regex_scope with regex.
Notation "a >> b" := (Seq a b) (at level 61, right associativity)
  : regex_scope.

(** JS [Array.prototype.sort((a, b) => a - b)].  The arrays sorted below
    hold pairwise distinct integers, for which every sorting algorithm
    returns the same array; insertion sort stands for the host's. *)
Fixpoint insert_sorted (x : Z) (l : list Z) : list Z :=
  match l with
  | [] => [x]
  | y :: l' => if (x - y <=? 0) then x :: l else y :: insert_sorted x l'
  end.
Definition sort_numeric (l : list Z) : list Z :=
  fold_right insert_sorted [] l.

(** [if (!ports.includes(p)) ports.push(p)]. *)
Definition push_unique (ports : list Z) (p : Z) : list Z :=
  if existsb (Z.eqb p) ports then ports else ports ++ [p].

(** [m[1] || m[2]] on a match result; the empty string stands for an
    [undefined] operand of [parseInt], both give [NaN]. *)
Definition group_1_or_2 (m : MState) : JsString :=
  match cap 1 (caps m) with
  | Some (c :: s) => c :: s
  | _ => match cap 2 (caps m) with Some s => s | None => [] end
  end.

(** What the process parsers return (the Unix one also keeps [ppid]). *)
Record ProcessInfo := mkInfo {
  pid : Z;
  ppid : Z;
  extensionPort : Z;
  csrfToken : JsString
}.

(** [/--extension_server_port[=\s]+(\d+)/] *)
Definition eq_or_space (c : N) : bool := (N.eqb c 61 || is_space c)%bool.
Definition re_extension_server_port : regex :=
  (lit (js "--extension_server_port") >> Plus eq_or_space
   >> Grp 1 (Plus is_digit))%re.

(** [/--csrf_token[=\s]+([a-f0-9\-]+)/i] *)
Definition hex_or_dash_i (c : N) : bool :=
  (in_range 97 102 (lower_unit c) || is_digit c || N.eqb c 45)%bool.
Definition re_csrf_token : regex :=
  (lit_i (js "--csrf_token") >> Plus eq_or_space
   >> Grp 1 (Plus hex_or_dash_i))%re.

(** [/--app_data_dir\s+antigravity\b/i] *)
Definition re_app_data_dir : regex :=
  (lit_i (js "--app_data_dir") >> Plus is_space
   >> lit_i (js "antigravity") >> WordB)%re.

(** [isAntigravityProcess], the same text in both detectors. *)
Definition isAntigravityProcess (commandLine : JsString) : bool :=
  let lowerCmd := toLowerCase commandLine in
  (rtest re_app_data_dir commandLine
   || includes (js "/antigravity/") lowerCmd
   || includes (js "\antigravity\") lowerCmd)%bool.

(* ===================================================================== *)
(** ** UnixProcessDetector *)
(* ===================================================================== *)

Module Unix.

(** The text the token and identity tests look at: [parts.slice(2).join(" ")]
    of the trimmed line. *)
Definition commandLine (line : JsString) : JsString :=
  join (js " ") (skipn 2 (split_ws (trim line))).

(** One iteration of the [for (const line of lines)] loop: the candidate
    the line contributes, if any. *)
Definition candidate (line : JsString) : option ProcessInfo :=
  let parts := split_ws (trim line) in
  if (List.length parts <? 3)%nat then None
  else
    match parseInt (nth 0 parts []), parseInt (nth 1 parts []) with
    | Some pid, Some ppid =>
        let cmd := join (js " ") (skipn 2 parts) in
        if includes (js "graftcp") (nth 2 parts []) then None
        else
          let portMatch := rmatch re_extension_server_port cmd in
          let tokenMatch := rmatch re_csrf_token cmd in
          match tokenMatch with
          | Some tm =>
              if isAntigravityProcess cmd then
                Some (mkInfo pid ppid
                        (match portMatch with
                         | Some pm =>
                             match parseInt (match cap 1 (caps pm) with
                                             | Some s => s
                                             | None => []
                                             end) with
                             | Some p => p
                             | None => 0   (* group 1 is a numeral *)
                             end
                         | None => 0
                         end)
                        (match cap 1 (caps tm) with
                         | Some t => t
                         | None => []
                         end))
              else None
          | None => None
          end
    | _, _ => None
    end.

(** The checks a line passes before its command line is looked at: three
    fields or more, a numeric pid and parent pid, and a third field that
    does not mention [graftcp]. *)
Definition wellFormed (line : JsString) : bool :=
  let parts := split_ws (trim line) in
  (negb (List.length parts <? 3)%nat
   && match parseInt (nth 0 parts []), parseInt (nth 1 parts []) with
      | Some _, Some _ => true
      | _, _ => false
      end
   && negb (includes (js "graftcp") (nth 2 parts [])))%bool.

Fixpoint candidates (lines : list JsString) : list ProcessInfo :=
  match lines with
  | [] => []
  | line :: lines' =>
      match candidate line with
      | Some c => c :: candidates lines'
      | None => candidates lines'
      end
  end.

(** [parseProcessInfo(stdout)]; [currentPid] is [process.pid]. *)
Definition parseProcessInfo (currentPid : Z) (stdout : JsString)
  : option ProcessInfo :=
  if negb (truthy (trim stdout)) then None
  else
    let lines := split_unit 10 (trim stdout) in
    let cs := candidates lines in
    match cs with
    | [] => None
    | first :: _ =>
        match find (fun c => ppid c =? currentPid) cs with
        | Some c => Some c
        | None => Some first
        end
    end.

(** [/127\.0\.0\.1:(\d+).*\(LISTEN\)/] *)
Definition re_lsof : regex :=
  (lit (js "127.0.0.1:") >> Grp 1 (Plus is_digit) >> Star is_dot
   >> lit (js "(LISTEN)"))%re.

(** The [ssMatch] regex: [LISTEN], two numeric columns, then the local
    address, which is [127.0.0.1] or a star, a colon and the port:
    [/LISTEN\s+\d+\s+\d+\s+(?:127\.0\.0\.1|\x2A):(\d+)/]. *)
Definition re_ss : regex :=
  (lit (js "LISTEN") >> Plus is_space >> Plus is_digit >> Plus is_space
   >> Plus is_digit >> Plus is_space
   >> Alt (lit (js "127.0.0.1")) (lit (js "*"))
   >> lit (js ":") >> Grp 1 (Plus is_digit))%re.

(** [/127\.0\.0\.1:(\d+).*LISTEN/] *)
Definition re_netstat : regex :=
  (lit (js "127.0.0.1:") >> Grp 1 (Plus is_digit) >> Star is_dot
   >> lit (js "LISTEN"))%re.

(** [/localhost:(\d+).*\(LISTEN\)|localhost:(\d+).*LISTEN/] *)
Definition re_localhost : regex :=
  Alt (lit (js "localhost:") >> Grp 1 (Plus is_digit) >> Star is_dot
       >> lit (js "(LISTEN)"))%re
      (lit (js "localhost:") >> Grp 2 (Plus is_digit) >> Star is_dot
       >> lit (js "LISTEN"))%re.

(** [lsofMatch || ssMatch || netstatMatch || lhMatch] *)
Definition line_match (line : JsString) : option MState :=
  match rmatch re_lsof line with
  | Some m => Some m
  | None =>
      match rmatch re_ss line with
      | Some m => Some m
      | None =>
          match rmatch re_netstat line with
          | Some m => Some m
          | None => rmatch re_localhost line
          end
      end
  end.

(** The body of the loop over the lines.  A matched line always carries
    a decimal port (see [line_match_port]), so the [NaN] branch of
    [parseInt] is never taken; the model leaves [ports] alone there. *)
Definition add_line (ports : list Z) (line : JsString) : list Z :=
  match line_match line with
  | Some m =>
      match parseInt (group_1_or_2 m) with
      | Some p => push_unique ports p
      | None => ports
      end
  | None => ports
  end.

Definition parse_lines (lines : list JsString) : list Z :=
  sort_numeric (fold_left add_line lines []).

(** The port a line embeds, for the layouts the four regexes accept. *)
Definition linePort (line : JsString) : option Z :=
  match line_match line with
  | Some m => parseInt (group_1_or_2 m)
  | None => None
  end.

(** [parseListeningPorts(stdout)] *)
Definition parseListeningPorts (stdout : JsString) : list Z :=
  if negb (truthy (trim stdout)) then []
  else parse_lines (split_unit 10 (trim stdout)).

End Unix.

(* ===================================================================== *)
(** ** WindowsProcessDetector *)
(* ===================================================================== *)

Module Windows.

(** [/(?:127\.0\.0\.1|0\.0\.0\.0|\[::1?\]):(\d+)\s+\S+\s+LISTENING/gi] *)
Definition portRegex : regex :=
  (Alt (lit (js "127.0.0.1"))
       (Alt (lit (js "0.0.0.0"))
            (lit (js "[::") >> Opt (Chr (unit_is (chr "1")))
             >> lit (js "]")))
   >> lit (js ":") >> Grp 1 (Plus is_digit) >> Plus is_space
   >> Plus is_nonspace >> Plus is_space >> lit_i (js "LISTENING"))%re.

(** The body of the [while ((match = portRegex.exec(stdout)) !== null)]
    loop; group 1 is a decimal numeral, see [Unix.add_line] for [NaN]. *)
Definition add_match (ports : list Z) (m : MState) : list Z :=
  match parseInt (match cap 1 (caps m) with Some s => s | None => [] end) with
  | Some p => push_unique ports p
  | None => ports
  end.

Definition parse_matches (ms : list MState) : list Z :=
  sort_numeric (fold_left add_match ms []).

(** [parseListeningPorts(stdout)] *)
Definition parseListeningPorts (stdout : JsString) : list Z :=
  parse_matches (exec_all portRegex None stdout 0).

End Windows.

(* ===================================================================== *)
(** ** ProcessPortDetector.detectProcessInfo *)
(* ===================================================================== *)

Module Detector.

(** [PlatformDetector]: the platform picks the strategy once; only the
    Windows strategy carries the [usePowerShell] switch
    ([setUsePowerShell] / [isUsingPowerShell]). *)
Inductive Platform :=
| Windows (usePowerShell : bool)
| MacOS
| Linux.

(** [getPlatformName() === "Windows"] *)
Definition isWindows (p : Platform) : bool :=
  match p with Windows _ => true | _ => false end.

(** [windowsStrategy.setUsePowerShell && !windowsStrategy.isUsingPowerShell()]:
    the Unix strategy has no such method, so the test is falsy there. *)
Definition canSwitchToPowerShell (p : Platform) : bool :=
  match p with Windows ps => negb ps | _ => false end.

(** [windowsStrategy.setUsePowerShell(true)] *)
Definition setUsePowerShell (p : Platform) : Platform :=
  match p with Windows _ => Windows true | _ => p end.

(** [AntigravityProcessInfo] *)
Record Detected := mkDetected {
  d_extensionPort : Z;
  d_connectPort : Z;
  d_csrfToken : JsString
}.

(** What a run of [detectProcessInfo] does besides returning: each
    execution of the [try] block with the value of [attempt] and the
    strategy it ran under, each switch of the listing tool, and each
    [setTimeout(resolve, retryDelay)] wait. *)
Inductive Event :=
| Tried (attempt : nat) (p : Platform)
| Switched
| Waited (ms : Z).

Record Run := mkRun {
  result : option Detected;
  platform : Platform;
  events : list Event
}.

(** [getErrorMessages().processNotFound], the same in both strategies. *)
Definition processNotFound : JsString :=
  js "language_server process not found".

(** [error?.message || String(error)] for a thrown [Error] with this
    message ([String] of an [Error] without message is its name). *)
Definition errorMsg (message : JsString) : JsString :=
  if truthy message then message else js "Error".

(** The three texts that mark a missing or unrecognised command; the
    last one is the message of a Chinese-locale [cmd.exe]. *)
Definition isToolMissing (msg : JsString) : bool :=
  (includes (js "not found") msg
   || includes (js "not recognized") msg
   || includes [19981; 26159; 20869; 37096; 25110; 22806; 37096; 21629;
                20196]%N msg)%bool.

Section Loop.

(** The world the loop runs in.  The number is the count of [try]
    blocks executed before, so that each execution may see a different
    process table. *)
Variable execProcessList : Platform -> nat -> JsString + JsString.
    (* [execAsync(getProcessListCommand(..))]: an error message, or stdout *)
Variable parseProcessInfo : Platform -> JsString -> option ProcessInfo.
Variable getProcessListeningPorts : nat -> Z -> list Z.
Variable testPortConnectivity : nat -> Z -> JsString -> bool.

(** [findWorkingPort(ports, csrfToken)] *)
Fixpoint findWorkingPort (k : nat) (ports : list Z) (token : JsString)
  : option Z :=
  match ports with
  | [] => None
  | port :: ports' =>
      if testPortConnectivity k port token then Some port
      else findWorkingPort k ports' token
  end.

(** The [try] block: the message of what it throws, or what it
    returns. *)
Definition tryBlock (p : Platform) (k : nat) : JsString + Detected :=
  match execProcessList p k with
  | inl message => inl message
  | inr stdout =>
      match parseProcessInfo p stdout with
      | None => inl processNotFound
      | Some processInfo =>
          let listeningPorts :=
            getProcessListeningPorts k (pid processInfo) in
          match listeningPorts with
          | [] => inl (js "Process is not listening on any ports")
          | _ :: _ =>
              match findWorkingPort k listeningPorts
                                    (csrfToken processInfo) with
              | Some connectPort =>
                  if connectPort =? 0
                  then inl (js "Unable to find a working API port")
                  else inr (mkDetected (extensionPort processInfo)
                                       connectPort
                                       (csrfToken processInfo))
              | None => inl (js "Unable to find a working API port")
              end
          end
      end
  end.

Definition budget (maxRetries attempt : nat) (p : Platform) : nat :=
  2 * (S maxRetries - attempt) + (if canSwitchToPowerShell p then 1 else 0).

Definition waitIfMore (maxRetries attempt : nat) (retryDelay : Z)
  : list Event :=
  if (attempt <? maxRetries)%nat then [Waited retryDelay] else [].

Definition andThen (es : list Event) (r : Run) : Run :=
  mkRun (result r) (platform r) (es ++ events r).

(** A test together with the fact that it came out as it did. *)
Definition inspect {A : Type} (a : A) : {b : A | a = b} :=
  exist _ a eq_refl.

(** [for (let attempt = ...; attempt <= maxRetries; attempt++) { ... }]
    from the current value of [attempt]; [k] counts the [try] blocks
    already executed.  [attempt--; continue] re-enters the loop with
    the same [attempt]. *)
Equations? loop (maxRetries : nat) (retryDelay : Z) (attempt : nat)
           (p : Platform) (k : nat) : Run
  by wf (budget maxRetries attempt p) lt :=
  loop maxRetries retryDelay attempt p k
    with inspect (attempt <=? maxRetries)%nat => {
    | exist _ false _ := mkRun None p [];
    | exist _ true inRange with tryBlock p k => {
        | inr found := mkRun (Some found) p [Tried attempt p];
        | inl message
            with inspect (isToolMissing (errorMsg message) && isWindows p
                          && canSwitchToPowerShell p)%bool => {
            | exist _ true switch :=
                andThen [Tried attempt p; Switched]
                  (loop maxRetries retryDelay attempt
                        (setUsePowerShell p) (S k));
            | exist _ false _ :=
                andThen (Tried attempt p
                         :: waitIfMore maxRetries attempt retryDelay)
                  (loop maxRetries retryDelay (S attempt) p (S k)) } } }.
Proof.
  all: unfold budget; apply Nat.leb_le in inRange.
  - apply Bool.andb_true_iff in switch as [_ switch].
    destruct p as [[|]| |]; simpl in *; try discriminate; lia.
  - destruct (canSwitchToPowerShell p); lia.
Qed.

(** [detectProcessInfo(maxRetries = 3, retryDelay = 2000)] *)
Definition detectProcessInfo (maxRetries : nat) (retryDelay : Z)
           (p : Platform) : Run :=
  loop maxRetries retryDelay 1 p 0.

End Loop.

(** How often a run switched the listing tool. *)
Definition isSwitched (e : Event) : bool :=
  match e with Switched => true | _ => false end.
Definition switches (es : list Event) : nat :=
  List.length (filter isSwitched es).

End Detector.

(* ===================================================================== *)
(** ** AntigravityClient *)
(* ===================================================================== *)

Module Client.

(** A value read off a parsed JSON response where the code looks at it
    without assuming its type. *)
Inductive JsValue :=
| JUndefined
| JNull
| JBool (b : bool)
| JNum (q : Q)
| JStr (s : JsString)
| JObject.

(** An [Error]: its message and, for a system error, its [code]. *)
Record ErrorObj := mkError {
  message : JsString;
  code : option JsString
}.

(** What the [try] block of [doFetchQuota] can throw.  The message of the
    second one is the template literal built from the two values; the
    model keeps the values. *)
Inductive Thrown :=
| Failed (e : ErrorObj)
| InvalidCode (code message : JsValue).

(** [ModelConfig] and [UserStatusResponse] of [lib/types.ts], with the
    fields the client reads.  [None] is an absent ([undefined]) field. *)
Record QuotaInfo := mkQuotaInfo {
  qi_remainingFraction : option Q;
  qi_resetTime : option JsString
}.
Record ModelConfig := mkModelConfig {
  mc_label : JsString;
  mc_model : JsString;            (* [modelOrAlias.model] *)
  mc_quotaInfo : option QuotaInfo
}.
Record UserStatus := mkUserStatus {
  us_clientModelConfigs : option (list ModelConfig);
      (* [cascadeModelConfigData?.clientModelConfigs] *)
  us_userTierName : option JsString      (* [userTier?.name] *)
}.
Record Response := mkResponse {
  r_code : JsValue;
  r_message : JsValue;
  r_userStatus : option UserStatus
}.

(** [ModelQuotaInfo] and [QuotaSnapshot]; dates are milliseconds since the
    epoch. *)
Record ModelQuotaInfo := mkModelQuotaInfo {
  label : JsString;
  modelId : JsString;
  remainingFraction : option Q;
  remainingPercentage : option Q;
  isExhausted : bool;
  resetTime : Z;
  timeUntilReset : Z;
  timeUntilResetFormatted : JsString
}.
Record QuotaSnapshot := mkSnapshot {
  timestamp : Z;
  models : list ModelQuotaInfo;
  planName : option JsString
}.

Definition MAX_RETRY_COUNT : nat := 3.
Definition RETRY_DELAY_MS : Z := 5000.

(** The largest time value of a [Date]. *)
Definition FAR_FUTURE : Z := 8640000000000000.

(* --------------------------------------------------------------------- *)
(** *** makeRequest *)
(* --------------------------------------------------------------------- *)

(** The requests [doRequest] puts on the wire. *)
Inductive Request :=
| Https (port : Z)
| Http (port : Z).

Section MakeRequest.

(** [doRequest(useHttps, targetPort)]: rejects with an [Error] or
    resolves with the parsed body ([None] for a body that is not an
    object, such as [null]). *)
Variable doRequest : bool -> Z -> ErrorObj + option Response.

(** The test of the [catch] clause on the rejected HTTPS attempt. *)
Definition isProtocolMismatch (error : ErrorObj) : bool :=
  let msg := toLowerCase (message error) in
  (match code error with
   | Some c => str_eqb c (js "EPROTO")
   | None => false
   end
   || includes (js "wrong_version_number") msg)%bool.

(** [makeRequest(config, port, httpPort, csrfToken)]: the requests
    issued, in order, and the outcome. *)
Definition makeRequest (port : Z) (httpPort : option Z)
           (csrfToken : option JsString)
  : list Request * (ErrorObj + option Response) :=
  match csrfToken with
  | Some (_ :: _) =>
      match doRequest true port with
      | inr response => ([Https port], inr response)
      | inl error =>
          match httpPort with
          | Some fallback =>
              if isProtocolMismatch error
              then ([Https port; Http fallback], doRequest false fallback)
              else ([Https port], inl error)
          | None => ([Https port], inl error)
          end
      end
  | _ => ([], inl (mkError (js "Missing CSRF token") None))
  end.

End MakeRequest.

(* --------------------------------------------------------------------- *)
(** *** Response validation and parsing *)
(* --------------------------------------------------------------------- *)

(** [okValues.includes(code)] with
    [okValues = [0, "0", "OK", "Ok", "ok", "success", "SUCCESS"]];
    [includes] compares with SameValueZero. *)
Definition okValues : list JsString :=
  [js "0"; js "OK"; js "Ok"; js "ok"; js "success"; js "SUCCESS"].
Definition isOkValue (code : JsValue) : bool :=
  match code with
  | JNum q => Qeq_bool q 0
  | JStr s => existsb (str_eqb s) okValues
  | _ => false
  end.

(** [getInvalidCodeInfo(response)]: [None] is [null], otherwise the pair
    [{ code, message }]. *)
Definition getInvalidCodeInfo (response : option Response)
  : option (JsValue * JsValue) :=
  let code :=
    match response with Some r => r_code r | None => JUndefined end in
  match code with
  | JUndefined | JNull => None
  | _ =>
      if isOkValue code then None
      else Some (code,
                 match response with
                 | Some r => r_message r
                 | None => JUndefined
                 end)
  end.

(** [formatTimeUntilReset(ms)] *)
Definition formatTimeUntilReset (ms : Z) : JsString :=
  if ms <=? 0 then js "Expired"
  else
    let seconds := ms / 1000 in
    let minutes := seconds / 60 in
    let hours := minutes / 60 in
    let days := hours / 24 in
    if days >? 0 then
      of_Z days ++ js "d" ++ of_Z (hours mod 24) ++ js "h from now"
    else if hours >? 0 then
      of_Z hours ++ js "h " ++ of_Z (minutes mod 60) ++ js "m from now"
    else if minutes >? 0 then
      of_Z minutes ++ js "m " ++ of_Z (seconds mod 60) ++ js "s from now"
    else of_Z seconds ++ js "s from now".

Section Parsing.

(** [new Date(s).getTime()]: the time value of a date string, [None]
    when the host cannot parse it ([NaN]). *)
Variable parseDate : JsString -> option Z.

(** The wall clock: what the [n]-th reading during one parse returns. *)
Variable now : nat -> Z.

(** Computations that read the clock. *)
Definition Clk (A : Type) : Type := nat -> A * nat.
Definition ret {A} (a : A) : Clk A := fun n => (a, n).
Definition bind {A B} (m : Clk A) (f : A -> Clk B) : Clk B :=
  fun n => let (a, n') := m n in f a n'.
Definition Date_now : Clk Z := fun n => (now n, S n).

(** [!quotaInfo.resetTime || quotaInfo.resetTime === "infinite"] *)
Definition noCountdown (resetTime : option JsString) : bool :=
  match resetTime with
  | None => true
  | Some s => (negb (truthy s) || str_eqb s (js "infinite"))%bool
  end.

(** [parseModelQuota(config)] for a [config] that has [quotaInfo]. *)
Definition parseModelQuota (config : ModelConfig) (quotaInfo : QuotaInfo)
  : Clk ModelQuotaInfo :=
  let remainingFraction := qi_remainingFraction quotaInfo in
  bind
    (if noCountdown (qi_resetTime quotaInfo) then
       ret (FAR_FUTURE, FAR_FUTURE)
     else
       bind
         (match parseDate (match qi_resetTime quotaInfo with
                           | Some s => s
                           | None => []
                           end) with
          | Some t => ret t
          | None =>
              bind Date_now (fun n => ret (n + 24 * 60 * 60 * 1000))
          end)
         (fun resetTime =>
            bind Date_now (fun n => ret (resetTime, resetTime - n))))
    (fun times =>
       ret (mkModelQuotaInfo
              (mc_label config)
              (mc_model config)
              remainingFraction
              (match remainingFraction with
               | Some f => Some (f * 100)%Q
               | None => None
               end)
              (match remainingFraction with
               | None => true
               | Some f => Qeq_bool f 0
               end)
              (fst times)
              (snd times)
              (formatTimeUntilReset (snd times)))).

(** [modelConfigs.filter((config) => config.quotaInfo).map(...)] *)
Fixpoint parseModels (configs : list ModelConfig)
  : Clk (list ModelQuotaInfo) :=
  match configs with
  | [] => ret []
  | config :: configs' =>
      match mc_quotaInfo config with
      | Some quotaInfo =>
          bind (parseModelQuota config quotaInfo) (fun m =>
          bind (parseModels configs') (fun ms => ret (m :: ms)))
      | None => parseModels configs'
      end
  end.

(** [parseGetUserStatusResponse(response)] *)
Definition parseGetUserStatusResponse (response : option Response)
  : ErrorObj + QuotaSnapshot :=
  match response with
  | Some r =>
      match r_userStatus r with
      | Some userStatus =>
          let modelConfigs :=
            match us_clientModelConfigs userStatus with
            | Some cs => cs
            | None => []
            end in
          let (models, n) := parseModels modelConfigs O in
          inr (mkSnapshot (now n) models (us_userTierName userStatus))
      | None => inl (mkError (js "Invalid response format") None)
      end
  | None => inl (mkError (js "Invalid response format") None)
  end.

End Parsing.

(* --------------------------------------------------------------------- *)
(** *** The polling state machine *)
(* --------------------------------------------------------------------- *)

(** The fields of an [AntigravityClient].  Callbacks, timers and agents
    are opaque handles. *)
Record State := mkState {
  port : Z;
  httpPort : option Z;
  pollingInterval : option nat;
  updateCallback : option nat;
  errorCallback : option nat;
  statusCallback : option nat;
  isFirstAttempt : bool;
  retryCount : nat;
  isRetrying : bool;
  csrfToken : option JsString;
  httpsAgent : nat;
  httpAgent : nat
}.

Inductive Status := fetching | retrying.

(** What a method does to the outside, in order. *)
Inductive Effect :=
| Sent (r : Request)
| StatusCalled (callback : nat) (status : Status) (retryCount : option nat)
| UpdateCalled (callback : nat) (snapshot : QuotaSnapshot)
| ErrorCalled (callback : nat) (error : Thrown)
| RetryScheduled (delay : Z)
| IntervalSet (timer : nat) (intervalMs : Z)
| IntervalCleared (timer : nat).

(** [new AntigravityClient(port, csrfToken, httpPort)] *)
Definition constructor (port : Z) (csrfToken : option JsString)
           (httpPort : option Z) (httpsAgent httpAgent : nat) : State :=
  mkState port
          (Some (match httpPort with Some h => h | None => port end))
          None None None None true O false csrfToken httpsAgent httpAgent.

(** [setAuthInfo(_unused, csrfToken)] *)
Definition setAuthInfo (st : State) (csrfToken : option JsString) : State :=
  mkState (port st) (httpPort st) (pollingInterval st) (updateCallback st)
          (errorCallback st) (statusCallback st) (isFirstAttempt st)
          (retryCount st) (isRetrying st) csrfToken
          (httpsAgent st) (httpAgent st).

(** [setPorts(connectPort, httpPort)] *)
Definition setPorts (st : State) (connectPort : Z) (httpPort : option Z)
  : State :=
  mkState connectPort
          (Some (match httpPort with Some h => h | None => connectPort end))
          (pollingInterval st) (updateCallback st)
          (errorCallback st) (statusCallback st) (isFirstAttempt st)
          O (isRetrying st) (csrfToken st)
          (httpsAgent st) (httpAgent st).

Definition onQuotaUpdate (st : State) (callback : nat) : State :=
  mkState (port st) (httpPort st) (pollingInterval st) (Some callback)
          (errorCallback st) (statusCallback st) (isFirstAttempt st)
          (retryCount st) (isRetrying st) (csrfToken st)
          (httpsAgent st) (httpAgent st).
Definition onError (st : State) (callback : nat) : State :=
  mkState (port st) (httpPort st) (pollingInterval st) (updateCallback st)
          (Some callback) (statusCallback st) (isFirstAttempt st)
          (retryCount st) (isRetrying st) (csrfToken st)
          (httpsAgent st) (httpAgent st).
Definition onStatus (st : State) (callback : nat) : State :=
  mkState (port st) (httpPort st) (pollingInterval st) (updateCallback st)
          (errorCallback st) (Some callback) (isFirstAttempt st)
          (retryCount st) (isRetrying st) (csrfToken st)
          (httpsAgent st) (httpAgent st).

(** The three updates of [doFetchQuota]. *)
Definition succeeded (st : State) : State :=
  mkState (port st) (httpPort st) (pollingInterval st) (updateCallback st)
          (errorCallback st) (statusCallback st) false
          O false (csrfToken st) (httpsAgent st) (httpAgent st).
Definition willRetry (st : State) : State :=
  mkState (port st) (httpPort st) (pollingInterval st) (updateCallback st)
          (errorCallback st) (statusCallback st) (isFirstAttempt st)
          (S (retryCount st)) true (csrfToken st)
          (httpsAgent st) (httpAgent st).
Definition gaveUp (st : State) : State :=
  mkState (port st) (httpPort st) (pollingInterval st) (updateCallback st)
          (errorCallback st) (statusCallback st) (isFirstAttempt st)
          O false (csrfToken st) (httpsAgent st) (httpAgent st).
Definition withRetrying (st : State) (b : bool) : State :=
  mkState (port st) (httpPort st) (pollingInterval st) (updateCallback st)
          (errorCallback st) (statusCallback st) (isFirstAttempt st)
          (retryCount st) b (csrfToken st) (httpsAgent st) (httpAgent st).
Definition withInterval (st : State) (t : option nat) : State :=
  mkState (port st) (httpPort st) t (updateCallback st)
          (errorCallback st) (statusCallback st) (isFirstAttempt st)
          (retryCount st) (isRetrying st) (csrfToken st)
          (httpsAgent st) (httpAgent st).

(** The world one fetch runs in: the network and the clock. *)
Record World := mkWorld {
  doRequest : bool -> Z -> ErrorObj + option Response;
  now : nat -> Z
}.

Section Polling.

Variable parseDate : JsString -> option Z.

(** The [try] block of [doFetchQuota] up to the snapshot: the requests
    sent and what is thrown or computed. *)
Definition attempt (w : World) (st : State)
  : list Request * (Thrown + QuotaSnapshot) :=
  let (sent, outcome) :=
    makeRequest (doRequest w) (port st) (httpPort st) (csrfToken st) in
  (sent,
   match outcome with
   | inl error => inl (Failed error)
   | inr response =>
       match getInvalidCodeInfo response with
       | Some invalid => inl (InvalidCode (fst invalid) (snd invalid))
       | None =>
           match parseGetUserStatusResponse parseDate (now w) response with
           | inl error => inl (Failed error)
           | inr snapshot => inr snapshot
           end
       end
   end).

Definition callIf {A} (callback : option nat) (f : nat -> A) : list A :=
  match callback with Some cb => [f cb] | None => [] end.

(** [doFetchQuota()].  The registered callbacks are taken to return
    normally. *)
Definition doFetchQuota (w : World) (st : State) : State * list Effect :=
  let announced :=
    if isFirstAttempt st
    then callIf (statusCallback st) (fun cb => StatusCalled cb fetching None)
    else [] in
  let (sent, outcome) := attempt w st in
  match outcome with
  | inr snapshot =>
      (succeeded st,
       announced ++ List.map Sent sent
       ++ callIf (updateCallback st) (fun cb => UpdateCalled cb snapshot))
  | inl error =>
      if (retryCount st <? MAX_RETRY_COUNT)%nat then
        (willRetry st,
         announced ++ List.map Sent sent
         ++ callIf (statusCallback st)
              (fun cb => StatusCalled cb retrying
                           (Some (S (retryCount st))))
         ++ [RetryScheduled RETRY_DELAY_MS])
      else
        (gaveUp st,
         announced ++ List.map Sent sent
         ++ callIf (errorCallback st) (fun cb => ErrorCalled cb error))
  end.

(** [fetchQuota()]: what the interval timer calls on every tick. *)
Definition fetchQuota (w : World) (st : State) : State * list Effect :=
  if isRetrying st then (st, []) else doFetchQuota w st.

(** [quickRefresh()] *)
Definition quickRefresh (w : World) (st : State) : State * list Effect :=
  doFetchQuota w st.

(** The callback handed to [setTimeout] by a failed attempt. *)
Definition retryTimer (w : World) (st : State) : State * list Effect :=
  fetchQuota w (withRetrying st false).

(** [stopPolling()] *)
Definition stopPolling (st : State) : State * list Effect :=
  match pollingInterval st with
  | Some timer => (withInterval st None, [IntervalCleared timer])
  | None => (st, [])
  end.

(** [startPolling(intervalMs)]; [timer] is what [setInterval] returns. *)
Definition startPolling (w : World) (intervalMs : Z) (timer : nat)
           (st : State) : State * list Effect :=
  let (st1, e1) := stopPolling st in
  let (st2, e2) := fetchQuota w st1 in
  (withInterval st2 (Some timer),
   e1 ++ e2 ++ [IntervalSet timer intervalMs]).

(** A sequence of [doFetchQuota] calls, one world per call. *)
Fixpoint fetches (ws : list World) (st : State) : State * list Effect :=
  match ws with
  | [] => (st, [])
  | w :: ws' =>
      let (st1, e1) := doFetchQuota w st in
      let (st2, e2) := fetches ws' st1 in
      (st2, e1 ++ e2)
  end.

End Polling.

(** The calls of the error subscriber in a trace, and the timers it
    cancels. *)
Definition isErrorCall (e : Effect) : bool :=
  match e with ErrorCalled _ _ => true | _ => false end.
Definition isIntervalCleared (e : Effect) : bool :=
  match e with IntervalCleared _ => true | _ => false end.
Definition errorCalls (es : list Effect) : list Effect :=
  filter isErrorCall es.
Definition intervalsCleared (es : list Effect) : list Effect :=
  filter isIntervalCleared es.

(** The attempt made in world [w] throws. *)
Definition attemptFails (parseDate : JsString -> option Z) (w : World)
           (st : State) : bool :=
  match snd (attempt parseDate w st) with
  | inl _ => true
  | inr _ => false
  end.

(** The seven application-level codes of [okValues]. *)
Definition acceptedCode (c : JsValue) : Prop :=
  (exists q, c = JNum q /\ (q == 0)%Q)
  \/ c = JStr (js "0") \/ c = JStr (js "OK") \/ c = JStr (js "Ok")
  \/ c = JStr (js "ok") \/ c = JStr (js "success")
  \/ c = JStr (js "SUCCESS").

(** The six codes the specification lists: [okValues] without ["Ok"]. *)
Definition listedCode (c : JsValue) : Prop :=
  (exists q, c = JNum q /\ (q == 0)%Q)
  \/ c = JStr (js "0") \/ c = JStr (js "OK")
  \/ c = JStr (js "ok") \/ c = JStr (js "success")
  \/ c = JStr (js "SUCCESS").

(** The signature of a protocol mismatch read with exact letter case: the
    [EPROTO] code, or [wrong_version_number] in the message as it is. *)
Definition literalMismatch (error : ErrorObj) : Prop :=
  code error = Some (js "EPROTO")
  \/ includes (js "wrong_version_number") (message error) = true.

End Client.

(* ===================================================================== *)
(** ** Concrete inputs used by the examples *)
(* ===================================================================== *)

Module Fixtures.
Import Client.

Definition token : JsString := js "0123abcd-4567-89ef".

(** Command output: the lines joined by line feeds. *)
Definition output (lines : list string) : JsString :=
  join [10%N] (List.map js lines).

(** Ports 3, 1, 3, 2 in the layouts of [lsof], [ss], [netstat], of a
    resolver that prints [localhost], and of the Windows [netstat]. *)
Definition lsofLines : list string :=
  ["language_ 100 me 20u IPv4 0x1 0t0 TCP 127.0.0.1:3 (LISTEN)";
   "language_ 100 me 21u IPv4 0x2 0t0 TCP 127.0.0.1:1 (LISTEN)";
   "language_ 100 me 22u IPv4 0x3 0t0 TCP 127.0.0.1:3 (LISTEN)";
   "language_ 100 me 23u IPv4 0x4 0t0 TCP 127.0.0.1:2 (LISTEN)"]%string.
Definition ssLines : list string :=
  ["LISTEN 0 128 127.0.0.1:3 0.0.0.0:* users:((language_,pid=100,fd=20))";
   "LISTEN 0 128 *:1 *:* users:((language_,pid=100,fd=21))";
   "LISTEN 0 128 127.0.0.1:3 0.0.0.0:* users:((language_,pid=100,fd=22))";
   "LISTEN 0 128 127.0.0.1:2 0.0.0.0:* users:((language_,pid=100,fd=23))"
  ]%string.
Definition netstatLines : list string :=
  ["tcp 0 0 127.0.0.1:3 0.0.0.0:* LISTEN 100/language_";
   "tcp 0 0 127.0.0.1:1 0.0.0.0:* LISTEN 100/language_";
   "tcp 0 0 127.0.0.1:3 0.0.0.0:* LISTEN 100/language_";
   "tcp 0 0 127.0.0.1:2 0.0.0.0:* LISTEN 100/language_"]%string.
Definition localhostLines : list string :=
  ["language_ 100 me 20u IPv4 0x1 0t0 TCP localhost:3 (LISTEN)";
   "language_ 100 me 21u IPv4 0x2 0t0 TCP localhost:1 (LISTEN)";
   "tcp 0 0 localhost:3 0.0.0.0:* LISTEN 100/language_";
   "tcp 0 0 localhost:2 0.0.0.0:* LISTEN 100/language_"]%string.
Definition windowsLines : list string :=
  ["  TCP    127.0.0.1:3      0.0.0.0:0      LISTENING       100";
   "  TCP    0.0.0.0:1        0.0.0.0:0      LISTENING       100";
   "  TCP    [::1]:3          [::]:0         LISTENING       100";
   "  TCP    [::]:2           [::]:0         LISTENING       100"]%string.

(** A process table: an unrelated server that carries a token, our
    server started by some other process, and our server started by the
    caller (pid 77). *)
Definition psLines : list string :=
  ["  90     1 /opt/other/bin/language_server_linux --csrf_token=ffff";
   " 100     1 /opt/Antigravity/bin/language_server_linux --csrf_token 0a-1b --extension_server_port 5050";
   " 101    77 /usr/bin/language_server_linux --extension_server_port=6060 --csrf_token=DEAD-beef --app_data_dir antigravity"
  ]%string.

(** A host that parses no date at all, and one that knows a single date. *)
Definition noDates : JsString -> option Z := fun _ => None.

Definition refused : ErrorObj :=
  mkError (js "connect ECONNREFUSED 127.0.0.1:7070")
          (Some (js "ECONNREFUSED")).

(** The TLS failure as the extension host reports it when the server
    speaks plain HTTP. *)
Definition wrongVersion : ErrorObj :=
  mkError (js "SSL routines:OPENSSL_internal:WRONG_VERSION_NUMBER")
          (Some (js "ERR_SSL_WRONG_VERSION_NUMBER")).

Definition emptyStatus : UserStatus := mkUserStatus None None.
Definition okResponse : Response :=
  mkResponse JUndefined JUndefined (Some emptyStatus).
Definition okSnapshot : QuotaSnapshot := mkSnapshot 1000 [] None.

(** Nothing listens. *)
Definition offline : World :=
  mkWorld (fun _ _ => inl refused) (fun _ => 1000).
(** The server answers on every port. *)
Definition online : World :=
  mkWorld (fun _ _ => inr (Some okResponse)) (fun _ => 1000).
(** The server answers with the application code ["Ok"]. *)
Definition onlineOk : World :=
  mkWorld (fun _ _ =>
             inr (Some (mkResponse (JStr (js "Ok")) JUndefined
                                   (Some emptyStatus))))
          (fun _ => 1000).
(** The server answers with the application code [7]. *)
Definition rejecting : World :=
  mkWorld (fun _ _ =>
             inr (Some (mkResponse (JNum 7) (JStr (js "quota info missing"))
                                   (Some emptyStatus))))
          (fun _ => 1000).
(** TLS fails with [wrongVersion], plain HTTP answers. *)
Definition plaintext : bool -> Z -> ErrorObj + option Response :=
  fun useHttps _ => if useHttps then inl wrongVersion
                    else inr (Some okResponse).

(** A Windows machine on which the first listing command is rejected by
    the shell and every later one finds the server. *)
Definition notRecognized : JsString :=
  js "Command failed: 'powershell' is not recognized as an internal or external command".
Definition server : ProcessInfo := mkInfo 100 1 5050 token.
Definition found : Detector.Detected := Detector.mkDetected 5050 7070 token.
Definition firstCommandRejected
  : Detector.Platform -> nat -> JsString + JsString :=
  fun _ k => match k with
             | O => inl notRecognized
             | S _ => inr (js "(process listing)")
             end.
Definition parsesServer
  : Detector.Platform -> JsString -> option ProcessInfo :=
  fun _ _ => Some server.
Definition listens : nat -> Z -> list Z := fun _ _ => [7070].
Definition answers : nat -> Z -> JsString -> bool := fun _ _ _ => true.

(** A client as [SessionController.initialize] sets it up, polling. *)
Definition fresh : State :=
  withInterval
    (onError (onQuotaUpdate (constructor 7070 (Some token) (Some 5050) 1 2)
                            8) 9)
    (Some 4%nat).

(** The same client while a delayed re-attempt is pending. *)
Definition pending : State := willRetry fresh.

End Fixtures.

From Stdlib Require Import DecimalN.

(* ===================================================================== *)
(** ** Sequences of client calls *)
(* ===================================================================== *)

Module Calls.
Import Client.

(** What can happen to a client: its timers fire and its public methods
    are called, each call running to completion before the next. *)
Inductive Call :=
| Tick (w : World)                      (* the interval timer: [fetchQuota] *)
| RetryFired (w : World)                (* the timer set by a failed attempt *)
| QuickRefresh (w : World)
| StartPolling (w : World) (intervalMs : Z) (timer : nat)
| StopPolling
| SetPorts (connectPort : Z) (httpPort : option Z)
| SetAuthInfo (csrfToken : option JsString)
| OnQuotaUpdate (callback : nat)
| OnError (callback : nat)
| OnStatus (callback : nat).

Definition call (parseDate : JsString -> option Z) (c : Call) (st : State)
  : State * list Effect :=
  match c with
  | Tick w => fetchQuota parseDate w st
  | RetryFired w => retryTimer parseDate w st
  | QuickRefresh w => quickRefresh parseDate w st
  | StartPolling w intervalMs timer =>
      startPolling parseDate w intervalMs timer st
  | StopPolling => stopPolling st
  | SetPorts connectPort httpPort => (setPorts st connectPort httpPort, [])
  | SetAuthInfo csrfToken => (setAuthInfo st csrfToken, [])
  | OnQuotaUpdate callback => (onQuotaUpdate st callback, [])
  | OnError callback => (onError st callback, [])
  | OnStatus callback => (onStatus st callback, [])
  end.

Fixpoint calls (parseDate : JsString -> option Z) (cs : list Call)
         (st : State) : State * list Effect :=
  match cs with
  | [] => (st, [])
  | c :: cs' =>
      let (st1, e1) := call parseDate c st in
      let (st2, e2) := calls parseDate cs' st1 in
      (st2, e1 ++ e2)
  end.

Definition isRetryScheduled (e : Effect) : bool :=
  match e with RetryScheduled _ => true | _ => false end.
Definition isFetchingStatus (e : Effect) : bool :=
  match e with StatusCalled _ fetching _ => true | _ => false end.
Definition isUpdateCall (e : Effect) : bool :=
  match e with UpdateCalled _ _ => true | _ => false end.

Definition count (p : Effect -> bool) (es : list Effect) : nat :=
  List.length (filter p es).

(** The interval timers still running after a trace, given those running
    before it. *)
Fixpoint activeTimers (es : list Effect) (active : list nat) : list nat :=
  match es with
  | [] => active
  | IntervalSet timer _ :: es' => activeTimers es' (timer :: active)
  | IntervalCleared timer :: es' =>
      activeTimers es' (remove Nat.eq_dec timer active)
  | _ :: es' => activeTimers es' active
  end.

Definition isTimerEffect (e : Effect) : bool :=
  match e with
  | IntervalSet _ _ | IntervalCleared _ => true
  | _ => false
  end.

Definition scheduled (st : State) : list nat :=
  match pollingInterval st with Some timer => [timer] | None => [] end.

End Calls.

(* ===================================================================== *)
(** ** Reading a snapshot off the configurations *)
(* ===================================================================== *)

Module Entries.
Import Client.

(** The configurations that carry [quotaInfo], each with it, in order:
    what [filter((config) => config.quotaInfo)] keeps. *)
Fixpoint withQuota (configs : list ModelConfig)
  : list (ModelConfig * QuotaInfo) :=
  match configs with
  | [] => []
  | config :: configs' =>
      match mc_quotaInfo config with
      | Some quotaInfo => (config, quotaInfo) :: withQuota configs'
      | None => withQuota configs'
      end
  end.

(** The fields of a model entry that do not depend on the clock. *)
Definition described (m : ModelQuotaInfo)
  : JsString * JsString * option Q * bool :=
  (label m, modelId m, remainingFraction m, isExhausted m).
Definition expected (e : ModelConfig * QuotaInfo)
  : JsString * JsString * option Q * bool :=
  (mc_label (fst e), mc_model (fst e), qi_remainingFraction (snd e),
   match qi_remainingFraction (snd e) with
   | None => true
   | Some f => Qeq_bool f 0
   end).

End Entries.

(* ===================================================================== *)
(** ** Measuring a detection run *)
(* ===================================================================== *)

Module Effort.
Import Detector.

Definition isTried (e : Event) : bool :=
  match e with Tried _ _ => true | _ => false end.
Definition isWaited (e : Event) : bool :=
  match e with Waited _ => true | _ => false end.

(** How many [try] blocks a run executed and how often it slept. *)
Definition tries (es : list Event) : nat := List.length (filter isTried es).
Definition waits (es : list Event) : nat := List.length (filter isWaited es).

(** The run ended with a [try] block, not with a wait. *)
Definition endsWithTry (es : list Event) : Prop :=
  exists before attempt p, es = before ++ [Tried attempt p].

End Effort.

(* --------------------------------------------------------------------- *)
(** *** Text that a match needs *)
(* --------------------------------------------------------------------- *)

Module Text.

(** [needle] occurs in [s]. *)
Definition occurs (needle s : JsString) : Prop :=
  exists a b, s = a ++ needle ++ b.

(** Every match of [r] starts where [needle] is still ahead. *)
Definition needs (needle : JsString) (r : regex) : Prop :=
  forall st m, In m (run r st) -> occurs needle (rest st).

(** The same for text that equals [needle] once lower-cased. *)
Definition needs_i (needle : JsString) (r : regex) : Prop :=
  forall st m, In m (run r st) ->
  exists t, toLowerCase t = needle /\ occurs t (rest st).

(** The run of [p] that was read ends here: the text is over, or its
    next unit is not in [p]. *)
Definition ends (p : N -> bool) (after : JsString) : Prop :=
  match after with
  | [] => True
  | x :: _ => p x = false
  end.

(** [value] is what follows a flag in [cmd]: the flag, a run of [=] and
    white space, then the whole run of [p] that starts there. *)
Definition valueOf (isFlag : JsString -> Prop) (p : N -> bool)
           (cmd value : JsString) : Prop :=
  exists before flag seps after,
    cmd = before ++ flag ++ seps ++ value ++ after
    /\ isFlag flag
    /\ seps <> [] /\ Forall (fun c => eq_or_space c = true) seps
    /\ value <> [] /\ Forall (fun c => p c = true) value
    /\ ends p after.

(** The command line names the application's data directory: the flag
    [--app_data_dir], white space, and the word [antigravity], in any
    letter case and ending at a word boundary. *)
Definition namesDataDir (cmd : JsString) : Prop :=
  exists pre flag sp word rest,
    cmd = pre ++ flag ++ sp ++ word ++ rest
    /\ toLowerCase flag = js "--app_data_dir"
    /\ sp <> [] /\ Forall (fun c => is_space c = true) sp
    /\ toLowerCase word = js "antigravity"
    /\ ends is_word rest.

End Text.

(* ===================================================================== *)
(** ** PortDetectionService and SessionController *)
(* ===================================================================== *)

Module Controller.
Import Client.

(** [PortDetectionResult], without its two constant fields. *)
Record PortDetectionResult := mkResult {
  pd_port : Z;
  pd_connectPort : Z;
  pd_httpPort : Z;
  pd_csrfToken : JsString
}.

(** [detectPort()], given what [detectProcessInfo()] resolves to. *)
Definition detectPort (processInfo : option Detector.Detected)
  : option PortDetectionResult :=
  match processInfo with
  | None => None
  | Some info =>
      Some (mkResult (Detector.d_connectPort info)
                     (Detector.d_connectPort info)
                     (Detector.d_extensionPort info)
                     (Detector.d_csrfToken info))
  end.

(** [result?.port && result.csrfToken] *)
Definition usable (result : option PortDetectionResult) : bool :=
  match result with
  | Some r => (negb (pd_port r =? 0) && truthy (pd_csrfToken r))%bool
  | None => false
  end.

(** [QuotaData] and the entries of its [models]. *)
Record QuotaModel := mkQuotaModel {
  qm_id : JsString;
  qm_name : JsString;
  qm_pct : Q;
  qm_time : JsString;
  qm_resetTime : Z
}.
Record QuotaData := mkQuotaData {
  qd_planName : option JsString;
  qd_models : list QuotaModel;
  qd_needsLogin : option bool
}.

(** The [formatTime] of [transformSnapshotToQuotaData]. *)
Definition formatTime (ms : Z) : JsString :=
  if ms <=? 0 then js "Expired"
  else
    let seconds := ms / 1000 in
    let minutes := seconds / 60 in
    let hours := minutes / 60 in
    if hours >? 0 then
      of_Z hours ++ js "h " ++ of_Z (minutes mod 60) ++ js "m"
    else of_Z minutes ++ js "m".

(** The fields of the [SessionController]; the service is an opaque
    object, and each listener a handle. *)
Record Session := mkSession {
  cachedData : option QuotaData;
  client : option State;
  portDetectionService : bool;
  isInitialized : bool;
  isReconnecting : bool;
  updateListeners : list nat
}.

Definition withCachedData (s : Session) (d : option QuotaData) : Session :=
  mkSession d (client s) (portDetectionService s) (isInitialized s)
            (isReconnecting s) (updateListeners s).
Definition withClient (s : Session) (c : option State) : Session :=
  mkSession (cachedData s) c (portDetectionService s) (isInitialized s)
            (isReconnecting s) (updateListeners s).
Definition withService (s : Session) (b : bool) : Session :=
  mkSession (cachedData s) (client s) b (isInitialized s)
            (isReconnecting s) (updateListeners s).
Definition withInitialized (s : Session) (b : bool) : Session :=
  mkSession (cachedData s) (client s) (portDetectionService s) b
            (isReconnecting s) (updateListeners s).
Definition withReconnecting (s : Session) (b : bool) : Session :=
  mkSession (cachedData s) (client s) (portDetectionService s)
            (isInitialized s) b (updateListeners s).
Definition withListeners (s : Session) (ls : list nat) : Session :=
  mkSession (cachedData s) (client s) (portDetectionService s)
            (isInitialized s) (isReconnecting s) ls.

(** [SessionController.shared()] when first called. *)
Definition shared : Session := mkSession None None false false false [].

(** What the controller does to the outside: what its client does, the
    calls of its listeners, and the start of a port detection. *)
Inductive Output :=
| ClientDid (e : Effect)
| Notified (listener : nat) (data : QuotaData)
| DetectionStarted.

(** The two closures [initialize] registers with its client. *)
Definition updateHandler : nat := 0%nat.
Definition errorHandler : nat := 1%nat.

(** How a port detection started by [initialize] ends: the platform is
    not supported and [new PortDetectionService] throws, or
    [detectProcessInfo()] resolves. *)
Inductive Detection :=
| Unsupported
| Resolved (processInfo : option Detector.Detected).

(** The tests of the error handler on [error.message]. *)
Definition isConnectionError (msg : JsString) : bool :=
  (includes (js "ECONNREFUSED") msg || includes (js "ETIMEDOUT") msg
   || includes (js "socket hang up") msg || includes (js "network") msg)%bool.
Definition isLoginError (msg : JsString) : bool :=
  (includes (js "quota info") msg || includes (js "not logged in") msg)%bool.

(** [notifyListeners()]; what a listener throws is swallowed. *)
Definition notifyListeners (s : Session) : list Output :=
  match cachedData s with
  | Some data => List.map (fun l => Notified l data) (updateListeners s)
  | None => []
  end.

(** [tryReconnect()] up to its [await]: the guard, and the [finally]
    when there is no service to ask. *)
Definition tryReconnect (s : Session) : Session * list Output :=
  if isReconnecting s then (s, [])
  else if portDetectionService s
       then (withReconnecting s true, [DetectionStarted])
       else (s, []).

(** [onDataUpdate(listener)] *)
Definition onDataUpdate (listener : nat) (s : Session)
  : Session * list Output :=
  (withListeners s (updateListeners s ++ [listener]),
   match cachedData s with
   | Some data => [Notified listener data]
   | None => []
   end).

Section Session.

(** The host: [new Date(s).getTime()], the string a template literal
    makes of a value, and the controller's readings of [Date.now()]. *)
Variable parseDate : JsString -> option Z.
Variable toStr : JsValue -> JsString.
Variable now : nat -> Z.

(** One entry of [snapshot.models.map(...)]. *)
Definition transformModel (model : ModelQuotaInfo) : Clk QuotaModel :=
  bind
    (if timeUntilReset model >? 0
     then bind (Date_now now) (fun n => ret (n + timeUntilReset model))
     else ret 0)
    (fun resetTime =>
       ret (mkQuotaModel
              (modelId model)
              (if truthy (label model) then label model else modelId model)
              (match remainingPercentage model with
               | Some pct => if Qeq_bool pct 0 then 0%Q else pct
               | None => 0%Q
               end)
              (formatTime (timeUntilReset model))
              resetTime)).

Fixpoint transformModels (models : list ModelQuotaInfo)
  : Clk (list QuotaModel) :=
  match models with
  | [] => ret []
  | model :: models' =>
      bind (transformModel model) (fun m =>
      bind (transformModels models') (fun ms => ret (m :: ms)))
  end.

(** [transformSnapshotToQuotaData(snapshot)] *)
Definition transformSnapshotToQuotaData (snapshot : QuotaSnapshot)
  : Clk QuotaData :=
  bind (transformModels (models snapshot)) (fun ms =>
  ret (mkQuotaData (planName snapshot) ms None)).

(** [error.message] of what the client hands to its error callback. *)
Definition errorMessage (error : Thrown) : JsString :=
  match error with
  | Failed e => message e
  | InvalidCode code msg =>
      js "Invalid code " ++ toStr code ++ js ": " ++ toStr msg
  end.

(** The closure given to [onQuotaUpdate]. *)
Definition onQuotaUpdateHandler (snapshot : QuotaSnapshot) (s : Session)
  : Clk (Session * list Output) :=
  bind (transformSnapshotToQuotaData snapshot) (fun data =>
  let s' := withCachedData s (Some data) in
  ret (s', notifyListeners s')).

(** The closure given to [onError], up to its first [await]. *)
Definition onErrorHandler (error : Thrown) (s : Session)
  : Session * list Output :=
  let msg := errorMessage error in
  if isConnectionError msg then tryReconnect s
  else if isLoginError msg then
    let s' := withCachedData s (Some (mkQuotaData None [] (Some true))) in
    (s', notifyListeners s')
  else (s, []).

(** The controller's side of a run of its client: each callback the
    client makes runs the closure registered for it. *)
Fixpoint react (es : list Effect) (s : Session)
  : Clk (Session * list Output) :=
  match es with
  | [] => ret (s, [])
  | e :: es' =>
      bind (match e with
            | UpdateCalled _ snapshot => onQuotaUpdateHandler snapshot s
            | ErrorCalled _ error => ret (onErrorHandler error s)
            | _ => ret (s, [])
            end) (fun r1 =>
      bind (react es' (fst r1)) (fun r2 =>
      ret (fst r2, ClientDid e :: snd r1 ++ snd r2)))
  end.

(** A method of the client called on [this.client], when there is one. *)
Definition drive (method : State -> State * list Effect) (s : Session)
  : Clk (Session * list Output) :=
  match client s with
  | Some c =>
      let (c', es) := method c in react es (withClient s (Some c'))
  | None => ret (s, [])
  end.

(** [initialize(context)], with the outcome of the detection it awaits,
    the worlds of the two fetches it makes, and the handles the host
    gives to the interval timer and the two agents. *)
Definition initialize (detection : Detection) (w1 w2 : World)
           (timer httpsAgent httpAgent : nat) (s : Session)
  : Clk (bool * (Session * list Output)) :=
  if isInitialized s then ret (true, (s, []))
  else
    match detection with
    | Unsupported => ret (false, (s, []))
    | Resolved processInfo =>
        let s0 := withService s true in
        match detectPort processInfo with
        | Some detectionResult =>
            if usable (Some detectionResult) then
              let c :=
                onError
                  (onQuotaUpdate
                     (constructor (pd_port detectionResult)
                                  (Some (pd_csrfToken detectionResult))
                                  (Some (pd_httpPort detectionResult))
                                  httpsAgent httpAgent)
                     updateHandler)
                  errorHandler in
              bind (drive (startPolling parseDate w1 15000 timer)
                          (withClient s0 (Some c))) (fun r1 =>
              bind (drive (quickRefresh parseDate w2) (fst r1)) (fun r2 =>
              ret (true,
                   (withInitialized (fst r2) true,
                    DetectionStarted :: snd r1 ++ snd r2))))
            else ret (false, (s0, [DetectionStarted]))
        | None => ret (false, (s0, [DetectionStarted]))
        end
    end.

(** [fetchQuotaData()] *)
Definition fetchQuotaData (w : World) (s : Session)
  : Clk (option QuotaData * (Session * list Output)) :=
  if negb (isInitialized s) then ret (None, (s, []))
  else
    match cachedData s, client s with
    | None, Some _ =>
        bind (drive (quickRefresh parseDate w) s) (fun r =>
        ret (cachedData (fst r), r))
    | _, _ => ret (cachedData s, (s, []))
    end.

(** [tryReconnect()] from its [await] on: the detection has resolved
    ([None] also stands for a detection that threw). *)
Definition reconnected (processInfo : option Detector.Detected) (w : World)
           (s : Session) : Clk (Session * list Output) :=
  bind (match detectPort processInfo with
        | Some result =>
            if usable (Some result) then
              drive (fun c =>
                       quickRefresh parseDate w
                         (setAuthInfo
                            (setPorts c (pd_port result)
                                      (Some (pd_httpPort result)))
                            (Some (pd_csrfToken result))))
                    s
            else ret (s, [])
        | None => ret (s, [])
        end) (fun r =>
  ret (withReconnecting (fst r) false, snd r)).

(** [stop()] *)
Definition stop (s : Session) : Clk (Session * list Output) :=
  drive stopPolling s.

(** What happens to a controller: its methods are called, the timers of
    its client fire, and a detection it waits for resolves.  Each runs
    to completion before the next. *)
Inductive Event :=
| Initialize (detection : Detection) (w1 w2 : World)
             (timer httpsAgent httpAgent : nat)
| Tick (w : World)
| RetryFired (w : World)
| Reconnected (processInfo : option Detector.Detected) (w : World)
| FetchQuotaData (w : World)
| OnDataUpdate (listener : nat)
| Stop.

Definition step (ev : Event) (s : Session) : Clk (Session * list Output) :=
  match ev with
  | Initialize detection w1 w2 timer httpsAgent httpAgent =>
      bind (initialize detection w1 w2 timer httpsAgent httpAgent s)
           (fun r => ret (snd r))
  | Tick w => drive (fetchQuota parseDate w) s
  | RetryFired w => drive (retryTimer parseDate w) s
  | Reconnected processInfo w =>
      if isReconnecting s then reconnected processInfo w s else ret (s, [])
  | FetchQuotaData w =>
      bind (fetchQuotaData w s) (fun r => ret (snd r))
  | OnDataUpdate listener => ret (onDataUpdate listener s)
  | Stop => stop s
  end.

Fixpoint steps (evs : list Event) (s : Session)
  : Clk (Session * list Output) :=
  match evs with
  | [] => ret (s, [])
  | ev :: evs' =>
      bind (step ev s) (fun r1 =>
      bind (steps evs' (fst r1)) (fun r2 =>
      ret (fst r2, snd r1 ++ snd r2)))
  end.

End Session.

(** A client as [initialize] and [tryReconnect] set it up: a port and a
    token that pass their guard, a fallback port, the two closures and
    no status callback. *)
Definition wired (c : State) : Prop :=
  port c <> 0
  /\ (exists t, csrfToken c = Some t /\ truthy t = true)
  /\ (exists h, httpPort c = Some h)
  /\ updateCallback c = Some updateHandler
  /\ errorCallback c = Some errorHandler
  /\ statusCallback c = None
  /\ (retryCount c <= MAX_RETRY_COUNT)%nat.

Definition managed (s : Session) : Prop :=
  (isInitialized s = true <-> client s <> None)
  /\ (client s <> None -> portDetectionService s = true)
  /\ (forall c, client s = Some c -> wired c).

Definition isDetectionStarted (o : Output) : bool :=
  match o with DetectionStarted => true | _ => false end.
Definition isNotified (o : Output) : bool :=
  match o with Notified _ _ => true | _ => false end.
Definition clientEffects (os : list Output) : list Effect :=
  flat_map (fun o => match o with ClientDid e => [e] | _ => [] end) os.

(** The detections started in a trace; the initialisations and the
    resolved reconnects among some events. *)
Definition started (os : list Output) : nat :=
  List.length (filter isDetectionStarted os).
Definition isInitialize (ev : Event) : bool :=
  match ev with Initialize _ _ _ _ _ _ => true | _ => false end.
Definition isReconnected (ev : Event) : bool :=
  match ev with Reconnected _ _ => true | _ => false end.
Definition initializations (evs : list Event) : nat :=
  List.length (filter isInitialize evs).
Definition reconnects (evs : list Event) : nat :=
  List.length (filter isReconnected evs).
Definition flag (b : bool) : nat := if b then 1%nat else 0%nat.

End Controller.

(* ===================================================================== *)
(** ** The port-listing tool of the Unix strategy *)
(* ===================================================================== *)

Module PortTools.

(** The three tools [ensurePortCommandAvailable] knows, in its order. *)
Inductive PortCommand := lsof | ss | netstat.
Definition commands : list PortCommand := [lsof; ss; netstat].

(** What the strategy does to the outside. *)
Inductive Effect :=
| Which (cmd : PortCommand)          (* [commandExists(cmd)] *)
| ShowErrorMessage (darwin : bool)   (* the notification, by platform *)
| Exec (command : JsString).         (* [execAsync(command)] *)

(** The host at the time of one call: which tools [which] finds, and
    what a command prints (or the message of its failure). *)
Record World := mkWorld {
  commandExists : PortCommand -> bool;
  execAsync : JsString -> JsString + JsString
}.

(** The loop over [commands]: the tools probed and the first found. *)
Fixpoint firstExisting (w : World) (cmds : list PortCommand)
  : list Effect * option PortCommand :=
  match cmds with
  | [] => ([], None)
  | cmd :: cmds' =>
      if commandExists w cmd then ([Which cmd], Some cmd)
      else let (probed, found) := firstExisting w cmds' in
           (Which cmd :: probed, found)
  end.

(** [ensurePortCommandAvailable()] on the field [availablePortCommand]:
    the effects, the field afterwards, and whether it throws. *)
Definition ensurePortCommandAvailable (w : World) (darwin : bool)
           (availablePortCommand : option PortCommand)
  : list Effect * option PortCommand * bool :=
  match availablePortCommand with
  | Some _ => ([], availablePortCommand, false)
  | None =>
      let (probed, found) := firstExisting w commands in
      match found with
      | Some cmd => (probed, Some cmd, false)
      | None => (probed ++ [ShowErrorMessage darwin], None, true)
      end
  end.

(** [getPortListCommand(pid)]; [pid] is the text the template literal
    makes of the number. *)
Definition quote : JsString := [34%N].
Definition getPortListCommand (availablePortCommand : option PortCommand)
           (pid : JsString) : JsString :=
  match availablePortCommand with
  | Some lsof => js "lsof -Pan -p " ++ pid ++ js " -i"
  | Some ss =>
      js "ss -tlnp 2>/dev/null | grep " ++ quote ++ js "pid=" ++ pid
      ++ js "," ++ quote
  | Some netstat => js "netstat -tulpn 2>/dev/null | grep " ++ pid
  | None =>
      js "lsof -Pan -p " ++ pid
      ++ js " -i 2>/dev/null || ss -tlnp 2>/dev/null | grep " ++ quote
      ++ js "pid=" ++ pid ++ js "," ++ quote
  end.

(** [ProcessPortDetector.getProcessListeningPorts(pid)] on the Unix
    strategy: the effects, the strategy's field afterwards, and the
    ports. *)
Definition getProcessListeningPorts (w : World) (darwin : bool)
           (pid : JsString) (availablePortCommand : option PortCommand)
  : list Effect * option PortCommand * list Z :=
  let '(effects, available, threw) :=
    ensurePortCommandAvailable w darwin availablePortCommand in
  if threw then (effects, available, [])
  else
    let command := getPortListCommand available pid in
    match execAsync w command with
    | inr stdout =>
        (effects ++ [Exec command], available,
         Unix.parseListeningPorts stdout)
    | inl _ => (effects ++ [Exec command], available, [])
    end.

(** Successive look-ups on one strategy, each in the world of its time. *)
Fixpoint lookups (darwin : bool) (calls : list (World * JsString))
         (availablePortCommand : option PortCommand)
  : list Effect * option PortCommand :=
  match calls with
  | [] => ([], availablePortCommand)
  | (w, pid) :: calls' =>
      let '(e1, available, _) :=
        getProcessListeningPorts w darwin pid availablePortCommand in
      let (e2, final) := lookups darwin calls' available in
      (e1 ++ e2, final)
  end.

Definition isWhich (e : Effect) : bool :=
  match e with Which _ => true | _ => false end.

End PortTools.

(* ===================================================================== *)
(** ** SafePowerShellPath *)
(* ===================================================================== *)

Module SafePowerShellPath.

Inductive PathType := system32 | pwsh7 | path_fallback | not_found.

(** The two static fields. *)
Record Cache := mkCache {
  cachedPath : option JsString;
  pathType : PathType
}.

(** The class as loaded, and after [clearCache()]. *)
Definition clearCache : Cache := mkCache None not_found.

Section Paths.

(** [KNOWN_SAFE_PATHS], which depends on the [SystemRoot] of the host. *)
Variable KNOWN_SAFE_PATHS : list JsString.

(** [fs.existsSync] at the time of a call; a check that throws counts
    as a path that does not exist. *)
Variable existsSync : JsString -> bool.

(** The loop of [findSafePath()] from index [i] on. *)
Fixpoint findFrom (i : nat) (paths : list JsString) : JsString * PathType :=
  match paths with
  | [] => (js "powershell", path_fallback)
  | safePath :: paths' =>
      if existsSync safePath
      then ([34%N] ++ safePath ++ [34%N],
            if Nat.eqb i 0 then system32 else pwsh7)
      else findFrom (S i) paths'
  end.

(** [findSafePath()] *)
Definition findSafePath : JsString * PathType :=
  findFrom 0 KNOWN_SAFE_PATHS.

(** [getSafePath()]: what it returns and the static fields afterwards. *)
Definition getSafePath (st : Cache) : JsString * Cache :=
  match cachedPath st with
  | Some path => (path, st)
  | None =>
      let result := findSafePath in
      (fst result, mkCache (Some (fst result)) (snd result))
  end.

(** [getPathInfo()] *)
Definition getPathInfo (st : Cache) : (JsString * PathType) * Cache :=
  let st' := match cachedPath st with
             | None => snd (getSafePath st)
             | Some _ => st
             end in
  ((match cachedPath st' with
    | Some path => if truthy path then path else []
    | None => []
    end,
    pathType st'),
   st').

(** [isUsingPathFallback()] *)
Definition isUsingPathFallback (st : Cache) : bool * Cache :=
  let st' := snd (getSafePath st) in
  (match pathType st' with path_fallback => true | _ => false end, st').

End Paths.

End SafePowerShellPath.

(* ===================================================================== *)
(** ** PlatformDetector *)
(* ===================================================================== *)

Module PlatformTools.

(** [process.platform]: the three supported values, and any other. *)
Inductive NodePlatform :=
| win32
| darwin
| linux
| other (name : JsString).

(** [getProcessName()]; [None] when it throws "Unsupported platform". *)
Definition getProcessName (platform : NodePlatform) : option JsString :=
  match platform with
  | win32 => Some (js "language_server_windows_x64.exe")
  | darwin => Some (js "language_server_macos")
  | linux => Some (js "language_server_linux")
  | other _ => None
  end.

(** [getStrategy()]; [forcePowerShell] is the configured value of
    [antigravityQuotaWatcher.forcePowerShell], if any: [config.get]
    defaults to [true].  [None] when it throws. *)
Definition getStrategy (platform : NodePlatform)
           (forcePowerShell : option bool) : option Detector.Platform :=
  match platform with
  | win32 =>
      Some (Detector.Windows (match forcePowerShell with
                              | Some value => value
                              | None => true
                              end))
  | darwin => Some Detector.MacOS
  | linux => Some Detector.Linux
  | other _ => None
  end.

(** [getPlatformName()] *)
Definition getPlatformName (platform : NodePlatform) : JsString :=
  match platform with
  | win32 => js "Windows"
  | darwin => js "macOS"
  | linux => js "Linux"
  | other name => name
  end.

End PlatformTools.

(* --------------------------------------------------------------------- *)
(** *** More sample data *)
(* --------------------------------------------------------------------- *)

Module Samples.
Import Client Fixtures.

(** A host that reads every date as the same instant, one that prints
    every value as the empty string, and a clock that ticks once per
    reading. *)
Definition oneDate : JsString -> option Z := fun _ => Some 5000.
Definition noText : JsValue -> JsString := fun _ => [].
Definition ticking : nat -> Z := fun k => 1000 + Z.of_nat k.

(** A client with a status subscriber. *)
Definition watched : State := onStatus fresh 5%nat.

(** A process table without the server. *)
Definition lists : Detector.Platform -> nat -> JsString + JsString :=
  fun _ _ => inr (js "(process listing)").
Definition parsesNothing
  : Detector.Platform -> JsString -> option ProcessInfo :=
  fun _ _ => None.

(** A controller that waits for a detection, and one that has cached
    the needs-login mark. *)
Definition reconnecting : Controller.Session :=
  Controller.mkSession None (Some fresh) true true true [3%nat].
Definition loggedOut : Controller.Session :=
  Controller.mkSession (Some (Controller.mkQuotaData None [] (Some true)))
                       (Some fresh) true true false [3%nat].
Definition listening : Controller.Session :=
  Controller.mkSession None (Some fresh) true true false [3%nat; 6%nat].


(** A controller whose client has used up its retry budget. *)
Definition exhausted : State := willRetry (willRetry (willRetry fresh)).
Definition lost : Controller.Session :=
  Controller.mkSession None (Some exhausted) true true false [3%nat].

(** A Unix machine that prints the process table of [psLines]. *)
Definition psTable : Detector.Platform -> nat -> JsString + JsString :=
  fun _ _ => inr (output psLines).

(** The third line of [psLines], in pieces. *)
Definition childLine : JsString :=
  js " 101    77 /usr/bin/language_server_linux --extension_server_port=6060 --csrf_token=DEAD-beef --app_data_dir antigravity".
Definition childCommand : JsString :=
  js "usr/bin/language_server_linux --extension_server_port=6060 --csrf_token=DEAD-beef --app_data_dir antigravity".

End Samples.

Ltac decide_unit E cmp :=
  assert (E : cmp) by
    (first [ apply Z.leb_gt; lia
           | rewrite Z.gtb_ltb; apply Z.ltb_ge;
             Z.to_euclidean_division_equations; lia
           | rewrite Z.gtb_ltb; apply Z.ltb_lt;
             Z.to_euclidean_division_equations; lia ]).

(* ===================================================================== *)
(** ** The polling client: retry budget *)
(* ===================================================================== *)

Section ClientFacts.
Import Client.

Variable parseDate : JsString -> option Z.

Lemma attempt_same_endpoint (w : World) (st st' : State) :
  port st' = port st -> httpPort st' = httpPort st ->
  csrfToken st' = csrfToken st ->
  attempt parseDate w st' = attempt parseDate w st.
Proof.
  intros Hp Hh Hc. unfold attempt. rewrite Hp, Hh, Hc. reflexivity.
Qed.

Lemma attemptFails_same_endpoint (w : World) (st st' : State) :
  port st' = port st -> httpPort st' = httpPort st ->
  csrfToken st' = csrfToken st ->
  attemptFails parseDate w st' = attemptFails parseDate w st.
Proof.
  intros. unfold attemptFails. rewrite (attempt_same_endpoint w st st'); auto.
Qed.

Lemma errorCalls_app (a b : list Effect) :
  errorCalls (a ++ b) = errorCalls a ++ errorCalls b.
Proof. apply filter_app. Qed.

Lemma intervalsCleared_app (a b : list Effect) :
  intervalsCleared (a ++ b) = intervalsCleared a ++ intervalsCleared b.
Proof. apply filter_app. Qed.

Lemma errorCalls_sent (l : list Request) : errorCalls (List.map Sent l) = [].
Proof. induction l; simpl; auto. Qed.

Lemma intervalsCleared_sent (l : list Request) :
  intervalsCleared (List.map Sent l) = [].
Proof. induction l; simpl; auto. Qed.

(** The endpoint, the callbacks and the schedule are out of reach of
    [doFetchQuota], and it cancels no timer. *)
Lemma doFetchQuota_frame (w : World) (st : State) :
  let st' := fst (doFetchQuota parseDate w st) in
  port st' = port st /\ httpPort st' = httpPort st
  /\ csrfToken st' = csrfToken st
  /\ pollingInterval st' = pollingInterval st
  /\ updateCallback st' = updateCallback st
  /\ errorCallback st' = errorCallback st
  /\ statusCallback st' = statusCallback st
  /\ intervalsCleared (snd (doFetchQuota parseDate w st)) = [].
Proof.
  unfold doFetchQuota.
  destruct (attempt parseDate w st) as [sent [e | snap]].
  - destruct (retryCount st <? MAX_RETRY_COUNT)%nat; simpl;
      repeat split; auto;
      rewrite !intervalsCleared_app, intervalsCleared_sent;
      destruct (isFirstAttempt st), (statusCallback st), (errorCallback st);
      reflexivity.
  - simpl. repeat split; auto.
    rewrite !intervalsCleared_app, intervalsCleared_sent.
    destruct (isFirstAttempt st), (statusCallback st), (updateCallback st);
      reflexivity.
Qed.

(** A failed attempt with budget left: one more retry is counted, the
    client is [Retrying], a re-attempt is scheduled, nobody hears of an
    error. *)
Lemma doFetchQuota_retry (w : World) (st : State) :
  attemptFails parseDate w st = true ->
  (retryCount st < MAX_RETRY_COUNT)%nat ->
  let (st', es) := doFetchQuota parseDate w st in
  retryCount st' = S (retryCount st) /\ isRetrying st' = true
  /\ errorCalls es = [] /\ In (RetryScheduled RETRY_DELAY_MS) es.
Proof.
  unfold attemptFails, doFetchQuota. intros Hf Hlt.
  destruct (attempt parseDate w st) as [sent [e | snap]]; simpl in Hf;
    try discriminate.
  apply Nat.ltb_lt in Hlt. rewrite Hlt. simpl.
  repeat split; auto.
  - rewrite !errorCalls_app, errorCalls_sent.
    destruct (isFirstAttempt st), (statusCallback st); reflexivity.
  - rewrite !in_app_iff. right. right. right. left. reflexivity.
Qed.

(** A failed attempt with the budget used up: the counter restarts, the
    [Retrying] flag is down, nothing is scheduled and the error
    subscriber, if any, is called once with what was thrown. *)
Lemma doFetchQuota_exhausted (w : World) (st : State) (error : Thrown) :
  snd (attempt parseDate w st) = inl error ->
  (MAX_RETRY_COUNT <= retryCount st)%nat ->
  let (st', es) := doFetchQuota parseDate w st in
  retryCount st' = O /\ isRetrying st' = false
  /\ errorCalls es
     = match errorCallback st with
       | Some cb => [ErrorCalled cb error]
       | None => []
       end
  /\ ~ In (RetryScheduled RETRY_DELAY_MS) es.
Proof.
  unfold doFetchQuota. intros Hf Hge.
  destruct (attempt parseDate w st) as [sent outcome]; simpl in Hf; subst.
  apply Nat.ltb_ge in Hge. rewrite Hge. simpl.
  repeat split; auto.
  - rewrite !errorCalls_app, errorCalls_sent.
    destruct (isFirstAttempt st), (statusCallback st), (errorCallback st);
      reflexivity.
  - rewrite !in_app_iff. intros [H | [H | H]].
    + destruct (isFirstAttempt st), (statusCallback st); simpl in H;
        intuition discriminate.
    + apply in_map_iff in H as [r [H _]]. discriminate.
    + destruct (errorCallback st); simpl in H; intuition discriminate.
Qed.

(** A successful attempt. *)
Lemma doFetchQuota_success (w : World) (st : State) :
  attemptFails parseDate w st = false ->
  let (st', es) := doFetchQuota parseDate w st in
  retryCount st' = O /\ isRetrying st' = false
  /\ isFirstAttempt st' = false /\ errorCalls es = [].
Proof.
  unfold attemptFails, doFetchQuota. intros Hs.
  destruct (attempt parseDate w st) as [sent [e | snap]]; simpl in Hs;
    try discriminate.
  simpl. repeat split; auto.
  rewrite !errorCalls_app, errorCalls_sent.
  destruct (isFirstAttempt st), (statusCallback st), (updateCallback st);
    reflexivity.
Qed.

(** The retry counter never exceeds the maximum. *)
Lemma doFetchQuota_bounded (w : World) (st : State) :
  (retryCount st <= MAX_RETRY_COUNT)%nat ->
  (retryCount (fst (doFetchQuota parseDate w st)) <= MAX_RETRY_COUNT)%nat.
Proof.
  intros Hle. unfold doFetchQuota.
  destruct (attempt parseDate w st) as [sent [e | snap]].
  - destruct (retryCount st <? MAX_RETRY_COUNT)%nat eqn:E; simpl.
    + apply Nat.ltb_lt in E. lia.
    + apply Nat.le_0_l.
  - simpl. apply Nat.le_0_l.
Qed.

(** Consecutive failures within the budget only count up. *)
Lemma fetches_within_budget (ws : list World) : forall st : State,
  Forall (fun w => attemptFails parseDate w st = true) ws ->
  (retryCount st + List.length ws <= MAX_RETRY_COUNT)%nat ->
  let (st', es) := fetches parseDate ws st in
  retryCount st' = (retryCount st + List.length ws)%nat
  /\ errorCalls es = [] /\ intervalsCleared es = []
  /\ port st' = port st /\ httpPort st' = httpPort st
  /\ csrfToken st' = csrfToken st
  /\ pollingInterval st' = pollingInterval st
  /\ errorCallback st' = errorCallback st.
Proof.
  induction ws as [| w ws IH]; intros st Hall Hle; simpl.
  - repeat split; auto.
  - inversion Hall as [| ? ? Hw Hws]; subst. simpl in Hle.
    pose proof (doFetchQuota_retry w st Hw ltac:(lia)) as Hr.
    pose proof (doFetchQuota_frame w st) as Hfr.
    destruct (doFetchQuota parseDate w st) as [st1 e1]. simpl in Hfr.
    destruct Hr as (Hrc & _ & Herr & _).
    destruct Hfr as (Hp & Hh & Hc & Hi & _ & He & _ & Hcl).
    specialize (IH st1).
    assert (Hall1 : Forall (fun w0 => attemptFails parseDate w0 st1 = true) ws).
    { eapply Forall_impl; [| exact Hws]. intros w0 H0; simpl in H0.
      rewrite (attemptFails_same_endpoint w0 st st1); auto. }
    specialize (IH Hall1 ltac:(lia)).
    destruct (fetches parseDate ws st1) as [st2 e2].
    destruct IH as (IH1 & IH2 & IH3 & IH4 & IH5 & IH6 & IH7 & IH8).
    rewrite errorCalls_app, intervalsCleared_app, Herr, Hcl, IH2, IH3.
    repeat split; try congruence. lia.
Qed.

(** Whatever the attempt sends is part of what [doFetchQuota] does. *)
Lemma doFetchQuota_sends (w : World) (st : State) (r : Request) :
  In r (fst (attempt parseDate w st)) ->
  In (Sent r) (snd (doFetchQuota parseDate w st)).
Proof.
  unfold doFetchQuota. intros Hin.
  destruct (attempt parseDate w st) as [sent outcome]. simpl in Hin.
  assert (Hs : In (Sent r) (List.map Sent sent)) by (apply in_map; exact Hin).
  destruct outcome as [e | snap];
    [destruct (retryCount st <? MAX_RETRY_COUNT)%nat |];
    simpl; rewrite !in_app_iff; tauto.
Qed.

(** With a csrf token set, every attempt opens with the HTTPS request to
    the secure port. *)
Lemma attempt_sends_https (w : World) (st : State) (t : JsString) :
  csrfToken st = Some t -> truthy t = true ->
  In (Https (port st)) (fst (attempt parseDate w st)).
Proof.
  intros Ht Htr. unfold attempt, makeRequest. rewrite Ht.
  destruct t as [| c t]; [discriminate |].
  destruct (doRequest w true (port st)) as [error | response];
    [destruct (httpPort st) as [fallback |];
     [destruct (isProtocolMismatch error) |] |];
    simpl; auto.
Qed.

(** C1, as amended.  With a fresh budget, [MAX_RETRY_COUNT] consecutive
    failures of [doFetchQuota] only schedule re-attempts: the error
    subscriber is not called and [retryCount] stands at
    [MAX_RETRY_COUNT].  It is the next consecutive failure, the
    [MAX_RETRY_COUNT + 1]-th, that calls the registered error callback
    exactly once, with the error thrown, and leaves [retryCount] at 0.
    Throughout, the polling schedule is left as it was and no interval
    timer is cleared. *)
Theorem C1_retry_budget (st : State) (ws : list World) (w : World)
        (cb : nat) :
  retryCount st = O ->
  errorCallback st = Some cb ->
  List.length ws = MAX_RETRY_COUNT ->
  Forall (fun w0 => attemptFails parseDate w0 st = true) (ws ++ [w]) ->
  let (st3, es3) := fetches parseDate ws st in
  let (st4, es4) := doFetchQuota parseDate w st3 in
  errorCalls es3 = [] /\ retryCount st3 = MAX_RETRY_COUNT
  /\ (exists error, snd (attempt parseDate w st) = inl error
                    /\ errorCalls es4 = [ErrorCalled cb error])
  /\ retryCount st4 = O /\ isRetrying st4 = false
  /\ pollingInterval st4 = pollingInterval st
  /\ intervalsCleared (es3 ++ es4) = [].
Proof.
  intros Hrc Hcb Hlen Hall.
  apply Forall_app in Hall as [Hws Hw].
  inversion Hw as [| ? ? Hw' _]; subst.
  pose proof (fetches_within_budget ws st Hws ltac:(lia)) as H3.
  destruct (fetches parseDate ws st) as [st3 es3].
  destruct H3 as (H3rc & H3e & H3c & H3p & H3h & H3t & H3i & H3cb).
  rewrite <- (attemptFails_same_endpoint w st st3) in Hw' by assumption.
  unfold attemptFails in Hw'.
  destruct (snd (attempt parseDate w st3)) as [error |] eqn:Hatt;
    try discriminate.
  pose proof (doFetchQuota_exhausted w st3 error Hatt ltac:(lia)) as H4.
  pose proof (doFetchQuota_frame w st3) as Hfr.
  destruct (doFetchQuota parseDate w st3) as [st4 es4]. simpl in Hfr.
  destruct H4 as (H4rc & H4r & H4e & _).
  destruct Hfr as (_ & _ & _ & Hi & _ & _ & _ & Hcl).
  rewrite intervalsCleared_app, H3c, Hcl.
  repeat split; auto; try lia; try congruence.
  exists error. split.
  - rewrite <- (attempt_same_endpoint w st st3); assumption.
  - rewrite H4e, H3cb, Hcb. reflexivity.
Qed.

(** A response without [code], or with [code: null], passes. *)
Lemma getInvalidCodeInfo_absent (r : Response) :
  r_code r = JUndefined \/ r_code r = JNull ->
  getInvalidCodeInfo (Some r) = None.
Proof.
  unfold getInvalidCodeInfo. intros [-> | ->]; reflexivity.
Qed.

(** C2, as amended.  When the application-level [code] of a response is
    present (neither [undefined] nor [null]), [getInvalidCodeInfo]
    returns [null] if and only if the code
    is one of the seven values 0, "0", "OK", "Ok", "ok", "success",
    "SUCCESS"; every other code yields the pair of that code and the
    response message, and [doFetchQuota] then throws an error carrying
    both, which is counted against the retry budget. *)
Theorem C2_ok_codes (r : Response) :
  r_code r <> JUndefined -> r_code r <> JNull ->
  (getInvalidCodeInfo (Some r) = None <-> acceptedCode (r_code r))
  /\ (~ acceptedCode (r_code r) ->
      getInvalidCodeInfo (Some r) = Some (r_code r, r_message r))
  /\ (forall (w : World) (st : State),
        snd (makeRequest (doRequest w) (port st) (httpPort st) (csrfToken st))
        = inr (Some r) ->
        ~ acceptedCode (r_code r) ->
        snd (attempt parseDate w st)
        = inl (InvalidCode (r_code r) (r_message r))
        /\ ((retryCount st < MAX_RETRY_COUNT)%nat ->
            retryCount (fst (doFetchQuota parseDate w st))
            = S (retryCount st))).
Proof.
  intros Hu Hn.
  assert (Hok : isOkValue (r_code r) = true <-> acceptedCode (r_code r)).
  { unfold acceptedCode. destruct (r_code r) as [| | b | q | s |]; simpl.
    - split; [discriminate |].
      intros [[q [H _]] | [H | [H | [H | [H | [H | H]]]]]]; discriminate.
    - split; [discriminate |].
      intros [[q [H _]] | [H | [H | [H | [H | [H | H]]]]]]; discriminate.
    - split; [discriminate |].
      intros [[q [H _]] | [H | [H | [H | [H | [H | H]]]]]]; discriminate.
    - rewrite Qeq_bool_iff. split.
      + intros H. left. exists q. auto.
      + intros [[q' [H H']] | [H | [H | [H | [H | [H | H]]]]]];
          try discriminate. inversion H; subst. assumption.
    - rewrite !Bool.orb_true_iff. unfold str_eqb.
      split.
      + intros H. right.
        repeat match goal with
               | H : _ \/ _ |- _ => destruct H as [H | H]
               | H : (if list_eq_dec N.eq_dec ?a ?b then true else false)
                     = true |- _ =>
                   destruct (list_eq_dec N.eq_dec a b); [subst | discriminate]
               end; try discriminate; tauto.
      + intros [[q [H _]] | H]; [discriminate |].
        repeat match goal with
               | H : _ \/ _ |- _ => destruct H as [H | H]
               end;
          inversion H; subst;
          repeat match goal with
                 | |- context [list_eq_dec N.eq_dec ?a ?b] =>
                     destruct (list_eq_dec N.eq_dec a b)
                 end; try tauto; try congruence.
    - split; [discriminate |].
      intros [[q [H _]] | [H | [H | [H | [H | [H | H]]]]]]; discriminate. }
  assert (Hinfo : getInvalidCodeInfo (Some r)
                  = if isOkValue (r_code r) then None
                    else Some (r_code r, r_message r)).
  { unfold getInvalidCodeInfo. destruct (r_code r); try reflexivity;
      congruence. }
  assert (Hbad : ~ acceptedCode (r_code r) ->
                 getInvalidCodeInfo (Some r) = Some (r_code r, r_message r)).
  { intros Hna. rewrite Hinfo.
    destruct (isOkValue (r_code r)) eqn:E; [| reflexivity].
    exfalso. apply Hna, Hok. reflexivity. }
  split; [| split].
  - rewrite Hinfo, <- Hok.
    destruct (isOkValue (r_code r)); split; congruence.
  - exact Hbad.
  - intros w st Hreq Hna.
    assert (Hatt : snd (attempt parseDate w st)
                   = inl (InvalidCode (r_code r) (r_message r))).
    { unfold attempt.
      destruct (makeRequest (doRequest w) (port st) (httpPort st)
                            (csrfToken st)) as [sent outcome].
      simpl in Hreq. subst outcome. simpl. rewrite (Hbad Hna). reflexivity. }
    split; [exact Hatt |].
    intros Hlt.
    pose proof (doFetchQuota_retry w st) as Hr.
    unfold attemptFails in Hr. rewrite Hatt in Hr.
    specialize (Hr eq_refl Hlt).
    destruct (doFetchQuota parseDate w st) as [st' es]. simpl. tauto.
Qed.

(** C3, as amended.  While the client is in the Retrying state, a
    scheduled polling tick starts no [doFetchQuota] attempt: nothing is
    sent, no callback runs and the state is unchanged.  A manual
    [quickRefresh()] is not suppressed: it runs [doFetchQuota] whatever
    the flag says, and puts a request on the wire whenever a csrf token
    is set. *)
Theorem C3_retrying_suppresses_ticks (w : World) (st : State) :
  isRetrying st = true ->
  fetchQuota parseDate w st = (st, [])
  /\ quickRefresh parseDate w st = doFetchQuota parseDate w st
  /\ (forall t, csrfToken st = Some t -> truthy t = true ->
        In (Sent (Https (port st))) (snd (quickRefresh parseDate w st))).
Proof.
  intros Hr. split; [| split].
  - unfold fetchQuota. rewrite Hr. reflexivity.
  - reflexivity.
  - intros t Ht Htr. unfold quickRefresh.
    apply doFetchQuota_sends, attempt_sends_https with (t := t); assumption.
Qed.

(** C4, as amended.  The retry counter is reset to zero by every
    successful fetch, whoever started it (a tick, the retry timer or
    [quickRefresh]).  Asking for a manual refresh does not reset it: a
    [quickRefresh] whose attempt fails counts one more retry while the
    budget lasts, and restarts the counter only once it is used up. *)
Theorem C4_retry_counter_reset (w : World) (st : State) :
  (attemptFails parseDate w st = false ->
   retryCount (fst (doFetchQuota parseDate w st)) = O
   /\ retryCount (fst (quickRefresh parseDate w st)) = O
   /\ retryCount (fst (retryTimer parseDate w st)) = O
   /\ (isRetrying st = false ->
       retryCount (fst (fetchQuota parseDate w st)) = O))
  /\ (attemptFails parseDate w st = true ->
      retryCount (fst (quickRefresh parseDate w st))
      = if (retryCount st <? MAX_RETRY_COUNT)%nat
        then S (retryCount st) else O).
Proof.
  split.
  - intros Hs.
    pose proof (doFetchQuota_success w st Hs) as H.
    assert (Hs' : attemptFails parseDate w (withRetrying st false) = false).
    { rewrite (attemptFails_same_endpoint w st); auto. }
    pose proof (doFetchQuota_success w (withRetrying st false) Hs') as H'.
    unfold quickRefresh, retryTimer, fetchQuota. simpl.
    destruct (doFetchQuota parseDate w st) as [st1 e1].
    destruct (doFetchQuota parseDate w (withRetrying st false)) as [st2 e2].
    simpl. repeat split; try tauto.
    intros Hr. rewrite Hr. simpl. tauto.
  - intros Hf. unfold quickRefresh, doFetchQuota.
    unfold attemptFails in Hf.
    destruct (attempt parseDate w st) as [sent [e | snap]]; simpl in Hf;
      try discriminate.
    destruct (retryCount st <? MAX_RETRY_COUNT)%nat; reflexivity.
Qed.

End ClientFacts.

(* ===================================================================== *)
(** ** The polling client: requests, parsing and rebinding *)
(* ===================================================================== *)

Section RequestFacts.
Import Client.

Lemma str_eqb_eq (a b : JsString) : str_eqb a b = true <-> a = b.
Proof.
  unfold str_eqb. destruct (list_eq_dec N.eq_dec a b); split; congruence.
Qed.

(** Lower-casing the haystack cannot lose a needle that is already in
    lower case. *)
Lemma startsWith_toLowerCase (needle : JsString) :
  toLowerCase needle = needle ->
  forall hay, startsWith needle hay = true ->
              startsWith needle (toLowerCase hay) = true.
Proof.
  induction needle as [| a needle IH]; intros Hlow hay H.
  - reflexivity.
  - destruct hay as [| b hay]; [discriminate |].
    simpl in *. injection Hlow as Ha Hn.
    apply Bool.andb_true_iff in H as [Hab H].
    apply N.eqb_eq in Hab. subst b.
    rewrite Ha, N.eqb_refl. simpl. apply IH; assumption.
Qed.

Lemma includes_toLowerCase (needle : JsString) :
  toLowerCase needle = needle ->
  forall hay, includes needle hay = true ->
              includes needle (toLowerCase hay) = true.
Proof.
  intros Hlow. induction hay as [| b hay IH]; intros H.
  - simpl in *. rewrite Bool.orb_false_r in *.
    apply (startsWith_toLowerCase needle Hlow []); assumption.
  - cbn [includes] in H. apply Bool.orb_true_iff in H as [H | H].
    + cbn [toLowerCase List.map includes].
      apply Bool.orb_true_iff. left.
      apply (startsWith_toLowerCase needle Hlow (b :: hay)); assumption.
    + cbn [toLowerCase List.map includes].
      apply Bool.orb_true_iff. right. apply IH; assumption.
Qed.

(** C5, as amended.  For a request whose HTTPS attempt to the secure port
    fails: if a fallback port is configured and the error has the code
    [EPROTO] or a message that contains [wrong_version_number] in any
    letter case (the message is lower-cased before the search),
    [makeRequest] issues exactly one more request, over plain HTTP to
    the fallback port, and returns the result of that one; for every
    other failure, and when no fallback port is configured, the first
    error propagates and nothing else is sent. *)
Theorem C5_http_fallback
        (doRequest : bool -> Z -> ErrorObj + option Response)
        (port : Z) (httpPort : option Z) (token : JsString)
        (error : ErrorObj) :
  truthy token = true ->
  doRequest true port = inl error ->
  (forall fallback, httpPort = Some fallback ->
                    isProtocolMismatch error = true ->
     makeRequest doRequest port httpPort (Some token)
     = ([Https port; Http fallback], doRequest false fallback))
  /\ (httpPort = None \/ isProtocolMismatch error = false ->
      makeRequest doRequest port httpPort (Some token)
      = ([Https port], inl error))
  /\ (isProtocolMismatch error = true <->
      code error = Some (js "EPROTO")
      \/ includes (js "wrong_version_number") (toLowerCase (message error))
         = true)
  /\ (literalMismatch error -> isProtocolMismatch error = true).
Proof.
  intros Htok Hreq.
  assert (Hsig : isProtocolMismatch error = true <->
                 code error = Some (js "EPROTO")
                 \/ includes (js "wrong_version_number")
                             (toLowerCase (message error)) = true).
  { unfold isProtocolMismatch. rewrite Bool.orb_true_iff.
    destruct (code error) as [c |].
    - rewrite str_eqb_eq. split; intros [H | H]; auto.
      + left. congruence.
      + left. congruence.
    - split; intros [H | H]; auto; discriminate. }
  destruct token as [| c token]; [discriminate |].
  repeat split.
  - intros fallback Hfb Hm. unfold makeRequest.
    rewrite Hreq, Hfb, Hm. reflexivity.
  - intros [Hnone | Hno]; unfold makeRequest; rewrite Hreq.
    + rewrite Hnone. reflexivity.
    + destruct httpPort; [rewrite Hno |]; reflexivity.
  - apply Hsig.
  - apply Hsig.
  - intros [Hc | Hm]; apply Hsig; [left; exact Hc | right].
    apply includes_toLowerCase; [reflexivity | exact Hm].
Qed.

(** C9, as amended.  For every model entry with quota info,
    [isExhausted] depends on [remainingFraction] alone: it is true
    exactly when the fraction is absent or zero.  If [resetTime] is
    absent, the empty string or the string "infinite", [timeUntilReset]
    (and the reset date) is the sentinel 8640000000000000 ms.  If
    [resetTime] is a non-empty string other than "infinite" that the
    host cannot parse as a date, the reset date is 24 hours after the
    clock reading taken then, and the snapshot is still produced. *)
Theorem C9_reset_time (parseDate : JsString -> option Z) (now : nat -> Z)
        (config : ModelConfig) (quotaInfo : QuotaInfo) (n : nat) :
  let m := fst (parseModelQuota parseDate now config quotaInfo n) in
  (isExhausted m = true <->
   qi_remainingFraction quotaInfo = None
   \/ exists f, qi_remainingFraction quotaInfo = Some f /\ (f == 0)%Q)
  /\ (qi_resetTime quotaInfo = None
      \/ qi_resetTime quotaInfo = Some []
      \/ qi_resetTime quotaInfo = Some (js "infinite") ->
      timeUntilReset m = 8640000000000000
      /\ resetTime m = 8640000000000000)
  /\ (forall s, qi_resetTime quotaInfo = Some s ->
                s <> [] -> s <> js "infinite" -> parseDate s = None ->
      resetTime m = now n + 86400000
      /\ timeUntilReset m = now n + 86400000 - now (S n))
  /\ (forall (code message : JsValue) (tier : option JsString)
             (others : list ModelConfig),
        exists snapshot,
          parseGetUserStatusResponse parseDate now
            (Some (mkResponse code message
                     (Some (mkUserStatus
                              (Some (mkModelConfig (mc_label config)
                                       (mc_model config) (Some quotaInfo)
                                     :: others))
                              tier))))
          = inr snapshot).
Proof.
  cbv zeta. repeat split.
  - unfold parseModelQuota, bind, ret.
    destruct (noCountdown (qi_resetTime quotaInfo));
      [| destruct (parseDate _)]; unfold Date_now; cbn;
      (destruct (qi_remainingFraction quotaInfo) as [f |];
       [rewrite Qeq_bool_iff; intros H; right; exists f; auto
       | intros _; left; reflexivity]).
  - unfold parseModelQuota, bind, ret.
    destruct (noCountdown (qi_resetTime quotaInfo));
      [| destruct (parseDate _)]; unfold Date_now; cbn;
      (intros [H | [f [H Hz]]]; rewrite H;
       [reflexivity | apply Qeq_bool_iff; exact Hz]).
  - unfold parseModelQuota, bind, ret.
    assert (Hn : noCountdown (qi_resetTime quotaInfo) = true).
    { destruct H as [H | [H | H]]; rewrite H; reflexivity. }
    rewrite Hn. reflexivity.
  - unfold parseModelQuota, bind, ret.
    assert (Hn : noCountdown (qi_resetTime quotaInfo) = true).
    { destruct H as [H | [H | H]]; rewrite H; reflexivity. }
    rewrite Hn. reflexivity.
  - unfold parseModelQuota, bind, ret. rewrite H.
    assert (Hn : noCountdown (Some s) = false).
    { simpl. destruct s as [| c s]; [congruence |]. simpl.
      destruct (str_eqb (c :: s) (js "infinite")) eqn:E; [| reflexivity].
      apply str_eqb_eq in E. congruence. }
    rewrite Hn, H2. unfold Date_now. cbn. lia.
  - unfold parseModelQuota, bind, ret. rewrite H.
    assert (Hn : noCountdown (Some s) = false).
    { simpl. destruct s as [| c s]; [congruence |]. simpl.
      destruct (str_eqb (c :: s) (js "infinite")) eqn:E; [| reflexivity].
      apply str_eqb_eq in E. congruence. }
    rewrite Hn, H2. unfold Date_now. cbn. lia.
  - intros code message tier others. unfold parseGetUserStatusResponse.
    cbn [r_userStatus us_clientModelConfigs us_userTierName].
    destruct (parseModels parseDate now _ O) as [ms k].
    eexists. reflexivity.
Qed.

(** C10.  [setPorts(connectPort, httpPort)] sets the secure port, sets
    the fallback port (to [connectPort] when [httpPort] is omitted) and
    resets the retry counter; the csrf token, the three callbacks, the
    [isRetrying] and first-attempt flags, the polling schedule and the
    two agents are what they were. *)
Theorem C10_setPorts_frame (st : State) (connectPort : Z)
        (fallback : option Z) :
  let st' := setPorts st connectPort fallback in
  port st' = connectPort
  /\ httpPort st'
     = Some (match fallback with Some h => h | None => connectPort end)
  /\ retryCount st' = O
  /\ csrfToken st' = csrfToken st
  /\ updateCallback st' = updateCallback st
  /\ errorCallback st' = errorCallback st
  /\ statusCallback st' = statusCallback st
  /\ isRetrying st' = isRetrying st
  /\ isFirstAttempt st' = isFirstAttempt st
  /\ pollingInterval st' = pollingInterval st
  /\ httpsAgent st' = httpsAgent st
  /\ httpAgent st' = httpAgent st.
Proof. cbv zeta. unfold setPorts. simpl. repeat split. Qed.

End RequestFacts.

(* ===================================================================== *)
(** ** Sorting and de-duplication of port lists *)
(* ===================================================================== *)

Section PortLists.

Lemma In_insert_sorted (x y : Z) (l : list Z) :
  In y (insert_sorted x l) <-> y = x \/ In y l.
Proof.
  induction l as [| z l IH]; simpl.
  - intuition.
  - destruct (x - z <=? 0); simpl; rewrite ?IH; intuition.
Qed.

Lemma In_sort_numeric (y : Z) (l : list Z) :
  In y (sort_numeric l) <-> In y l.
Proof.
  induction l as [| x l IH]; simpl.
  - tauto.
  - rewrite In_insert_sorted, IH. intuition.
Qed.

Lemma insert_sorted_ascending (x : Z) (l : list Z) :
  StronglySorted Z.lt l -> ~ In x l ->
  StronglySorted Z.lt (insert_sorted x l).
Proof.
  induction l as [| z l IH]; intros Hs Hn; simpl.
  - repeat constructor.
  - inversion Hs as [| ? ? Hs' Hall]; subst.
    destruct (x - z <=? 0) eqn:E.
    + apply Z.leb_le in E.
      assert (Hxz : x < z) by (simpl in Hn; lia).
      constructor; [assumption |].
      constructor; [assumption |].
      eapply Forall_impl; [| exact Hall]. intros; simpl in *; lia.
    + apply Z.leb_gt in E.
      constructor.
      * apply IH; [assumption | simpl in Hn; tauto].
      * apply Forall_forall. intros y Hy.
        apply In_insert_sorted in Hy as [-> | Hy]; [lia |].
        rewrite Forall_forall in Hall. auto.
Qed.

(** Sorting an array of pairwise distinct numbers gives a strictly
    ascending one. *)
Lemma sort_numeric_ascending (l : list Z) :
  NoDup l -> StronglySorted Z.lt (sort_numeric l).
Proof.
  induction l as [| x l IH]; intros Hnd; simpl.
  - constructor.
  - inversion Hnd; subst. apply insert_sorted_ascending; auto.
    rewrite In_sort_numeric. assumption.
Qed.

(** A strictly ascending list is determined by its elements. *)
Lemma ascending_ext (l1 : list Z) : forall l2,
  StronglySorted Z.lt l1 -> StronglySorted Z.lt l2 ->
  (forall x, In x l1 <-> In x l2) -> l1 = l2.
Proof.
  induction l1 as [| a l1 IH]; intros l2 H1 H2 Hext.
  - destruct l2 as [| b l2]; [reflexivity |].
    exfalso. apply (Hext b). left. reflexivity.
  - destruct l2 as [| b l2].
    + exfalso. apply (Hext a). left. reflexivity.
    + inversion H1 as [| ? ? H1' A1]; inversion H2 as [| ? ? H2' A2]; subst.
      rewrite Forall_forall in A1, A2.
      assert (a = b).
      { destruct (Hext a) as [Ha _]. destruct (Hext b) as [_ Hb].
        specialize (Ha (or_introl eq_refl)).
        specialize (Hb (or_introl eq_refl)).
        destruct Ha as [Ha | Ha]; [congruence |].
        destruct Hb as [Hb | Hb]; [congruence |].
        specialize (A1 _ Hb). specialize (A2 _ Ha). lia. }
      subst b. f_equal. apply IH; auto.
      intros x. split; intros Hx.
      * destruct (Hext x) as [Hx' _].
        destruct (Hx' (or_intror Hx)) as [-> | ?]; [| assumption].
        specialize (A1 _ Hx). lia.
      * destruct (Hext x) as [_ Hx'].
        destruct (Hx' (or_intror Hx)) as [-> | ?]; [| assumption].
        specialize (A2 _ Hx). lia.
Qed.

Lemma push_unique_NoDup (ports : list Z) (p : Z) :
  NoDup ports -> NoDup (push_unique ports p).
Proof.
  intros Hnd. unfold push_unique.
  destruct (existsb (Z.eqb p) ports) eqn:E; [assumption |].
  apply NoDup_app; [assumption | repeat constructor; simpl; tauto |].
  intros x Hx [<- | []].
  assert (existsb (Z.eqb p) ports = true); [| congruence].
  apply existsb_exists. exists p. split; [assumption | apply Z.eqb_refl].
Qed.

Lemma In_push_unique (ports : list Z) (p x : Z) :
  In x (push_unique ports p) <-> In x ports \/ x = p.
Proof.
  unfold push_unique. destruct (existsb (Z.eqb p) ports) eqn:E.
  - apply existsb_exists in E as [y [Hy Heq]]. apply Z.eqb_eq in Heq.
    subst y. intuition; subst; assumption.
  - rewrite in_app_iff. simpl. intuition.
Qed.

(** The loop [for each item: p = port(item); if new, push] in general. *)
Lemma fold_push_NoDup {A} (port : A -> option Z) (items : list A) :
  forall acc, NoDup acc ->
  NoDup (fold_left (fun ports i => match port i with
                                   | Some p => push_unique ports p
                                   | None => ports
                                   end) items acc).
Proof.
  induction items as [| i items IH]; intros acc Hnd; simpl.
  - assumption.
  - apply IH. destruct (port i); [apply push_unique_NoDup |]; assumption.
Qed.

Lemma In_fold_push {A} (port : A -> option Z) (items : list A) (x : Z) :
  forall acc,
  In x (fold_left (fun ports i => match port i with
                                  | Some p => push_unique ports p
                                  | None => ports
                                  end) items acc)
  <-> In x acc \/ exists i, In i items /\ port i = Some x.
Proof.
  induction items as [| i items IH]; intros acc; simpl.
  - split; [tauto | intros [H | [i [[] _]]]; assumption].
  - rewrite IH. split.
    + intros [H | [j [Hj Hp]]].
      * destruct (port i) as [p |] eqn:E.
        -- apply In_push_unique in H as [H | ->]; [tauto |].
           right. exists i. auto.
        -- tauto.
      * right. exists j. auto.
    + intros [H | [j [[-> | Hj] Hp]]].
      * left. destruct (port i); [apply In_push_unique |]; tauto.
      * left. rewrite Hp. apply In_push_unique. tauto.
      * right. exists j. auto.
Qed.

Lemma add_line_linePort (ports : list Z) (line : JsString) :
  Unix.add_line ports line
  = match Unix.linePort line with
    | Some p => push_unique ports p
    | None => ports
    end.
Proof.
  unfold Unix.add_line, Unix.linePort.
  destruct (Unix.line_match line); reflexivity.
Qed.

Lemma fold_add_line (lines : list JsString) : forall acc,
  fold_left Unix.add_line lines acc
  = fold_left (fun ports i => match Unix.linePort i with
                              | Some p => push_unique ports p
                              | None => ports
                              end) lines acc.
Proof.
  induction lines as [| l lines IH]; intros acc; simpl.
  - reflexivity.
  - rewrite add_line_linePort. apply IH.
Qed.

Lemma parse_lines_ascending (lines : list JsString) :
  StronglySorted Z.lt (Unix.parse_lines lines).
Proof.
  unfold Unix.parse_lines. apply sort_numeric_ascending.
  rewrite fold_add_line. apply fold_push_NoDup. constructor.
Qed.

Lemma In_parse_lines (lines : list JsString) (p : Z) :
  In p (Unix.parse_lines lines)
  <-> exists line, In line lines /\ Unix.linePort line = Some p.
Proof.
  unfold Unix.parse_lines.
  rewrite In_sort_numeric, fold_add_line, In_fold_push. simpl. tauto.
Qed.

Lemma parse_matches_ascending (ms : list MState) :
  StronglySorted Z.lt (Windows.parse_matches ms).
Proof.
  unfold Windows.parse_matches. apply sort_numeric_ascending.
  apply (fold_push_NoDup
           (fun m => parseInt (match cap 1 (caps m) with
                               | Some s => s
                               | None => []
                               end))).
  constructor.
Qed.

Lemma In_parse_matches (ms : list MState) (p : Z) :
  In p (Windows.parse_matches ms)
  <-> exists m, In m ms
                /\ parseInt (match cap 1 (caps m) with
                             | Some s => s
                             | None => []
                             end) = Some p.
Proof.
  unfold Windows.parse_matches. rewrite In_sort_numeric.
  unfold Windows.add_match.
  rewrite (In_fold_push
             (fun m => parseInt (match cap 1 (caps m) with
                                 | Some s => s
                                 | None => []
                                 end))).
  simpl. tauto.
Qed.

(** C8.  Whatever the listing prints, [parseListeningPorts] returns a
    strictly ascending list, hence ascending and free of duplicates, on
    Unix and on Windows; its elements are exactly the ports embedded in
    the lines; the order in which the lines (on Windows: the matches)
    come does not matter; and an output embedding the ports 3, 1, 3, 2
    yields [1; 2; 3] in each of the supported layouts. *)
Theorem C8_ports_ascending_unique :
  (forall stdout, StronglySorted Z.lt (Unix.parseListeningPorts stdout))
  /\ (forall stdout, StronglySorted Z.lt (Windows.parseListeningPorts stdout))
  /\ (forall lines p,
        In p (Unix.parse_lines lines)
        <-> exists line, In line lines /\ Unix.linePort line = Some p)
  /\ (forall lines lines',
        Permutation lines lines' ->
        Unix.parse_lines lines = Unix.parse_lines lines')
  /\ (forall ms ms',
        Permutation ms ms' ->
        Windows.parse_matches ms = Windows.parse_matches ms')
  /\ Unix.parseListeningPorts (Fixtures.output Fixtures.lsofLines)
     = [1; 2; 3]
  /\ Unix.parseListeningPorts (Fixtures.output Fixtures.ssLines)
     = [1; 2; 3]
  /\ Unix.parseListeningPorts (Fixtures.output Fixtures.netstatLines)
     = [1; 2; 3]
  /\ Unix.parseListeningPorts (Fixtures.output Fixtures.localhostLines)
     = [1; 2; 3]
  /\ Windows.parseListeningPorts (Fixtures.output Fixtures.windowsLines)
     = [1; 2; 3].
Proof.
  split; [| split; [| split; [| split; [| split]]]].
  - intros stdout. unfold Unix.parseListeningPorts.
    destruct (negb (truthy (trim stdout))).
    + constructor.
    + apply parse_lines_ascending.
  - intros stdout. apply parse_matches_ascending.
  - apply In_parse_lines.
  - intros lines lines' Hp.
    apply ascending_ext; try apply parse_lines_ascending.
    intros x. rewrite !In_parse_lines.
    split; intros [l [Hl Hx]]; exists l; split; auto.
    + eapply Permutation_in; eassumption.
    + eapply Permutation_in; [apply Permutation_sym |]; eassumption.
  - intros ms ms' Hp.
    apply ascending_ext; try apply parse_matches_ascending.
    intros x. rewrite !In_parse_matches.
    split; intros [m [Hm Hx]]; exists m; split; auto.
    + eapply Permutation_in; eassumption.
    + eapply Permutation_in; [apply Permutation_sym |]; eassumption.
  - repeat split; vm_compute; reflexivity.
Qed.

End PortLists.

(* ===================================================================== *)
(** ** What a match captures *)
(* ===================================================================== *)

Section RegexFacts.

Lemma star_run_spec (p : N -> bool) (s : JsString) :
  forall pv pv' r, In (pv', r) (star_run p pv s) ->
  exists pre, s = pre ++ r /\ Forall (fun c => p c = true) pre.
Proof.
  induction s as [| a s IH]; intros pv pv' r H; simpl in H.
  - destruct H as [H | []]. inversion H; subst. exists []. auto.
  - destruct (p a) eqn:E.
    + apply in_app_iff in H as [H | [H | []]].
      * apply IH in H as [pre [-> Hf]]. exists (a :: pre). auto.
      * inversion H; subst. exists []. auto.
    + destruct H as [H | []]. inversion H; subst. exists []. auto.
Qed.

Lemma run_seq (a b : regex) (st st' : MState) :
  In st' (run (Seq a b) st)
  <-> exists mid, In mid (run a st) /\ In st' (run b mid).
Proof. apply in_flat_map. Qed.

Lemma run_alt (a b : regex) (st st' : MState) :
  In st' (run (Alt a b) st) <-> In st' (run a st) \/ In st' (run b st).
Proof. apply in_app_iff. Qed.

Lemma run_plus (p : N -> bool) (st st' : MState) :
  In st' (run (Plus p) st) ->
  exists c pre, rest st = c :: pre ++ rest st' /\ p c = true
                /\ Forall (fun c => p c = true) pre
                /\ caps st' = caps st.
Proof.
  cbn [run]. destruct (rest st) as [| c s]; [intros [] |].
  destruct (p c) eqn:E; [| intros []].
  intros H. apply in_map_iff in H as [[pv r] [<- H]].
  apply star_run_spec in H as [pre [-> Hf]].
  exists c, pre. auto.
Qed.

Lemma run_grp (n : nat) (a : regex) (st m : MState) :
  In m (run (Grp n a) st) ->
  exists st', In st' (run a st)
              /\ caps m = (n, captured st st') :: caps st'.
Proof.
  cbn [run]. intros H. apply in_map_iff in H as [st' [<- H]].
  exists st'. auto.
Qed.

(** A group around [p+] captures a non-empty run of [p]. *)
Lemma run_grp_plus (n : nat) (p : N -> bool) (st m : MState) :
  In m (run (Grp n (Plus p)) st) ->
  exists d, caps m = (n, d) :: caps st /\ d <> []
            /\ Forall (fun c => p c = true) d.
Proof.
  intros H. apply run_grp in H as [st' [H Hc]].
  apply run_plus in H as [c [pre [Hr [Hp [Hf Hcaps]]]]].
  exists (c :: pre). rewrite Hc, Hcaps. unfold captured. rewrite Hr.
  assert (E : (List.length (c :: pre ++ rest st') - List.length (rest st')
               = S (List.length pre))%nat).
  { cbn [List.length]. rewrite length_app. lia. }
  rewrite E. cbn [firstn]. rewrite firstn_app, firstn_all, Nat.sub_diag.
  cbn [firstn]. rewrite app_nil_r.
  repeat split; [discriminate | constructor; assumption].
Qed.

(** A regex leaves alone the groups it does not contain. *)
Lemma run_caps (r : regex) : forall st st',
  In st' (run r st) ->
  forall n, ~ In n (groups r) -> cap n (caps st') = cap n (caps st).
Proof.
  induction r as [| p | p | p | a IHa | a IHa b IHb | a IHa b IHb
                  | m a IHa |]; intros st st' H n Hn.
  - destruct H as [<- | []]. reflexivity.
  - cbn [run] in H. destruct (rest st) as [| c s]; [destruct H |].
    destruct (p c); [| destruct H]. destruct H as [<- | []]. reflexivity.
  - cbn [run] in H. apply in_map_iff in H as [e [<- _]]. reflexivity.
  - apply run_plus in H as [c [pre [_ [_ [_ ->]]]]]. reflexivity.
  - cbn [run] in H. apply in_app_iff in H as [H | [<- | []]].
    + apply (IHa _ _ H). exact Hn.
    + reflexivity.
  - apply run_seq in H as [mid [H1 H2]]. cbn [groups] in Hn.
    rewrite in_app_iff in Hn.
    rewrite (IHb _ _ H2) by tauto. apply (IHa _ _ H1). tauto.
  - cbn [run] in H. cbn [groups] in Hn. rewrite in_app_iff in Hn.
    apply in_app_iff in H as [H | H].
    + apply (IHa _ _ H). tauto.
    + apply (IHb _ _ H). tauto.
  - apply run_grp in H as [st1 [H Hc]]. cbn [groups] in Hn.
    rewrite Hc. cbn [cap].
    destruct (Nat.eqb_spec n m) as [-> | Hne]; [exfalso; apply Hn; now left |].
    apply (IHa _ _ H). intros Hin. apply Hn. now right.
  - cbn [run] in H.
    destruct (xorb _ _); [destruct H as [<- | []] | destruct H].
    reflexivity.
Qed.

(** Every reported match is a success of the matcher started somewhere
    with no group set. *)
Lemma search_from_run (r : regex) (s : JsString) : forall pv m,
  search_from r pv s = Some m ->
  exists pv' s', In m (run r (mkM pv' s' [])).
Proof.
  induction s as [| c s IH]; intros pv m H; cbn [search_from] in H.
  - destruct (run r (mkM pv [] [])) as [| m0 ms] eqn:E; [discriminate |].
    injection H as <-. exists pv, []. rewrite E. now left.
  - destruct (run r (mkM pv (c :: s) [])) as [| m0 ms] eqn:E.
    + apply IH in H. exact H.
    + injection H as <-. exists pv, (c :: s). rewrite E. now left.
Qed.

Lemma rmatch_run (r : regex) (s : JsString) (m : MState) :
  rmatch r s = Some m -> exists pv' s', In m (run r (mkM pv' s' [])).
Proof. apply search_from_run. Qed.

Lemma exec_all_run (r : regex) (s : JsString) : forall pv k m,
  In m (exec_all r pv s k) ->
  exists pv' s', In m (run r (mkM pv' s' [])).
Proof.
  induction s as [| c s IH]; intros pv k m H; destruct k as [| k];
    cbn [exec_all] in H.
  - destruct (run r (mkM pv [] [])) as [| m0 ms] eqn:E; [destruct H |].
    destruct H as [<- | []]. exists pv, []. rewrite E. now left.
  - destruct H.
  - destruct (run r (mkM pv (c :: s) [])) as [| m0 ms] eqn:E.
    + apply IH in H. exact H.
    + destruct H as [<- | H].
      * exists pv, (c :: s). rewrite E. now left.
      * apply IH in H. exact H.
  - apply IH in H. exact H.
Qed.

Lemma digit_not_special (c : N) :
  is_digit c = true ->
  is_space c = false /\ N.eqb c 45 = false /\ N.eqb c 43 = false.
Proof.
  unfold is_digit, in_range. rewrite Bool.andb_true_iff, !N.leb_le.
  intros [Hlo Hhi]. repeat split.
  - destruct (is_space c) eqn:E; [| reflexivity].
    unfold is_space, in_range in E.
    rewrite ?Bool.orb_true_iff, ?Bool.andb_true_iff, ?N.eqb_eq, ?N.leb_le
      in E. lia.
  - apply N.eqb_neq. lia.
  - apply N.eqb_neq. lia.
Qed.

(** [parseInt] of a numeral is a number. *)
Lemma parseInt_numeral (d : JsString) :
  numeral d -> exists z, parseInt d = Some z.
Proof.
  intros [Hne Hd]. destruct d as [| c d]; [congruence |].
  inversion Hd as [| ? ? Hc _]; subst.
  destruct (digit_not_special c Hc) as (Hs & Hm & Hp).
  unfold parseInt, trimStart. cbn [drop_while]. rewrite Hs, Hm, Hp, Hc.
  eexists. reflexivity.
Qed.

Lemma group_1_numeral (m : MState) (d : JsString) :
  cap 1 (caps m) = Some d -> numeral d -> group_1_or_2 m = d.
Proof.
  intros Hc [Hne _]. unfold group_1_or_2. rewrite Hc.
  destruct d; [congruence | reflexivity].
Qed.

(** The shapes of the port regexes: text, the port group, and a rest
    without groups. *)
Lemma port_group_then (pre post : regex) (st m : MState) :
  In m (run (Seq pre (Seq (Grp 1 (Plus is_digit)) post)) st) ->
  ~ In 1%nat (groups post) ->
  exists d, cap 1 (caps m) = Some d /\ numeral d.
Proof.
  intros H Hpost.
  apply run_seq in H as [m1 [_ H]]. apply run_seq in H as [m2 [H2 H]].
  apply run_grp_plus in H2 as [d [Hc [Hne Hd]]].
  exists d. rewrite (run_caps post _ _ H 1%nat Hpost), Hc.
  split; [reflexivity | split; assumption].
Qed.

Lemma lsof_port (m : MState) (pv : option N) (s : JsString) :
  In m (run Unix.re_lsof (mkM pv s [])) ->
  exists d, group_1_or_2 m = d /\ numeral d.
Proof.
  intros H. apply port_group_then in H as [d [Hc Hd]].
  - exists d. split; [apply group_1_numeral |]; assumption.
  - vm_compute. tauto.
Qed.

Lemma netstat_port (m : MState) (pv : option N) (s : JsString) :
  In m (run Unix.re_netstat (mkM pv s [])) ->
  exists d, group_1_or_2 m = d /\ numeral d.
Proof.
  intros H. apply port_group_then in H as [d [Hc Hd]].
  - exists d. split; [apply group_1_numeral |]; assumption.
  - vm_compute. tauto.
Qed.

Lemma ss_port (m : MState) (pv : option N) (s : JsString) :
  In m (run Unix.re_ss (mkM pv s [])) ->
  exists d, group_1_or_2 m = d /\ numeral d.
Proof.
  unfold Unix.re_ss. intros H.
  do 8 (apply run_seq in H as [? [_ H]]).
  apply run_grp_plus in H as [d [Hc [Hne Hd]]].
  exists d.
  assert (Hn : numeral d) by (split; assumption).
  split; [apply group_1_numeral | exact Hn]; [| exact Hn].
  rewrite Hc. cbn [cap Nat.eqb]. reflexivity.
Qed.

Lemma localhost_port (m : MState) (pv : option N) (s : JsString) :
  In m (run Unix.re_localhost (mkM pv s [])) ->
  exists d, group_1_or_2 m = d /\ numeral d.
Proof.
  unfold Unix.re_localhost. intros H.
  apply run_alt in H as [H | H].
  - apply port_group_then in H as [d [Hc Hd]].
    + exists d. split; [apply group_1_numeral |]; assumption.
    + vm_compute. tauto.
  - pose proof (run_caps _ _ _ H 1%nat) as Hone.
    apply run_seq in H as [m1 [_ H]]. apply run_seq in H as [m2 [H2 H]].
    apply run_grp_plus in H2 as [d [Hc [Hne Hd]]].
    exists d. split; [| split; assumption].
    unfold group_1_or_2. rewrite Hone by (vm_compute; intuition discriminate).
    cbn [caps cap].
    rewrite (run_caps _ _ _ H 2%nat) by (vm_compute; tauto).
    rewrite Hc. cbn [cap Nat.eqb]. reflexivity.
Qed.

(** The [NaN] branch of [Unix.add_line] is dead: a line that matches
    embeds a port. *)
Lemma line_match_port (line : JsString) (m : MState) :
  Unix.line_match line = Some m ->
  exists p, parseInt (group_1_or_2 m) = Some p.
Proof.
  unfold Unix.line_match. intros H.
  assert (Hd : exists d, group_1_or_2 m = d /\ numeral d).
  { destruct (rmatch Unix.re_lsof line) as [m1 |] eqn:E1.
    { injection H as <-. apply rmatch_run in E1 as [pv [s E1]].
      eapply lsof_port; eassumption. }
    destruct (rmatch Unix.re_ss line) as [m2 |] eqn:E2.
    { injection H as <-. apply rmatch_run in E2 as [pv [s E2]].
      eapply ss_port; eassumption. }
    destruct (rmatch Unix.re_netstat line) as [m3 |] eqn:E3.
    { injection H as <-. apply rmatch_run in E3 as [pv [s E3]].
      eapply netstat_port; eassumption. }
    apply rmatch_run in H as [pv [s H]].
    eapply localhost_port; eassumption. }
  destruct Hd as [d [-> Hd]]. apply parseInt_numeral. exact Hd.
Qed.

(** So is the one of [Windows.add_match]. *)
Lemma windows_match_port (stdout : JsString) (m : MState) :
  In m (exec_all Windows.portRegex None stdout 0) ->
  exists p, parseInt (match cap 1 (caps m) with
                      | Some s => s
                      | None => []
                      end) = Some p.
Proof.
  intros H. apply exec_all_run in H as [pv [s H]].
  unfold Windows.portRegex in H.
  apply run_seq in H as [m0 [_ H]].
  apply port_group_then in H as [d [Hc Hd]].
  - rewrite Hc. apply parseInt_numeral. exact Hd.
  - vm_compute. tauto.
Qed.

(** The token group of a match of the csrf regex is never empty. *)
Lemma csrf_token_captured (cmd : JsString) (tm : MState) :
  rmatch re_csrf_token cmd = Some tm ->
  exists t, cap 1 (caps tm) = Some t /\ t <> [].
Proof.
  intros H. apply rmatch_run in H as [pv [s H]].
  unfold re_csrf_token in H.
  do 2 (apply run_seq in H as [? [_ H]]).
  apply run_grp_plus in H as [d [Hc [Hne _]]].
  exists d. rewrite Hc. cbn [cap Nat.eqb]. auto.
Qed.

End RegexFacts.

(* ===================================================================== *)
(** ** UnixProcessDetector.parseProcessInfo *)
(* ===================================================================== *)

Section ProcessFacts.

(** A line only becomes a candidate when its command line carries a csrf
    token and belongs to the application. *)
Lemma candidate_needs_both (line : JsString) (c : ProcessInfo) :
  Unix.candidate line = Some c ->
  rtest re_csrf_token (Unix.commandLine line) = true
  /\ isAntigravityProcess (Unix.commandLine line) = true
  /\ csrfToken c <> [].
Proof.
  unfold Unix.candidate, Unix.commandLine, rtest.
  destruct (List.length (split_ws (trim line)) <? 3)%nat; [discriminate |].
  destruct (parseInt (nth 0 (split_ws (trim line)) [])); [| discriminate].
  destruct (parseInt (nth 1 (split_ws (trim line)) [])); [| discriminate].
  destruct (includes (js "graftcp") (nth 2 (split_ws (trim line)) []));
    [discriminate |].
  destruct (rmatch re_csrf_token _) as [tm |] eqn:Et; [| discriminate].
  destruct (isAntigravityProcess _); [| discriminate].
  intros H. injection H as <-. cbn [csrfToken].
  apply csrf_token_captured in Et as [t [-> Hne]]. auto.
Qed.

(** And a well-formed line with both is one. *)
Lemma candidate_iff (line : JsString) :
  (exists c, Unix.candidate line = Some c)
  <-> Unix.wellFormed line = true
      /\ rtest re_csrf_token (Unix.commandLine line) = true
      /\ isAntigravityProcess (Unix.commandLine line) = true.
Proof.
  unfold Unix.candidate, Unix.wellFormed, Unix.commandLine, rtest.
  destruct (List.length (split_ws (trim line)) <? 3)%nat; cbn [negb andb].
  { split; [intros [c H]; discriminate | intros [H _]; discriminate]. }
  destruct (parseInt (nth 0 (split_ws (trim line)) []));
    [| split; [intros [c H]; discriminate | intros [H _]; discriminate]].
  destruct (parseInt (nth 1 (split_ws (trim line)) []));
    [| split; [intros [c H]; discriminate | intros [H _]; discriminate]].
  destruct (includes (js "graftcp") (nth 2 (split_ws (trim line)) []));
    cbn [negb andb];
    [split; [intros [c H]; discriminate | intros [H _]; discriminate] |].
  destruct (rmatch re_csrf_token _) as [tm |];
    [| split; [intros [c H]; discriminate | intros [_ [H _]]; discriminate]].
  destruct (isAntigravityProcess _);
    [| split; [intros [c H]; discriminate | intros [_ [_ H]]; discriminate]].
  split; [auto | intros _; eexists; reflexivity].
Qed.

Lemma candidates_app (l1 l2 : list JsString) :
  Unix.candidates (l1 ++ l2) = Unix.candidates l1 ++ Unix.candidates l2.
Proof.
  induction l1 as [| l l1 IH]; simpl; [reflexivity |].
  destruct (Unix.candidate l); simpl; rewrite IH; reflexivity.
Qed.

Lemma In_candidates (lines : list JsString) (c : ProcessInfo) :
  In c (Unix.candidates lines)
  <-> exists line, In line lines /\ Unix.candidate line = Some c.
Proof.
  induction lines as [| l lines IH]; simpl.
  - split; [tauto | intros [? [[] _]]].
  - destruct (Unix.candidate l) as [c0 |] eqn:E; simpl; rewrite IH; split.
    + intros [<- | [line [H1 H2]]]; [exists l | exists line]; auto.
    + intros [line [[<- | H1] H2]]; [left; congruence | right; eauto].
    + intros [line [H1 H2]]. exists line. auto.
    + intros [line [[<- | H1] H2]]; [congruence | eauto].
Qed.

(** [parseProcessInfo] in terms of the candidates of the lines. *)
Lemma parseProcessInfo_candidates (currentPid : Z) (stdout : JsString) :
  Unix.parseProcessInfo currentPid stdout
  = match Unix.candidates (split_unit 10 (trim stdout)) with
    | [] => None
    | first :: others =>
        match find (fun c => ppid c =? currentPid) (first :: others) with
        | Some c => Some c
        | None => Some first
        end
    end.
Proof.
  unfold Unix.parseProcessInfo.
  destruct (trim stdout) as [| c s] eqn:E; [reflexivity |].
  cbn [truthy negb].
  destruct (Unix.candidates (split_unit 10 (c :: s))); reflexivity.
Qed.

Lemma find_first_match {A} (f : A -> bool) (before : list A) (x : A)
      (after : list A) :
  (forall b, In b before -> f b = false) -> f x = true ->
  find f (before ++ x :: after) = Some x.
Proof.
  induction before as [| b before IH]; intros Hb Hx; simpl.
  - rewrite Hx. reflexivity.
  - rewrite (Hb b) by (now left). apply IH; [| assumption].
    intros b' Hb'. apply Hb. now right.
Qed.

(** C7.  For every process listing: [parseProcessInfo] returns none when
    no line has a command line that both carries a csrf token and
    matches the application identity, whatever tokens the other lines
    carry.  The candidates are the well-formed lines that have both, in
    the order of the lines.  When there are candidates, it returns the
    first candidate whose parent pid is the caller's pid if there is
    one, and the first candidate otherwise.  The record returned comes
    from a line of the listing and its token is never empty. *)
Theorem C7_parseProcessInfo (currentPid : Z) (stdout : JsString) :
  let lines := split_unit 10 (trim stdout) in
  ((forall line, In line lines ->
      ~ (rtest re_csrf_token (Unix.commandLine line) = true
         /\ isAntigravityProcess (Unix.commandLine line) = true)) ->
   Unix.parseProcessInfo currentPid stdout = None)
  /\ (forall before c after,
        Unix.candidates lines = before ++ c :: after ->
        ppid c = currentPid ->
        (forall b, In b before -> ppid b <> currentPid) ->
        Unix.parseProcessInfo currentPid stdout = Some c)
  /\ (forall first others,
        Unix.candidates lines = first :: others ->
        (forall c, In c (first :: others) -> ppid c <> currentPid) ->
        Unix.parseProcessInfo currentPid stdout = Some first)
  /\ (forall l1 l2,
        Unix.candidates (l1 ++ l2)
        = Unix.candidates l1 ++ Unix.candidates l2)
  /\ (forall line,
        (exists c, Unix.candidates [line] = [c])
        <-> Unix.wellFormed line = true
            /\ rtest re_csrf_token (Unix.commandLine line) = true
            /\ isAntigravityProcess (Unix.commandLine line) = true)
  /\ (forall c,
        Unix.parseProcessInfo currentPid stdout = Some c ->
        csrfToken c <> []
        /\ exists line, In line lines /\ Unix.candidate line = Some c).
Proof.
  cbv zeta. rewrite parseProcessInfo_candidates.
  split; [| split; [| split; [| split; [| split]]]].
  - intros Hnone.
    destruct (Unix.candidates (split_unit 10 (trim stdout))) as [| c cs] eqn:E;
      [reflexivity |].
    exfalso.
    assert (Hin : In c (Unix.candidates (split_unit 10 (trim stdout))))
      by (rewrite E; now left).
    apply In_candidates in Hin as [line [Hl Hc]].
    apply candidate_needs_both in Hc as (Ht & Ha & _).
    apply (Hnone line Hl). split; assumption.
  - intros before c after E Hc Hb. rewrite E.
    assert (Hf : find (fun c0 => ppid c0 =? currentPid) (before ++ c :: after)
                 = Some c).
    { apply find_first_match.
      - intros b Hin. apply Z.eqb_neq. apply Hb. exact Hin.
      - apply Z.eqb_eq. exact Hc. }
    destruct (before ++ c :: after) as [| x xs] eqn:E'.
    + destruct before; discriminate.
    + rewrite Hf. reflexivity.
  - intros first others E Hall. rewrite E.
    destruct (find (fun c => ppid c =? currentPid) (first :: others))
      as [c |] eqn:Ef; [| reflexivity].
    apply find_some in Ef as [Hin Hc]. apply Z.eqb_eq in Hc.
    exfalso. apply (Hall c Hin). exact Hc.
  - apply candidates_app.
  - intros line. rewrite <- candidate_iff. cbn [Unix.candidates].
    destruct (Unix.candidate line) as [c |].
    + split; intros _; eexists; reflexivity.
    + split; intros [c H]; discriminate.
  - intros c Hc.
    assert (Hin : In c (Unix.candidates (split_unit 10 (trim stdout)))).
    { destruct (Unix.candidates (split_unit 10 (trim stdout)))
        as [| first others] eqn:E; [discriminate |].
      destruct (find (fun c0 => ppid c0 =? currentPid) (first :: others))
        as [c' |] eqn:Ef.
      - injection Hc as <-. apply find_some in Ef as [Hin _]. exact Hin.
      - injection Hc as <-. now left. }
    apply In_candidates in Hin as [line [Hl Hcand]].
    split.
    + apply candidate_needs_both in Hcand. tauto.
    + exists line. auto.
Qed.

End ProcessFacts.

(* ===================================================================== *)
(** ** ProcessPortDetector.detectProcessInfo *)
(* ===================================================================== *)

Section DetectorFacts.
Import Detector.

Variable execProcessList : Platform -> nat -> JsString + JsString.
Variable parseProcessInfo : Platform -> JsString -> option ProcessInfo.
Variable getProcessListeningPorts : nat -> Z -> list Z.
Variable testPortConnectivity : nat -> Z -> JsString -> bool.

(** One iteration of the loop. *)
Lemma loop_step (maxRetries : nat) (retryDelay : Z) (attempt : nat)
      (p : Platform) (k : nat) :
  loop execProcessList parseProcessInfo getProcessListeningPorts
       testPortConnectivity maxRetries retryDelay attempt p k
  = if (attempt <=? maxRetries)%nat then
      match tryBlock execProcessList parseProcessInfo
                     getProcessListeningPorts testPortConnectivity p k with
      | inr found => mkRun (Some found) p [Tried attempt p]
      | inl message =>
          if (isToolMissing (errorMsg message) && isWindows p
              && canSwitchToPowerShell p)%bool
          then andThen [Tried attempt p; Switched]
                 (loop execProcessList parseProcessInfo
                       getProcessListeningPorts testPortConnectivity
                       maxRetries retryDelay attempt (setUsePowerShell p)
                       (S k))
          else andThen (Tried attempt p
                        :: waitIfMore maxRetries attempt retryDelay)
                 (loop execProcessList parseProcessInfo
                       getProcessListeningPorts testPortConnectivity
                       maxRetries retryDelay (S attempt) p (S k))
      end
    else mkRun None p [].
Proof.
  funelim (loop execProcessList parseProcessInfo getProcessListeningPorts
                testPortConnectivity maxRetries retryDelay attempt p k);
    repeat match goal with
           | H : (_ <=? _)%nat = _ |- context [(_ <=? _)%nat] => rewrite H
           | H : tryBlock _ _ _ _ _ _ = _ |- context [tryBlock] => rewrite H
           | H : (_ && _ && _)%bool = _ |- context [isToolMissing] =>
               rewrite H
           end; reflexivity.
Qed.

Lemma switches_app (a b : list Event) :
  switches (a ++ b) = (switches a + switches b)%nat.
Proof. unfold switches. rewrite filter_app, length_app. reflexivity. Qed.

Lemma switches_wait (maxRetries attempt : nat) (retryDelay : Z) :
  switches (waitIfMore maxRetries attempt retryDelay) = O.
Proof. unfold waitIfMore. destruct (attempt <? maxRetries)%nat; reflexivity. Qed.

(** The tool is switched only by a strategy that can still switch, and
    then once; the strategy never goes back. *)
Lemma loop_switches (maxRetries : nat) (retryDelay : Z) (attempt : nat)
      (p : Platform) (k : nat) :
  let r := loop execProcessList parseProcessInfo getProcessListeningPorts
                testPortConnectivity maxRetries retryDelay attempt p k in
  (switches (events r) <= if canSwitchToPowerShell p then 1 else 0)%nat
  /\ (platform r = p \/ platform r = setUsePowerShell p).
Proof.
  cbv zeta.
  funelim (loop execProcessList parseProcessInfo getProcessListeningPorts
                testPortConnectivity maxRetries retryDelay attempt p k).
  - simpl. split; [apply Nat.le_0_l | auto].
  - simpl. split; [apply Nat.le_0_l | auto].
  - match goal with
    | IH : (switches _ <= _)%nat /\ _ |- _ => destruct IH as [IH1 IH2]
    end.
    pose proof (proj2 (proj1 (Bool.andb_true_iff _ _) switch)) as Hcan.
    clear - IH1 IH2 Hcan.
    destruct p as [[|] | |]; try discriminate.
    cbn [andThen events platform]. rewrite switches_app.
    cbn [setUsePowerShell canSwitchToPowerShell negb] in *.
    split; [simpl; lia |].
    right. destruct IH2 as [-> | ->]; reflexivity.
  - match goal with
    | IH : (switches _ <= _)%nat /\ _ |- _ => destruct IH as [IH1 IH2]
    end.
    cbn [andThen events platform].
    change (Tried attempt p :: waitIfMore maxRetries attempt retryDelay)
      with ([Tried attempt p] ++ waitIfMore maxRetries attempt retryDelay).
    rewrite !switches_app, switches_wait. simpl. split; [lia | exact IH2].
Qed.

(** C6, as amended.  On Windows the switch goes from the legacy tool
    (WMIC) to the modern one (PowerShell): when the [try] block fails
    with tool-missing or unrecognised text while the strategy is not
    using PowerShell, [detectProcessInfo] turns PowerShell on and runs
    the same attempt again, without a wait and without using up a slot,
    so that a run whose second listing succeeds returns at attempt 1.
    The switch happens at most once per run and is never undone.  A
    strategy that already uses PowerShell has no tool to fall back to:
    the same failure there consumes the attempt. *)
Theorem C6_tool_switch (maxRetries : nat) (retryDelay : Z) :
  (forall attempt k message,
     (attempt <= maxRetries)%nat ->
     tryBlock execProcessList parseProcessInfo getProcessListeningPorts
              testPortConnectivity (Windows false) k = inl message ->
     isToolMissing (errorMsg message) = true ->
     loop execProcessList parseProcessInfo getProcessListeningPorts
          testPortConnectivity maxRetries retryDelay attempt
          (Windows false) k
     = andThen [Tried attempt (Windows false); Switched]
         (loop execProcessList parseProcessInfo getProcessListeningPorts
               testPortConnectivity maxRetries retryDelay attempt
               (Windows true) (S k)))
  /\ (forall message found,
        (1 <= maxRetries)%nat ->
        tryBlock execProcessList parseProcessInfo getProcessListeningPorts
                 testPortConnectivity (Windows false) 0 = inl message ->
        isToolMissing (errorMsg message) = true ->
        tryBlock execProcessList parseProcessInfo getProcessListeningPorts
                 testPortConnectivity (Windows true) 1 = inr found ->
        detectProcessInfo execProcessList parseProcessInfo
                          getProcessListeningPorts testPortConnectivity
                          maxRetries retryDelay (Windows false)
        = mkRun (Some found) (Windows true)
                [Tried 1 (Windows false); Switched; Tried 1 (Windows true)])
  /\ (forall p,
        let r := detectProcessInfo execProcessList parseProcessInfo
                                   getProcessListeningPorts
                                   testPortConnectivity
                                   maxRetries retryDelay p in
        (switches (events r) <= 1)%nat
        /\ (platform r = p \/ platform r = Windows true))
  /\ (forall attempt k message,
        (attempt <= maxRetries)%nat ->
        tryBlock execProcessList parseProcessInfo getProcessListeningPorts
                 testPortConnectivity (Windows true) k = inl message ->
        loop execProcessList parseProcessInfo getProcessListeningPorts
             testPortConnectivity maxRetries retryDelay attempt
             (Windows true) k
        = andThen (Tried attempt (Windows true)
                   :: waitIfMore maxRetries attempt retryDelay)
            (loop execProcessList parseProcessInfo getProcessListeningPorts
                  testPortConnectivity maxRetries retryDelay (S attempt)
                  (Windows true) (S k))).
Proof.
  split; [| split; [| split]].
  - intros attempt k message Hle Htry Hmiss.
    rewrite loop_step. apply Nat.leb_le in Hle. rewrite Hle, Htry, Hmiss.
    reflexivity.
  - intros message found Hle Htry0 Hmiss Htry1.
    unfold detectProcessInfo.
    rewrite loop_step. apply Nat.leb_le in Hle. rewrite Hle, Htry0, Hmiss.
    cbn [isWindows canSwitchToPowerShell negb andb setUsePowerShell].
    rewrite loop_step, Hle, Htry1. reflexivity.
  - intros p. cbv zeta. unfold detectProcessInfo.
    destruct (loop_switches maxRetries retryDelay 1 p 0) as [Hs Hp].
    split.
    + destruct (canSwitchToPowerShell p); lia.
    + destruct Hp as [Hp | Hp]; [left; exact Hp |].
      destruct p as [ps | |]; cbn [setUsePowerShell] in Hp; auto.
  - intros attempt k message Hle Htry.
    rewrite loop_step. apply Nat.leb_le in Hle. rewrite Hle, Htry.
    cbn [isWindows canSwitchToPowerShell negb].
    rewrite Bool.andb_false_r. reflexivity.
Qed.

End DetectorFacts.

(* ===================================================================== *)
(** ** The statements at concrete inputs *)
(* ===================================================================== *)

Section Instances.
Import Client Fixtures.

(** C1 as the specification words it fails: after exactly
    [MAX_RETRY_COUNT] = 3 consecutive failures from a fresh budget the
    error callback has not been called at all and [retryCount] is 3,
    not 0. *)
Lemma C1_three_failures_counterexample :
  let run := fetches noDates [offline; offline; offline] fresh in
  retryCount fresh = O
  /\ errorCallback fresh = Some 9%nat
  /\ List.length [offline; offline; offline] = MAX_RETRY_COUNT
  /\ Forall (fun w => attemptFails noDates w fresh = true)
            [offline; offline; offline]
  /\ errorCalls (snd run) = []
  /\ retryCount (fst run) = 3%nat.
Proof.
  cbv zeta. repeat split; try reflexivity.
  repeat constructor.
Qed.

Lemma C1_retry_budget_witness :
  let (st3, es3) := fetches noDates [offline; offline; offline] fresh in
  let (st4, es4) := doFetchQuota noDates offline st3 in
  errorCalls es3 = [] /\ retryCount st3 = MAX_RETRY_COUNT
  /\ (exists error, snd (attempt noDates offline fresh) = inl error
                    /\ errorCalls es4 = [ErrorCalled 9 error])
  /\ retryCount st4 = O /\ isRetrying st4 = false
  /\ pollingInterval st4 = pollingInterval fresh
  /\ intervalsCleared (es3 ++ es4) = [].
Proof.
  apply (C1_retry_budget noDates fresh [offline; offline; offline] offline 9);
    [reflexivity | reflexivity | reflexivity | repeat constructor].
Defined.

(** C2 as the specification words it fails: the code ["Ok"] is not among
    the six listed values, yet the response is accepted and the fetch
    succeeds. *)
Lemma C2_Ok_counterexample :
  ~ listedCode (JStr (js "Ok"))
  /\ getInvalidCodeInfo
       (Some (mkResponse (JStr (js "Ok")) JUndefined (Some emptyStatus)))
     = None
  /\ attemptFails noDates onlineOk fresh = false.
Proof.
  split; [| split; reflexivity].
  unfold listedCode.
  intros [[q [H _]] | [H | [H | [H | [H | H]]]]]; vm_compute in H;
    discriminate.
Qed.

Lemma C2_ok_codes_witness :
  let r := mkResponse (JNum 7) (JStr (js "quota info missing"))
                      (Some emptyStatus) in
  (getInvalidCodeInfo (Some r) = None <-> acceptedCode (r_code r))
  /\ (~ acceptedCode (r_code r) ->
      getInvalidCodeInfo (Some r) = Some (r_code r, r_message r))
  /\ (forall (w : World) (st : State),
        snd (makeRequest (doRequest w) (port st) (httpPort st) (csrfToken st))
        = inr (Some r) ->
        ~ acceptedCode (r_code r) ->
        snd (attempt noDates w st)
        = inl (InvalidCode (r_code r) (r_message r))
        /\ ((retryCount st < MAX_RETRY_COUNT)%nat ->
            retryCount (fst (doFetchQuota noDates w st))
            = S (retryCount st))).
Proof.
  apply (C2_ok_codes noDates
           (mkResponse (JNum 7) (JStr (js "quota info missing"))
                       (Some emptyStatus)));
    simpl; discriminate.
Defined.

(** C3 as the specification words it fails: with a re-attempt pending, a
    manual [quickRefresh()] does start a fetch: the request goes out
    and the update subscriber is called. *)
Lemma C3_quickRefresh_counterexample :
  isRetrying pending = true
  /\ snd (quickRefresh noDates online pending)
     = [Sent (Https 7070); UpdateCalled 8 okSnapshot]
  /\ snd (fetchQuota noDates online pending) = [].
Proof. repeat split; reflexivity. Qed.

Lemma C3_retrying_suppresses_ticks_witness :
  fetchQuota noDates online pending = (pending, [])
  /\ quickRefresh noDates online pending = doFetchQuota noDates online pending
  /\ (forall t, csrfToken pending = Some t -> truthy t = true ->
        In (Sent (Https (port pending)))
           (snd (quickRefresh noDates online pending))).
Proof.
  apply (C3_retrying_suppresses_ticks noDates online pending); reflexivity.
Defined.

(** C4 as the specification words it fails: a manual refresh requested
    after one failure does not reset the counter; when its attempt
    fails too the counter goes from 1 to 2. *)
Lemma C4_quickRefresh_counterexample :
  retryCount pending = 1%nat
  /\ retryCount (fst (quickRefresh noDates offline pending)) = 2%nat.
Proof. split; reflexivity. Qed.

Lemma C4_retry_counter_reset_witness :
  retryCount (fst (quickRefresh noDates offline pending))
  = if (retryCount pending <? MAX_RETRY_COUNT)%nat
    then S (retryCount pending) else O.
Proof.
  apply (proj2 (C4_retry_counter_reset noDates offline pending)).
  reflexivity.
Defined.

(** C5 as the specification words it fails: the error has neither the
    code [EPROTO] nor a message containing [wrong_version_number] (the
    host spells it in capitals), a fallback port is configured, and the
    request is retried over plain HTTP all the same. *)
Lemma C5_uppercase_counterexample :
  ~ literalMismatch wrongVersion
  /\ plaintext true 7070 = inl wrongVersion
  /\ makeRequest plaintext 7070 (Some 5050) (Some token)
     = ([Https 7070; Http 5050], inr (Some okResponse)).
Proof.
  split; [| split; reflexivity].
  unfold literalMismatch. intros [H | H]; vm_compute in H; discriminate.
Qed.

Lemma C5_http_fallback_witness :
  (forall fallback, Some 5050 = Some fallback ->
                    isProtocolMismatch wrongVersion = true ->
     makeRequest plaintext 7070 (Some 5050) (Some token)
     = ([Https 7070; Http fallback], plaintext false fallback))
  /\ (Some 5050 = None \/ isProtocolMismatch wrongVersion = false ->
      makeRequest plaintext 7070 (Some 5050) (Some token)
      = ([Https 7070], inl wrongVersion))
  /\ (isProtocolMismatch wrongVersion = true <->
      code wrongVersion = Some (js "EPROTO")
      \/ includes (js "wrong_version_number")
                  (toLowerCase (message wrongVersion)) = true)
  /\ (literalMismatch wrongVersion -> isProtocolMismatch wrongVersion = true).
Proof.
  apply (C5_http_fallback plaintext 7070 (Some 5050) token wrongVersion);
    reflexivity.
Defined.

(** C6 as the specification words it fails: the strategy uses the modern
    tool (PowerShell), the listing fails with "not recognized", and
    nothing is demoted: the strategy stays on PowerShell, the failure
    uses up attempt 1 and the run succeeds at attempt 2 after a wait. *)
Lemma C6_powershell_counterexample :
  Detector.tryBlock firstCommandRejected parsesServer listens answers
                    (Detector.Windows true) 0
  = inl notRecognized
  /\ Detector.isToolMissing (Detector.errorMsg notRecognized) = true
  /\ Detector.detectProcessInfo firstCommandRejected parsesServer listens
                                answers 3 2000 (Detector.Windows true)
     = Detector.mkRun (Some found) (Detector.Windows true)
         [Detector.Tried 1 (Detector.Windows true);
          Detector.Waited 2000;
          Detector.Tried 2 (Detector.Windows true)].
Proof. repeat split; vm_compute; reflexivity. Qed.

Lemma C6_tool_switch_witness :
  Detector.detectProcessInfo firstCommandRejected parsesServer listens
                             answers 3 2000 (Detector.Windows false)
  = Detector.mkRun (Some found) (Detector.Windows true)
      [Detector.Tried 1 (Detector.Windows false);
       Detector.Switched;
       Detector.Tried 1 (Detector.Windows true)].
Proof.
  apply (proj1 (proj2 (C6_tool_switch firstCommandRejected parsesServer
                         listens answers 3 2000))
           notRecognized found).
  - lia.
  - reflexivity.
  - vm_compute. reflexivity.
  - reflexivity.
Defined.

Lemma C7_parseProcessInfo_witness :
  Unix.parseProcessInfo 77 (output psLines)
  = Some (mkInfo 101 77 6060 (js "DEAD-beef")).
Proof.
  apply (proj1 (proj2 (C7_parseProcessInfo 77 (output psLines)))
           [mkInfo 100 1 5050 (js "0a-1b")]
           (mkInfo 101 77 6060 (js "DEAD-beef")) []).
  - vm_compute. reflexivity.
  - reflexivity.
  - intros b [<- | []]. simpl. discriminate.
Defined.

Lemma C8_ports_ascending_unique_witness :
  Unix.parse_lines (List.map js lsofLines)
  = Unix.parse_lines (rev (List.map js lsofLines)).
Proof.
  apply (proj1 (proj2 (proj2 (proj2 C8_ports_ascending_unique)))).
  apply Permutation_rev.
Defined.

(** C9 as the specification words it fails: a [resetTime] that is
    present and cannot be parsed, the empty string, does not default to
    24 hours from now; it is treated like an absent one. *)
Lemma C9_empty_resetTime_counterexample :
  let quotaInfo := mkQuotaInfo (Some (1 # 2)) (Some []) in
  let m := fst (parseModelQuota noDates (fun _ => 1000)
                  (mkModelConfig (js "Model") (js "M1") (Some quotaInfo))
                  quotaInfo O) in
  noDates [] = None
  /\ resetTime m = 8640000000000000
  /\ resetTime m <> 1000 + 24 * 60 * 60 * 1000.
Proof. cbv zeta. repeat split; try reflexivity. vm_compute. discriminate. Qed.

Lemma C9_reset_time_witness :
  let quotaInfo := mkQuotaInfo (Some (1 # 2)) (Some (js "soon")) in
  let m := fst (parseModelQuota noDates (fun _ => 1000)
                  (mkModelConfig (js "Model") (js "M1") (Some quotaInfo))
                  quotaInfo O) in
  resetTime m = 1000 + 86400000
  /\ timeUntilReset m = 1000 + 86400000 - 1000.
Proof.
  apply (proj1 (proj2 (proj2
           (C9_reset_time noDates (fun _ => 1000)
              (mkModelConfig (js "Model") (js "M1")
                 (Some (mkQuotaInfo (Some (1 # 2)) (Some (js "soon")))))
              (mkQuotaInfo (Some (1 # 2)) (Some (js "soon"))) O)))
           (js "soon")).
  - reflexivity.
  - discriminate.
  - vm_compute. discriminate.
  - reflexivity.
Defined.

End Instances.

(* ===================================================================== *)
(** ** The model at work *)
(* ===================================================================== *)

Section Examples.
Import Client Fixtures.

Example split_ws_pieces :
  split_ws (js " a  b ") = [[]; js "a"; js "b"; []].
Proof. reflexivity. Qed.

Example parseInt_prefix :
  parseInt (js "12ab") = Some 12 /\ parseInt (js " -7") = Some (-7)
  /\ parseInt (js "x1") = None /\ parseInt (js "-") = None.
Proof. repeat split; reflexivity. Qed.

Example identity_by_marker_or_path :
  isAntigravityProcess (js "ls --APP_DATA_DIR   Antigravity --x") = true
  /\ isAntigravityProcess (js "ls --app_data_dir antigravity2") = false
  /\ isAntigravityProcess (js "C:\Programs\Antigravity\ls.exe") = true
  /\ isAntigravityProcess (js "/opt/antigravity-beta/ls") = false.
Proof. repeat split; vm_compute; reflexivity. Qed.

Example first_candidate_without_child :
  Unix.parseProcessInfo 5 (output psLines)
  = Some (mkInfo 100 1 5050 (js "0a-1b")).
Proof. vm_compute. reflexivity. Qed.

Example token_elsewhere_is_irrelevant :
  Unix.parseProcessInfo 1
    (js "  90     1 /opt/other/bin/language_server_linux --csrf_token=ffff")
  = None.
Proof. vm_compute. reflexivity. Qed.

Example graftcp_line_is_skipped :
  Unix.parseProcessInfo 1
    (js "7 1 graftcp /opt/antigravity/ls --csrf_token=ffff")
  = None.
Proof. vm_compute. reflexivity. Qed.

Example formatTimeUntilReset_units :
  formatTimeUntilReset 90061000 = js "1d1h from now"
  /\ formatTimeUntilReset 3723000 = js "1h 2m from now"
  /\ formatTimeUntilReset 61000 = js "1m 1s from now"
  /\ formatTimeUntilReset 999 = js "0s from now"
  /\ formatTimeUntilReset 0 = js "Expired".
Proof. repeat split; vm_compute; reflexivity. Qed.

Example three_attempts_then_none :
  Detector.detectProcessInfo (fun _ _ => inl (js "Command failed: ps"))
                             parsesServer listens answers 3 2000
                             Detector.Linux
  = Detector.mkRun None Detector.Linux
      [Detector.Tried 1 Detector.Linux; Detector.Waited 2000;
       Detector.Tried 2 Detector.Linux; Detector.Waited 2000;
       Detector.Tried 3 Detector.Linux].
Proof. vm_compute. reflexivity. Qed.

Example startPolling_replaces_the_timer :
  snd (startPolling noDates online 15000 5 fresh)
  = [IntervalCleared 4; Sent (Https 7070); UpdateCalled 8 okSnapshot;
     IntervalSet 5 15000]
  /\ pollingInterval (fst (startPolling noDates online 15000 5 fresh))
     = Some 5%nat.
Proof. split; reflexivity. Qed.

Example fourth_failure_reports :
  snd (fetches noDates [offline; offline; offline; offline] fresh)
  = [Sent (Https 7070); RetryScheduled 5000;
     Sent (Https 7070); RetryScheduled 5000;
     Sent (Https 7070); RetryScheduled 5000;
     Sent (Https 7070); ErrorCalled 9 (Failed refused)].
Proof. reflexivity. Qed.

End Examples.

(* ===================================================================== *)
(** ** The client under arbitrary sequences of calls *)
(* ===================================================================== *)

Section CallFacts.
Import Client Calls.

Variable parseDate : JsString -> option Z.

Lemma count_app (p : Effect -> bool) (a b : list Effect) :
  count p (a ++ b) = (count p a + count p b)%nat.
Proof. unfold count. rewrite filter_app, length_app. reflexivity. Qed.

Lemma count_sent (p : Effect -> bool) (l : list Request) :
  (forall r, p (Sent r) = false) -> count p (List.map Sent l) = O.
Proof.
  intros H. unfold count. induction l as [| r l IH]; simpl; [reflexivity |].
  rewrite H. exact IH.
Qed.

Lemma activeTimers_quiet (es : list Effect) :
  Forall (fun e => isTimerEffect e = false) es ->
  forall active, activeTimers es active = active.
Proof.
  induction 1 as [| e es He _ IH]; intros active; [reflexivity |].
  destruct e; simpl in *; try discriminate; apply IH.
Qed.

Lemma activeTimers_app (a b : list Effect) : forall active,
  activeTimers (a ++ b) active = activeTimers b (activeTimers a active).
Proof.
  induction a as [| e a IH]; intros active; [reflexivity |].
  destruct e; simpl; apply IH.
Qed.

Lemma Forall_sent (P : Effect -> Prop) (l : list Request) :
  (forall r, P (Sent r)) -> Forall P (List.map Sent l).
Proof. intros H. induction l; simpl; constructor; auto. Qed.

(** [doFetchQuota] neither starts nor stops an interval timer. *)
Lemma doFetchQuota_quiet (w : World) (st : State) :
  Forall (fun e => isTimerEffect e = false)
         (snd (doFetchQuota parseDate w st)).
Proof.
  unfold doFetchQuota.
  destruct (attempt parseDate w st) as [sent [error | snapshot]];
    [destruct (retryCount st <? MAX_RETRY_COUNT)%nat |];
    cbn [snd]; rewrite !Forall_app; repeat split;
    try (apply Forall_sent; reflexivity);
    destruct (isFirstAttempt st), (statusCallback st), (errorCallback st),
      (updateCallback st); simpl; repeat constructor.
Qed.

(** What one [doFetchQuota] does to the counters. *)
Lemma doFetchQuota_counts (w : World) (st : State) :
  (retryCount st <= MAX_RETRY_COUNT)%nat ->
  let (st', es) := doFetchQuota parseDate w st in
  (retryCount st' <= MAX_RETRY_COUNT)%nat
  /\ (3 * count isErrorCall es + retryCount st'
      <= count isRetryScheduled es + retryCount st)%nat
  /\ pollingInterval st' = pollingInterval st
  /\ (isFirstAttempt st = false ->
      isFirstAttempt st' = false /\ count isFetchingStatus es = O).
Proof.
  intros Hle. unfold doFetchQuota.
  destruct (attempt parseDate w st) as [sent [error | snapshot]].
  - destruct (retryCount st <? MAX_RETRY_COUNT)%nat eqn:E.
    + apply Nat.ltb_lt in E.
      cbn [retryCount willRetry pollingInterval isFirstAttempt].
      rewrite !count_app, !(count_sent _ sent) by reflexivity.
      split; [| split; [| split]].
      * lia.
      * destruct (isFirstAttempt st), (statusCallback st); simpl; lia.
      * reflexivity.
      * intros ->. simpl. destruct (statusCallback st); split; reflexivity.
    + apply Nat.ltb_ge in E.
      cbn [retryCount gaveUp pollingInterval isFirstAttempt].
      rewrite !count_app, !(count_sent _ sent) by reflexivity.
      split; [| split; [| split]].
      * apply Nat.le_0_l.
      * destruct (isFirstAttempt st), (statusCallback st),
          (errorCallback st); simpl; unfold MAX_RETRY_COUNT in *; lia.
      * reflexivity.
      * intros ->. simpl. destruct (errorCallback st); split; reflexivity.
  - cbn [retryCount succeeded pollingInterval isFirstAttempt].
    rewrite !count_app, !(count_sent _ sent) by reflexivity.
    split; [| split; [| split]].
    + apply Nat.le_0_l.
    + destruct (isFirstAttempt st), (statusCallback st),
        (updateCallback st); simpl; lia.
    + reflexivity.
    + intros H. rewrite H. simpl.
      destruct (updateCallback st); split; reflexivity.
Qed.

Lemma scheduled_cleared (st : State) :
  activeTimers (snd (stopPolling st)) (scheduled st) = [].
Proof.
  unfold stopPolling, scheduled.
  destruct (pollingInterval st) as [t |]; simpl; [| reflexivity].
  destruct (Nat.eq_dec t t); [reflexivity | congruence].
Qed.

(** What one call does to the counters, the timers and the first-attempt
    flag. *)
Lemma call_counts (c : Call) (st : State) :
  (retryCount st <= MAX_RETRY_COUNT)%nat ->
  let (st', es) := call parseDate c st in
  (retryCount st' <= MAX_RETRY_COUNT)%nat
  /\ (3 * count isErrorCall es + retryCount st'
      <= count isRetryScheduled es + retryCount st)%nat
  /\ activeTimers es (scheduled st) = scheduled st'
  /\ (isFirstAttempt st = false ->
      isFirstAttempt st' = false /\ count isFetchingStatus es = O).
Proof.
  intros Hle.
  assert (Hfetch : forall w st0,
             (retryCount st0 <= MAX_RETRY_COUNT)%nat ->
             let (st', es) := doFetchQuota parseDate w st0 in
             (retryCount st' <= MAX_RETRY_COUNT)%nat
             /\ (3 * count isErrorCall es + retryCount st'
                 <= count isRetryScheduled es + retryCount st0)%nat
             /\ activeTimers es (scheduled st0) = scheduled st'
             /\ (isFirstAttempt st0 = false ->
                 isFirstAttempt st' = false
                 /\ count isFetchingStatus es = O)).
  { intros w st0 H0.
    pose proof (doFetchQuota_counts w st0 H0) as Hc.
    pose proof (doFetchQuota_quiet w st0) as Hq.
    destruct (doFetchQuota parseDate w st0) as [st' es]. cbn [snd] in Hq.
    destruct Hc as (H1 & H2 & H3 & H4).
    repeat split; try assumption; try (apply H4; assumption).
    rewrite (activeTimers_quiet es Hq). unfold scheduled. rewrite H3.
    reflexivity. }
  destruct c as [w | w | w | w ms timer | | cp hp | tok | cb | cb | cb];
    cbn [call].
  - unfold fetchQuota. destruct (isRetrying st).
    + simpl. repeat split; auto; lia.
    + apply Hfetch. exact Hle.
  - unfold retryTimer, fetchQuota. cbn [isRetrying withRetrying].
    apply (Hfetch w (withRetrying st false)). exact Hle.
  - apply Hfetch. exact Hle.
  - unfold startPolling.
    pose proof (scheduled_cleared st) as Hcl.
    destruct (stopPolling st) as [st1 e1] eqn:Es. cbn [snd] in Hcl.
    assert (Hst1 : retryCount st1 = retryCount st
                   /\ isFirstAttempt st1 = isFirstAttempt st
                   /\ isRetrying st1 = isRetrying st
                   /\ scheduled st1 = []
                   /\ count isErrorCall e1 = O
                   /\ count isRetryScheduled e1 = O
                   /\ count isFetchingStatus e1 = O).
    { unfold stopPolling in Es.
      destruct (pollingInterval st) as [t |] eqn:Ep; injection Es as <- <-;
        unfold scheduled; simpl; rewrite ?Ep; repeat split; reflexivity. }
    destruct Hst1 as (Hr & Hf & Hy & Hs & Hc1 & Hc2 & Hc3).
    assert (Hrest : let (st2, e2) := fetchQuota parseDate w st1 in
              (retryCount st2 <= MAX_RETRY_COUNT)%nat
              /\ (3 * count isErrorCall e2 + retryCount st2
                  <= count isRetryScheduled e2 + retryCount st1)%nat
              /\ activeTimers e2 [] = []
              /\ (isFirstAttempt st1 = false ->
                  isFirstAttempt st2 = false
                  /\ count isFetchingStatus e2 = O)).
    { unfold fetchQuota. destruct (isRetrying st1).
      - simpl. repeat split; auto; lia.
      - pose proof (Hfetch w st1 ltac:(lia)) as H.
        pose proof (doFetchQuota_quiet w st1) as Hq.
        destruct (doFetchQuota parseDate w st1) as [st2 e2]. cbn [snd] in Hq.
        destruct H as (H1 & H2 & _ & H4).
        repeat split; try assumption; try (apply H4; assumption).
        apply activeTimers_quiet. exact Hq. }
    destruct (fetchQuota parseDate w st1) as [st2 e2].
    destruct Hrest as (H1 & H2 & H3 & H4).
    rewrite !count_app, !activeTimers_app, Hcl, H3, Hc1, Hc2, Hc3.
    cbn [retryCount withInterval isFirstAttempt]. unfold scheduled.
    cbn [pollingInterval withInterval activeTimers].
    split; [exact H1 | split; [unfold count in *; simpl; lia |]].
    split; [reflexivity |].
    intros Hf0. destruct (H4 ltac:(congruence)) as [A B].
    split; [exact A | rewrite B; reflexivity].
  - pose proof (scheduled_cleared st) as Hcl.
    unfold stopPolling in *.
    destruct (pollingInterval st) as [t |] eqn:Ep; cbn [snd] in Hcl;
      rewrite Hcl; unfold scheduled; simpl; rewrite ?Ep;
      repeat split; auto; lia.
  - simpl. unfold scheduled. simpl. repeat split; auto; lia.
  - simpl. unfold scheduled. simpl. repeat split; auto; lia.
  - simpl. unfold scheduled. simpl. repeat split; auto; lia.
  - simpl. unfold scheduled. simpl. repeat split; auto; lia.
  - simpl. unfold scheduled. simpl. repeat split; auto; lia.
Qed.

Lemma calls_counts (cs : list Call) : forall st : State,
  (retryCount st <= MAX_RETRY_COUNT)%nat ->
  let (st', es) := calls parseDate cs st in
  (retryCount st' <= MAX_RETRY_COUNT)%nat
  /\ (3 * count isErrorCall es + retryCount st'
      <= count isRetryScheduled es + retryCount st)%nat
  /\ activeTimers es (scheduled st) = scheduled st'
  /\ (isFirstAttempt st = false ->
      isFirstAttempt st' = false /\ count isFetchingStatus es = O).
Proof.
  induction cs as [| c cs IH]; intros st Hle; cbn [calls].
  - simpl. repeat split; auto; lia.
  - pose proof (call_counts c st Hle) as Hc.
    destruct (call parseDate c st) as [st1 e1].
    destruct Hc as (H1 & H2 & H3 & H4).
    specialize (IH st1 H1).
    destruct (calls parseDate cs st1) as [st2 e2].
    destruct IH as (I1 & I2 & I3 & I4).
    rewrite !count_app, activeTimers_app, H3.
    split; [exact I1 | split; [lia | split; [exact I3 |]]].
    intros Hf. destruct (H4 Hf) as [Hf1 Hz1].
    destruct (I4 Hf1) as [Hf2 Hz2]. split; [exact Hf2 | lia].
Qed.

(** X1.  Whatever calls are made on a client and whatever the network
    answers, its retry counter never exceeds [MAX_RETRY_COUNT]. *)
Theorem X1_retry_counter_bounded (cs : list Call) (port : Z)
        (token : option JsString) (fallback : option Z)
        (httpsAgent httpAgent : nat) :
  (retryCount
     (fst (calls parseDate cs
             (constructor port token fallback httpsAgent httpAgent)))
   <= MAX_RETRY_COUNT)%nat.
Proof.
  pose proof (calls_counts cs
                (constructor port token fallback httpsAgent httpAgent)
                (Nat.le_0_l _)) as H.
  destruct (calls parseDate cs _) as [st es]. simpl. tauto.
Qed.

(** X2.  Error reports are rationed: over the whole life of a client the
    error subscriber is called at most once for every three delayed
    re-attempts that were scheduled. *)
Theorem X2_errors_rationed (cs : list Call) (port : Z)
        (token : option JsString) (fallback : option Z)
        (httpsAgent httpAgent : nat) :
  let es := snd (calls parseDate cs
                   (constructor port token fallback httpsAgent httpAgent)) in
  (3 * count isErrorCall es <= count isRetryScheduled es)%nat.
Proof.
  cbv zeta.
  pose proof (calls_counts cs
                (constructor port token fallback httpsAgent httpAgent)
                (Nat.le_0_l _)) as H.
  destruct (calls parseDate cs _) as [st es]. simpl in *. lia.
Qed.

(** X3.  When calls do not overlap, the client never holds more than
    one interval timer: replaying every [setInterval] and
    [clearInterval] of its life leaves exactly the timer recorded in
    [pollingInterval], or none. *)
Theorem X3_one_interval_timer (cs : list Call) (port : Z)
        (token : option JsString) (fallback : option Z)
        (httpsAgent httpAgent : nat) :
  let run := calls parseDate cs
               (constructor port token fallback httpsAgent httpAgent) in
  activeTimers (snd run) [] = scheduled (fst run)
  /\ (List.length (activeTimers (snd run) []) <= 1)%nat.
Proof.
  cbv zeta.
  pose proof (calls_counts cs
                (constructor port token fallback httpsAgent httpAgent)
                (Nat.le_0_l _)) as H.
  destruct (calls parseDate cs _) as [st es]. cbn [fst snd].
  destruct H as (_ & _ & H & _).
  assert (E : scheduled (constructor port token fallback httpsAgent httpAgent)
              = []) by reflexivity.
  rewrite E in H. rewrite H. split; [reflexivity |].
  unfold scheduled. destruct (pollingInterval st); simpl; lia.
Qed.

(** X4.  The "fetching" status is a first-fetch affair: once an attempt
    has succeeded, no later call, timer or failure makes the client
    announce "fetching" again. *)
Theorem X4_fetching_only_before_first_success (w : World) (st : State)
        (cs : list Call) :
  (retryCount st <= MAX_RETRY_COUNT)%nat ->
  attemptFails parseDate w st = false ->
  count isFetchingStatus
        (snd (calls parseDate cs (fst (doFetchQuota parseDate w st)))) = O.
Proof.
  intros Hle Hs.
  pose proof (doFetchQuota_success parseDate w st Hs) as H1.
  destruct (doFetchQuota parseDate w st) as [st1 e1]. cbn [fst].
  destruct H1 as (Hrc & _ & Hf & _).
  pose proof (calls_counts cs st1 ltac:(rewrite Hrc; apply Nat.le_0_l)) as H.
  destruct (calls parseDate cs st1) as [st2 e2]. cbn [snd].
  destruct H as (_ & _ & _ & H). apply H. exact Hf.
Qed.

(** X5.  [stopPolling()] cancels the interval timer only.  A retry timer
    that fires after it still runs a fetch attempt against the secure
    port, and when that attempt fails with budget left it schedules the
    next retry, although no polling schedule exists any more. *)
Theorem X5_stop_keeps_pending_retry (w : World) (st : State)
        (t : JsString) :
  csrfToken st = Some t -> truthy t = true ->
  let run := calls parseDate [StopPolling; RetryFired w] st in
  pollingInterval (fst run) = None
  /\ In (Sent (Https (port st))) (snd run)
  /\ (attemptFails parseDate w st = true ->
      (retryCount st < MAX_RETRY_COUNT)%nat ->
      In (RetryScheduled RETRY_DELAY_MS) (snd run)
      /\ isRetrying (fst run) = true).
Proof.
  intros Ht Htr. cbv zeta. cbn [calls call].
  destruct (stopPolling st) as [st1 e1] eqn:Es.
  assert (Hst1 : pollingInterval st1 = None /\ port st1 = port st
                 /\ httpPort st1 = httpPort st
                 /\ csrfToken st1 = csrfToken st
                 /\ retryCount st1 = retryCount st).
  { unfold stopPolling in Es.
    destruct (pollingInterval st) eqn:Ep; injection Es as <- <-; simpl; auto. }
  destruct Hst1 as (Hi & Hp & Hh & Hc & Hr).
  unfold retryTimer, fetchQuota. cbn [isRetrying withRetrying].
  set (st2 := withRetrying st1 false).
  assert (Hsame : attemptFails parseDate w st2 = attemptFails parseDate w st).
  { apply attemptFails_same_endpoint; simpl; assumption. }
  pose proof (doFetchQuota_frame parseDate w st2) as Hfr.
  pose proof (doFetchQuota_sends parseDate w st2 (Https (port st))) as Hsend.
  pose proof (doFetchQuota_retry parseDate w st2) as Hretry.
  destruct (doFetchQuota parseDate w st2) as [st3 e3].
  cbn [fst snd] in *. rewrite app_nil_r.
  destruct Hfr as (_ & _ & _ & Hi3 & _).
  split; [| split].
  - rewrite Hi3. simpl. exact Hi.
  - apply in_or_app. right. apply Hsend.
    replace (port st) with (port st2) by (simpl; exact Hp).
    apply attempt_sends_https with (t := t); [| exact Htr].
    simpl. congruence.
  - intros Hf Hlt. rewrite <- Hsame in Hf.
    destruct (Hretry Hf ltac:(simpl; lia)) as (_ & Hy & _ & Hin).
    split; [apply in_or_app; right; exact Hin | exact Hy].
Qed.

(** One failing [doFetchQuota], counted. *)
Lemma doFetchQuota_failing (w : World) (st : State) (cb : nat) :
  attemptFails parseDate w st = true ->
  errorCallback st = Some cb ->
  let (st', es) := doFetchQuota parseDate w st in
  (if (retryCount st <? MAX_RETRY_COUNT)%nat
   then retryCount st' = S (retryCount st)
        /\ count isErrorCall es = O /\ count isRetryScheduled es = 1%nat
   else retryCount st' = O
        /\ count isErrorCall es = 1%nat /\ count isRetryScheduled es = O)
  /\ port st' = port st /\ httpPort st' = httpPort st
  /\ csrfToken st' = csrfToken st /\ errorCallback st' = errorCallback st.
Proof.
  unfold attemptFails, doFetchQuota. intros Hf Hcb.
  destruct (attempt parseDate w st) as [sent [e | snap]]; [| discriminate].
  destruct (retryCount st <? MAX_RETRY_COUNT)%nat;
    rewrite ?Hcb; cbn [callIf];
    rewrite !count_app, !(count_sent _ sent) by reflexivity;
    destruct (isFirstAttempt st), (statusCallback st); cbn; auto.
Qed.

Lemma fetches_failing (ws : list World) : forall (st : State) (cb : nat),
  errorCallback st = Some cb ->
  (retryCount st <= MAX_RETRY_COUNT)%nat ->
  Forall (fun w => attemptFails parseDate w st = true) ws ->
  let (st', es) := fetches parseDate ws st in
  (count isErrorCall es = (retryCount st + List.length ws) / 4
   /\ retryCount st' = (retryCount st + List.length ws) mod 4
   /\ count isErrorCall es + count isRetryScheduled es
      = List.length ws)%nat.
Proof.
  induction ws as [| w ws IH]; intros st cb Hcb Hle Hf; cbn [fetches].
  - unfold MAX_RETRY_COUNT in Hle. cbn [List.length count filter].
    rewrite Nat.add_0_r.
    rewrite Nat.div_small, Nat.mod_small by lia. auto.
  - inversion Hf as [| ? ? Hw Hws]; subst.
    pose proof (doFetchQuota_failing w st cb Hw Hcb) as H1.
    destruct (doFetchQuota parseDate w st) as [st1 e1].
    destruct H1 as (Hcase & P1 & P2 & P3 & P4).
    assert (Hf1 : Forall (fun w0 => attemptFails parseDate w0 st1 = true) ws).
    { eapply Forall_impl; [| exact Hws]. intros w0 H0. cbv beta in *.
      rewrite (attemptFails_same_endpoint parseDate w0 st st1); assumption. }
    assert (Hle1 : (retryCount st1 <= MAX_RETRY_COUNT)%nat).
    { unfold MAX_RETRY_COUNT in *.
      destruct (retryCount st <? 3)%nat eqn:E.
      - apply Nat.ltb_lt in E. lia.
      - lia. }
    specialize (IH st1 cb ltac:(congruence) Hle1 Hf1).
    destruct (fetches parseDate ws st1) as [st2 e2].
    destruct IH as (I1 & I2 & I3).
    rewrite !count_app. cbn [List.length].
    unfold MAX_RETRY_COUNT in *.
    destruct (retryCount st <? 3)%nat eqn:E.
    + apply Nat.ltb_lt in E. destruct Hcase as (R & C1 & C2).
      rewrite C1, C2. rewrite R in I1, I2.
      replace (retryCount st + S (List.length ws))%nat
        with (S (retryCount st) + List.length ws)%nat by lia.
      split; [exact I1 | split; [exact I2 | lia]].
    + apply Nat.ltb_ge in E. destruct Hcase as (R & C1 & C2).
      assert (E3 : retryCount st = 3%nat) by lia.
      rewrite C1, C2, E3. rewrite R in I1, I2. cbn [Nat.add] in I1, I2.
      replace (3 + S (List.length ws))%nat
        with (List.length ws + 1 * 4)%nat by lia.
      rewrite Nat.div_add, Nat.Div0.mod_add by lia.
      split; [lia | split; [exact I2 | lia]].
Qed.

(** X28.  Against a server that keeps failing, a client reports one
    error for every four attempts, exactly.  After any number of
    consecutive failed fetches from a fresh budget, the error callback
    has been called once per complete group of four failures, the
    retry counter holds the number of failures since the last report,
    and every failure that was not reported scheduled one retry. *)
Theorem X28_one_error_per_four_failures (ws : list World) (st : State)
        (cb : nat) :
  errorCallback st = Some cb ->
  retryCount st = O ->
  Forall (fun w => attemptFails parseDate w st = true) ws ->
  let (st', es) := fetches parseDate ws st in
  (count isErrorCall es = List.length ws / 4
   /\ retryCount st' = List.length ws mod 4
   /\ count isRetryScheduled es
      = List.length ws - List.length ws / 4)%nat.
Proof.
  intros Hcb H0 Hf.
  pose proof (fetches_failing ws st cb Hcb
                ltac:(rewrite H0; apply Nat.le_0_l) Hf) as H.
  destruct (fetches parseDate ws st) as [st' es].
  rewrite H0 in H. cbn [Nat.add] in H. destruct H as (A & B & C).
  repeat split; lia.
Qed.

End CallFacts.

(* ===================================================================== *)
(** ** Decimal numerals *)
(* ===================================================================== *)

Section Numerals.

Lemma js_String (a : ascii) (s : string) :
  js (String a s) = N_of_ascii a :: js s.
Proof. reflexivity. Qed.

(** Reading the digits of a numeral continues the accumulator the way
    [Pos.of_uint_acc] does. *)
Lemma digits_from_acc (d : Decimal.uint) : forall (acc : positive) suffix,
  starts_with_digit suffix = false ->
  digits_from (Z.pos acc) (js (NilEmpty.string_of_uint d) ++ suffix)
  = Z.pos (Pos.of_uint_acc d acc).
Proof.
  induction d; intros acc suffix Hs; cbn [NilEmpty.string_of_uint];
    rewrite ?js_String; cbn [app digits_from Pos.of_uint_acc];
    try (change (is_digit (N_of_ascii _)) with true; cbv iota;
         rewrite <- (IHd _ suffix Hs); f_equal;
         match goal with
         | |- context [digit_val ?x] =>
             let v := eval vm_compute in (digit_val x) in
             change (digit_val x) with v
         end; lia).
  destruct suffix as [| c suffix]; simpl in *; [reflexivity |].
  rewrite Hs. reflexivity.
Qed.

Lemma digits_from_zero (d : Decimal.uint) : forall suffix,
  starts_with_digit suffix = false ->
  digits_from 0 (js (NilEmpty.string_of_uint d) ++ suffix)
  = Z.of_N (Pos.of_uint d).
Proof.
  induction d; intros suffix Hs; cbn [NilEmpty.string_of_uint];
    rewrite ?js_String; cbn [app digits_from Pos.of_uint];
    try (change (is_digit (N_of_ascii _)) with true; cbv iota).
  - destruct suffix as [| c suffix]; simpl in *; [reflexivity |].
    rewrite Hs. reflexivity.
  - apply IHd. exact Hs.
  - apply (digits_from_acc d 1 suffix Hs).
  - apply (digits_from_acc d 2 suffix Hs).
  - apply (digits_from_acc d 3 suffix Hs).
  - apply (digits_from_acc d 4 suffix Hs).
  - apply (digits_from_acc d 5 suffix Hs).
  - apply (digits_from_acc d 6 suffix Hs).
  - apply (digits_from_acc d 7 suffix Hs).
  - apply (digits_from_acc d 8 suffix Hs).
  - apply (digits_from_acc d 9 suffix Hs).
Qed.

(** A printed number opens with a digit. *)
Lemma of_Z_head (n : Z) :
  exists c rest, of_Z n = c :: rest /\ is_digit c = true.
Proof.
  unfold of_Z, NilZero.string_of_uint.
  destruct (N.to_uint (Z.to_N n)); cbn [NilEmpty.string_of_uint];
    rewrite ?js_String; eexists; eexists; split; reflexivity.
Qed.

(** Printing then parsing a non-negative integer gives it back,
    whatever non-digit text follows. *)
Lemma parseInt_of_Z (n : Z) (suffix : JsString) :
  0 <= n -> starts_with_digit suffix = false ->
  parseInt (of_Z n ++ suffix) = Some n.
Proof.
  intros Hn Hs.
  assert (Hv : digits_from 0 (of_Z n ++ suffix) = n).
  { unfold of_Z.
    rewrite <- (Z2N.id n Hn) at 2.
    rewrite <- (DecimalN.Unsigned.of_to (Z.to_N n)) at 2.
    unfold N.of_uint, NilZero.string_of_uint.
    destruct (N.to_uint (Z.to_N n)) eqn:E;
      try (rewrite <- E; apply digits_from_zero; exact Hs).
    change (js "0") with [48%N]. cbn [app digits_from].
    change (is_digit 48) with true. cbv iota.
    destruct suffix as [| c suffix]; simpl in *; [reflexivity |].
    rewrite Hs. reflexivity. }
  destruct (of_Z_head n) as [c [rest [E Hc]]].
  unfold parseInt, trimStart. rewrite E in *. cbn [app drop_while].
  destruct (digit_not_special c Hc) as (H1 & H2 & H3).
  rewrite H1, H2, H3, Hc. f_equal. exact Hv.
Qed.

End Numerals.

(* ===================================================================== *)
(** ** Requests and snapshots *)
(* ===================================================================== *)

Section SnapshotFacts.
Import Client Entries.


Lemma parseModelQuota_described (parseDate : JsString -> option Z)
      (now : nat -> Z) (config : ModelConfig) (quotaInfo : QuotaInfo)
      (n : nat) :
  described (fst (parseModelQuota parseDate now config quotaInfo n))
  = expected (config, quotaInfo).
Proof.
  unfold parseModelQuota, bind, ret, described, expected.
  destruct (noCountdown (qi_resetTime quotaInfo));
    [| destruct (parseDate _)]; unfold Date_now; reflexivity.
Qed.

Lemma parseModels_described (parseDate : JsString -> option Z)
      (now : nat -> Z) (configs : list ModelConfig) : forall n,
  List.map described (fst (parseModels parseDate now configs n))
  = List.map expected (withQuota configs).
Proof.
  induction configs as [| config configs IH]; intros n; [reflexivity |].
  cbn [parseModels withQuota].
  destruct (mc_quotaInfo config) as [quotaInfo |]; [| apply IH].
  unfold bind at 1.
  pose proof (parseModelQuota_described parseDate now config quotaInfo n)
    as Hm.
  destruct (parseModelQuota parseDate now config quotaInfo n) as [m n1].
  unfold bind, ret. specialize (IH n1).
  destruct (parseModels parseDate now configs n1) as [ms n2].
  cbn [fst List.map] in *. rewrite Hm, IH. reflexivity.
Qed.

(** X7.  [parseGetUserStatusResponse] fails, with "Invalid response
    format", exactly when the response or its [userStatus] is missing.
    Otherwise the snapshot has one entry for each model configuration
    that carries [quotaInfo], in the order of the response, with that
    configuration's label, model id and remaining fraction, flagged
    exhausted exactly when the fraction is absent or zero;
    configurations without [quotaInfo] leave no trace, and the plan
    name is the user tier's name. *)
Theorem X7_snapshot_entries (parseDate : JsString -> option Z)
        (now : nat -> Z) (response : option Response) :
  match parseGetUserStatusResponse parseDate now response with
  | inl error =>
      error = mkError (js "Invalid response format") None
      /\ (response = None
          \/ exists r, response = Some r /\ r_userStatus r = None)
  | inr snapshot =>
      exists r userStatus,
        response = Some r /\ r_userStatus r = Some userStatus
        /\ List.map described (models snapshot)
           = List.map expected
               (withQuota (match us_clientModelConfigs userStatus with
                           | Some configs => configs
                           | None => []
                           end))
        /\ planName snapshot = us_userTierName userStatus
  end.
Proof.
  unfold parseGetUserStatusResponse.
  destruct response as [r |]; [| split; auto].
  destruct (r_userStatus r) as [userStatus |] eqn:E.
  - pose proof (parseModels_described parseDate now
                  (match us_clientModelConfigs userStatus with
                   | Some cs => cs
                   | None => []
                   end) O) as H.
    destruct (parseModels parseDate now _ O) as [ms n].
    exists r, userStatus. cbn [models planName fst] in *. auto.
  - split; [reflexivity |]. right. exists r. auto.
Qed.

Lemma js_app_head (a b : JsString) (c : N) (rest : JsString) :
  a = c :: rest -> a ++ b = c :: (rest ++ b).
Proof. intros ->. reflexivity. Qed.

(** A printed number is never the word "Expired". *)
Lemma of_Z_not_Expired (n : Z) (suffix : JsString) :
  of_Z n ++ suffix <> js "Expired".
Proof.
  destruct (of_Z_head n) as [c [rest [E Hc]]].
  rewrite (js_app_head _ suffix c rest E).
  intros H. injection H as Hc' _. subst c. discriminate.
Qed.

Lemma formatTimeUntilReset_Expired (ms : Z) :
  formatTimeUntilReset ms = js "Expired" <-> ms <= 0.
Proof.
  unfold formatTimeUntilReset. destruct (ms <=? 0) eqn:E.
  - apply Z.leb_le in E. tauto.
  - apply Z.leb_gt in E. split; [| lia].
    intros H. exfalso.
    destruct (ms / 1000 / 60 / 60 / 24 >? 0);
      [| destruct (ms / 1000 / 60 / 60 >? 0);
         [| destruct (ms / 1000 / 60 >? 0)]];
      apply of_Z_not_Expired in H; exact H.
Qed.

(** X8.  [formatTimeUntilReset] says "Expired" exactly for durations
    that are not positive.  A positive duration is shown in its two
    largest units, rounded down: days and hours from one day on, hours
    and minutes from one hour on, minutes and seconds from one minute
    on, and whole seconds below that. *)
Theorem X8_formatTimeUntilReset (ms : Z) :
  (formatTimeUntilReset ms = js "Expired" <-> ms <= 0)
  /\ (0 < ms < 60000 ->
      exists s,
        formatTimeUntilReset ms = of_Z s ++ js "s from now"
        /\ 1000 * s <= ms < 1000 * (s + 1))
  /\ (60000 <= ms < 3600000 ->
      exists m s,
        formatTimeUntilReset ms
        = of_Z m ++ js "m " ++ of_Z s ++ js "s from now"
        /\ 0 <= s < 60 /\ 1 <= m
        /\ 1000 * (60 * m + s) <= ms < 1000 * (60 * m + s + 1))
  /\ (3600000 <= ms < 86400000 ->
      exists h m,
        formatTimeUntilReset ms
        = of_Z h ++ js "h " ++ of_Z m ++ js "m from now"
        /\ 0 <= m < 60 /\ 1 <= h
        /\ 60000 * (60 * h + m) <= ms < 60000 * (60 * h + m + 1))
  /\ (86400000 <= ms ->
      exists d h,
        formatTimeUntilReset ms
        = of_Z d ++ js "d" ++ of_Z h ++ js "h from now"
        /\ 0 <= h < 24 /\ 1 <= d
        /\ 3600000 * (24 * d + h) <= ms < 3600000 * (24 * d + h + 1)).
Proof.
  split; [apply formatTimeUntilReset_Expired |].
  unfold formatTimeUntilReset.
  split; [| split; [| split]].
  - intros H.
    assert (E0 : (ms <=? 0) = false) by (apply Z.leb_gt; lia).
    assert (E1 : (ms / 1000 / 60 / 60 / 24 >? 0) = false)
      by (rewrite Z.gtb_ltb; apply Z.ltb_ge;
          Z.to_euclidean_division_equations; lia).
    assert (E2 : (ms / 1000 / 60 / 60 >? 0) = false)
      by (rewrite Z.gtb_ltb; apply Z.ltb_ge;
          Z.to_euclidean_division_equations; lia).
    assert (E3 : (ms / 1000 / 60 >? 0) = false)
      by (rewrite Z.gtb_ltb; apply Z.ltb_ge;
          Z.to_euclidean_division_equations; lia).
    rewrite E0, E1, E2, E3. exists (ms / 1000).
    split; [reflexivity | Z.to_euclidean_division_equations; lia].
  - intros H.
    assert (E0 : (ms <=? 0) = false) by (apply Z.leb_gt; lia).
    assert (E1 : (ms / 1000 / 60 / 60 / 24 >? 0) = false)
      by (rewrite Z.gtb_ltb; apply Z.ltb_ge;
          Z.to_euclidean_division_equations; lia).
    assert (E2 : (ms / 1000 / 60 / 60 >? 0) = false)
      by (rewrite Z.gtb_ltb; apply Z.ltb_ge;
          Z.to_euclidean_division_equations; lia).
    assert (E3 : (ms / 1000 / 60 >? 0) = true)
      by (rewrite Z.gtb_ltb; apply Z.ltb_lt;
          Z.to_euclidean_division_equations; lia).
    rewrite E0, E1, E2, E3.
    exists (ms / 1000 / 60), ((ms / 1000) mod 60).
    split; [reflexivity | Z.to_euclidean_division_equations; lia].
  - intros H.
    assert (E0 : (ms <=? 0) = false) by (apply Z.leb_gt; lia).
    assert (E1 : (ms / 1000 / 60 / 60 / 24 >? 0) = false)
      by (rewrite Z.gtb_ltb; apply Z.ltb_ge;
          Z.to_euclidean_division_equations; lia).
    assert (E2 : (ms / 1000 / 60 / 60 >? 0) = true)
      by (rewrite Z.gtb_ltb; apply Z.ltb_lt;
          Z.to_euclidean_division_equations; lia).
    rewrite E0, E1, E2.
    exists (ms / 1000 / 60 / 60), ((ms / 1000 / 60) mod 60).
    split; [reflexivity | Z.to_euclidean_division_equations; lia].
  - intros H.
    assert (E0 : (ms <=? 0) = false) by (apply Z.leb_gt; lia).
    assert (E1 : (ms / 1000 / 60 / 60 / 24 >? 0) = true)
      by (rewrite Z.gtb_ltb; apply Z.ltb_lt;
          Z.to_euclidean_division_equations; lia).
    rewrite E0, E1.
    exists (ms / 1000 / 60 / 60 / 24), ((ms / 1000 / 60 / 60) mod 24).
    split; [reflexivity | Z.to_euclidean_division_equations; lia].
Qed.

(** X9.  A reset time that parses as a date is used as it is: the
    entry's reset date is that date and [timeUntilReset] is its distance
    from the clock reading, so that a reset date that is not in the
    future is shown as "Expired", and only such a date is. *)
Theorem X9_parsed_reset_time (parseDate : JsString -> option Z)
        (now : nat -> Z) (config : ModelConfig) (quotaInfo : QuotaInfo)
        (n : nat) (s : JsString) (t : Z) :
  qi_resetTime quotaInfo = Some s ->
  s <> [] -> s <> js "infinite" -> parseDate s = Some t ->
  let m := fst (parseModelQuota parseDate now config quotaInfo n) in
  resetTime m = t
  /\ timeUntilReset m = t - now n
  /\ (timeUntilResetFormatted m = js "Expired" <-> t <= now n).
Proof.
  intros Hs Hne Hinf Hp. cbv zeta.
  unfold parseModelQuota, bind, ret. rewrite Hs.
  assert (Hn : noCountdown (Some s) = false).
  { simpl. destruct s as [| c s']; [congruence |]. simpl.
    destruct (str_eqb (c :: s') (js "infinite")) eqn:E; [| reflexivity].
    apply str_eqb_eq in E. congruence. }
  rewrite Hn, Hp. unfold Date_now.
  cbn [fst snd resetTime timeUntilReset timeUntilResetFormatted].
  split; [reflexivity | split; [reflexivity |]].
  rewrite formatTimeUntilReset_Expired. lia.
Qed.

End SnapshotFacts.

(* ===================================================================== *)
(** ** Detection runs *)
(* ===================================================================== *)

Section EffortFacts.
Import Detector Effort.

Variable execProcessList : Platform -> nat -> JsString + JsString.
Variable parseProcessInfo : Platform -> JsString -> option ProcessInfo.
Variable getProcessListeningPorts : nat -> Z -> list Z.
Variable testPortConnectivity : nat -> Z -> JsString -> bool.

Lemma findWorkingPort_first (k : nat) (token : JsString)
      (ports : list Z) (p : Z) :
  findWorkingPort testPortConnectivity k ports token = Some p ->
  exists before after,
    ports = before ++ p :: after
    /\ testPortConnectivity k p token = true
    /\ forall q, In q before -> testPortConnectivity k q token = false.
Proof.
  induction ports as [| port ports IH]; simpl; [discriminate |].
  destruct (testPortConnectivity k port token) eqn:E.
  - intros H. injection H as <-. exists [], ports. simpl. tauto.
  - intros H. destruct (IH H) as [before [after [-> [Hp Hb]]]].
    exists (port :: before), after. simpl. repeat split; auto.
    intros q [<- | Hq]; auto.
Qed.

Lemma findWorkingPort_none (k : nat) (token : JsString) (ports : list Z) :
  findWorkingPort testPortConnectivity k ports token = None
  <-> forall q, In q ports -> testPortConnectivity k q token = false.
Proof.
  induction ports as [| port ports IH]; simpl.
  - split; [intros _ q [] | reflexivity].
  - destruct (testPortConnectivity k port token) eqn:E.
    + split; [discriminate |]. intros H.
      rewrite (H port) in E by (now left). discriminate.
    + rewrite IH. split.
      * intros H q [<- | Hq]; auto.
      * intros H q Hq. apply H. now right.
Qed.

Lemma ascending_after (before : list Z) (p : Z) (after : list Z) :
  StronglySorted Z.lt (before ++ p :: after) ->
  Forall (fun q => p < q) after.
Proof.
  induction before as [| b before IH]; simpl; intros H;
    inversion H; subst; auto.
Qed.

(** X10.  [findWorkingPort] probes the candidate ports in order and
    returns the first that answers: none exactly when no port answers,
    and, on the ascending lists the port parsers produce, the lowest
    port that answers. *)
Theorem X10_lowest_working_port (k : nat) (token : JsString) :
  (forall ports,
     findWorkingPort testPortConnectivity k ports token = None
     <-> forall q, In q ports -> testPortConnectivity k q token = false)
  /\ (forall ports p,
        findWorkingPort testPortConnectivity k ports token = Some p ->
        exists before after,
          ports = before ++ p :: after
          /\ testPortConnectivity k p token = true
          /\ forall q, In q before ->
                       testPortConnectivity k q token = false)
  /\ (forall stdout p q,
        findWorkingPort testPortConnectivity k
                        (Unix.parseListeningPorts stdout) token = Some p ->
        In q (Unix.parseListeningPorts stdout) ->
        testPortConnectivity k q token = true -> p <= q)
  /\ (forall stdout p q,
        findWorkingPort testPortConnectivity k
                        (Windows.parseListeningPorts stdout) token = Some p ->
        In q (Windows.parseListeningPorts stdout) ->
        testPortConnectivity k q token = true -> p <= q).
Proof.
  assert (Hleast : forall ports p q,
             StronglySorted Z.lt ports ->
             findWorkingPort testPortConnectivity k ports token = Some p ->
             In q ports -> testPortConnectivity k q token = true -> p <= q).
  { intros ports p q Hs Hf Hq Ht.
    destruct (findWorkingPort_first k token ports p Hf)
      as [before [after [-> [Hp Hb]]]].
    apply in_app_iff in Hq as [Hq | [<- | Hq]].
    - rewrite (Hb q Hq) in Ht. discriminate.
    - lia.
    - apply ascending_after in Hs.
      rewrite Forall_forall in Hs. specialize (Hs q Hq). lia. }
  split; [| split; [| split]].
  - intros ports. apply findWorkingPort_none.
  - intros ports p. apply findWorkingPort_first.
  - intros stdout p q. apply Hleast.
    unfold Unix.parseListeningPorts.
    destruct (negb (truthy (trim stdout)));
      [constructor | apply parse_lines_ascending].
  - intros stdout p q. apply Hleast. apply parse_matches_ascending.
Qed.

Lemma tries_app (a b : list Event) :
  tries (a ++ b) = (tries a + tries b)%nat.
Proof. unfold tries. rewrite filter_app, length_app. reflexivity. Qed.

Lemma waits_app (a b : list Event) :
  waits (a ++ b) = (waits a + waits b)%nat.
Proof. unfold waits. rewrite filter_app, length_app. reflexivity. Qed.

Lemma endsWithTry_after (a es : list Event) :
  endsWithTry es -> endsWithTry (a ++ es).
Proof.
  intros [before [attempt [p ->]]]. exists (a ++ before), attempt, p.
  apply app_assoc.
Qed.

(** The cost of the loop from a given value of [attempt]. *)
Lemma loop_effort (maxRetries : nat) (retryDelay : Z) (attempt : nat)
      (p : Platform) (k : nat) :
  let r := loop execProcessList parseProcessInfo getProcessListeningPorts
                testPortConnectivity maxRetries retryDelay attempt p k in
  (tries (events r)
   <= (S maxRetries - attempt) + switches (events r))%nat
  /\ (waits (events r) <= maxRetries - attempt)%nat
  /\ ((maxRetries < attempt)%nat -> events r = [] /\ result r = None)
  /\ ((attempt <= maxRetries)%nat -> endsWithTry (events r))
  /\ (result r = None ->
      tries (events r)
      = ((S maxRetries - attempt) + switches (events r))%nat
      /\ waits (events r) = (maxRetries - attempt)%nat).
Proof.
  cbv zeta.
  funelim (loop execProcessList parseProcessInfo getProcessListeningPorts
                testPortConnectivity maxRetries retryDelay attempt p k).
  - pose proof (proj1 (Nat.leb_gt _ _) e) as Hgt.
    cbn [events result].
    change (tries []) with O. change (waits []) with O.
    change (switches []) with O.
    split; [lia | split; [lia | split; [auto | split; [lia |]]]].
    intros _. lia.
  - pose proof (proj1 (Nat.leb_le _ _) inRange) as Hle.
    cbn [events result].
    change (tries [Tried attempt p]) with 1%nat.
    change (waits [Tried attempt p]) with O.
    change (switches [Tried attempt p]) with O.
    split; [lia | split; [lia | split; [lia | split; [| discriminate]]]].
    intros _. exists [], attempt, p. reflexivity.
  - pose proof (proj1 (Nat.leb_le _ _) inRange) as Hle.
    match goal with
    | IH : (tries _ <= _)%nat /\ _ |- _ =>
        destruct IH as (I1 & I2 & I3 & I4 & I5)
    end.
    cbn [andThen events result].
    rewrite tries_app, waits_app, switches_app.
    change (tries [Tried attempt p; Switched]) with 1%nat.
    change (waits [Tried attempt p; Switched]) with 0%nat.
    change (switches [Tried attempt p; Switched]) with 1%nat.
    split; [lia | split; [lia | split; [lia | split]]].
    + intros _. apply endsWithTry_after. apply I4. exact Hle.
    + intros Hn. destruct (I5 Hn) as [A B]. lia.
  - pose proof (proj1 (Nat.leb_le _ _) inRange) as Hle.
    match goal with
    | IH : (tries _ <= _)%nat /\ _ |- _ =>
        destruct IH as (I1 & I2 & I3 & I4 & I5)
    end.
    cbn [andThen events result].
    change (Tried attempt p :: waitIfMore maxRetries attempt retryDelay)
      with ([Tried attempt p] ++ waitIfMore maxRetries attempt retryDelay).
    rewrite !tries_app, !waits_app, !switches_app.
    change (tries [Tried attempt p]) with 1%nat.
    change (waits [Tried attempt p]) with 0%nat.
    change (switches [Tried attempt p]) with 0%nat.
    rewrite switches_wait.
    unfold waitIfMore in *.
    destruct (attempt <? maxRetries)%nat eqn:E.
    + apply Nat.ltb_lt in E.
      change (tries [Waited retryDelay]) with 0%nat.
      change (waits [Waited retryDelay]) with 1%nat.
      split; [lia | split; [lia | split; [lia | split]]].
      * intros _. rewrite <- app_assoc. do 2 apply endsWithTry_after.
        apply I4. lia.
      * intros Hn. destruct (I5 Hn) as [A B]. lia.
    + apply Nat.ltb_ge in E.
      change (tries []) with 0%nat. change (waits []) with 0%nat.
      destruct (I3 ltac:(lia)) as [Hev Hres].
      split; [lia | split; [lia | split; [lia | split]]].
      * intros _. rewrite Hev. exists [], attempt, p. reflexivity.
      * intros Hn. destruct (I5 Hn) as [A B]. lia.
Qed.

(** X11.  A detection run is bounded and ends on an attempt: it executes
    at most [maxRetries] listings plus the one that the tool switch
    repeats, sleeps at most [maxRetries - 1] times and never after its
    last listing; with [maxRetries = 0] it does nothing at all; and it
    gives up only after it has used every attempt. *)
Theorem X11_detection_effort (maxRetries : nat) (retryDelay : Z)
        (p : Platform) :
  let r := detectProcessInfo execProcessList parseProcessInfo
                             getProcessListeningPorts testPortConnectivity
                             maxRetries retryDelay p in
  (tries (events r) <= maxRetries + 1)%nat
  /\ (canSwitchToPowerShell p = false ->
      (tries (events r) <= maxRetries)%nat)
  /\ (waits (events r) <= maxRetries - 1)%nat
  /\ (events r = [] \/ endsWithTry (events r))
  /\ (maxRetries = O -> events r = [] /\ result r = None)
  /\ (result r = None ->
      tries (events r) = (maxRetries + switches (events r))%nat
      /\ waits (events r) = (maxRetries - 1)%nat).
Proof.
  cbv zeta. unfold detectProcessInfo.
  pose proof (loop_effort maxRetries retryDelay 1 p 0) as H.
  pose proof (loop_switches execProcessList parseProcessInfo
                getProcessListeningPorts testPortConnectivity
                maxRetries retryDelay 1 p 0) as Hs.
  cbv zeta in H, Hs.
  destruct H as (H1 & H2 & H3 & H4 & H5). destruct Hs as [Hs _].
  split; [| split; [| split; [| split; [| split]]]].
  - destruct (canSwitchToPowerShell p); lia.
  - intros Hc. rewrite Hc in Hs. lia.
  - lia.
  - destruct maxRetries as [| m].
    + left. apply H3. lia.
    + right. apply H4. lia.
  - intros ->. apply H3. lia.
  - intros Hn. destruct (H5 Hn) as [A B]. lia.
Qed.

(** What the [try] block returns was parsed, listened on and probed. *)
Lemma tryBlock_sound (p : Platform) (k : nat) (d : Detected) :
  tryBlock execProcessList parseProcessInfo getProcessListeningPorts
           testPortConnectivity p k = inr d ->
  exists stdout info,
    execProcessList p k = inr stdout
    /\ parseProcessInfo p stdout = Some info
    /\ d_extensionPort d = extensionPort info
    /\ d_csrfToken d = csrfToken info
    /\ In (d_connectPort d) (getProcessListeningPorts k (pid info))
    /\ testPortConnectivity k (d_connectPort d) (csrfToken info) = true
    /\ d_connectPort d <> 0.
Proof.
  unfold tryBlock.
  destruct (execProcessList p k) as [message | stdout]; [discriminate |].
  destruct (parseProcessInfo p stdout) as [info |] eqn:Ep; [| discriminate].
  destruct (getProcessListeningPorts k (pid info)) as [| port ports] eqn:El;
    [discriminate |].
  destruct (findWorkingPort testPortConnectivity k (port :: ports)
                            (csrfToken info)) as [c |] eqn:Ef;
    [| discriminate].
  destruct (c =? 0) eqn:Ez; [discriminate |].
  intros H. injection H as <-. exists stdout, info.
  apply Z.eqb_neq in Ez.
  destruct (findWorkingPort_first k (csrfToken info) (port :: ports) c Ef)
    as [before [after [E [Ht _]]]].
  cbn [d_extensionPort d_csrfToken d_connectPort].
  repeat split; auto.
  rewrite El, E. apply in_or_app. right. now left.
Qed.

Lemma loop_sound (maxRetries : nat) (retryDelay : Z) (attempt : nat)
      (p : Platform) (k : nat) (d : Detected) :
  result (loop execProcessList parseProcessInfo getProcessListeningPorts
               testPortConnectivity maxRetries retryDelay attempt p k)
  = Some d ->
  exists p' k',
    tryBlock execProcessList parseProcessInfo getProcessListeningPorts
             testPortConnectivity p' k' = inr d.
Proof.
  funelim (loop execProcessList parseProcessInfo getProcessListeningPorts
                testPortConnectivity maxRetries retryDelay attempt p k);
    cbn [result andThen]; intros Hr.
  - discriminate.
  - injection Hr as <-. exists p, k. assumption.
  - eauto.
  - eauto.
Qed.

(** X12.  Whatever [detectProcessInfo] returns was really found: some
    listing succeeded, the parser extracted the returned token and
    extension port from it, and the returned connect port is a non-zero
    port on which that process listens and which answered the probe
    with that token. *)
Theorem X12_detection_sound (maxRetries : nat) (retryDelay : Z)
        (p : Platform) (d : Detected) :
  result (detectProcessInfo execProcessList parseProcessInfo
                            getProcessListeningPorts testPortConnectivity
                            maxRetries retryDelay p) = Some d ->
  exists p' k stdout info,
    execProcessList p' k = inr stdout
    /\ parseProcessInfo p' stdout = Some info
    /\ d_extensionPort d = extensionPort info
    /\ d_csrfToken d = csrfToken info
    /\ In (d_connectPort d) (getProcessListeningPorts k (pid info))
    /\ testPortConnectivity k (d_connectPort d) (csrfToken info) = true
    /\ d_connectPort d <> 0.
Proof.
  unfold detectProcessInfo. intros H.
  apply loop_sound in H as [p' [k' H]].
  apply tryBlock_sound in H as [stdout [info H]].
  exists p', k', stdout, info. exact H.
Qed.

(** X13.  Under the legacy tool on Windows the failures of an attempt
    are not treated alike.  "Process not found" reads as a missing tool
    (its text contains "not found"): the strategy switches to PowerShell
    and the attempt is repeated at once.  A process without listening
    ports, or with no port that answers, is an ordinary failure: the
    strategy stays and the attempt is used up. *)
Theorem X13_which_failures_switch (maxRetries : nat) (retryDelay : Z)
        (attempt k : nat) (stdout : JsString) :
  (attempt <= maxRetries)%nat ->
  execProcessList (Windows false) k = inr stdout ->
  (parseProcessInfo (Windows false) stdout = None ->
   loop execProcessList parseProcessInfo getProcessListeningPorts
        testPortConnectivity maxRetries retryDelay attempt (Windows false) k
   = andThen [Tried attempt (Windows false); Switched]
       (loop execProcessList parseProcessInfo getProcessListeningPorts
             testPortConnectivity maxRetries retryDelay attempt
             (Windows true) (S k)))
  /\ (forall info,
        parseProcessInfo (Windows false) stdout = Some info ->
        (forall port, In port (getProcessListeningPorts k (pid info)) ->
                      testPortConnectivity k port (csrfToken info) = false) ->
        loop execProcessList parseProcessInfo getProcessListeningPorts
             testPortConnectivity maxRetries retryDelay attempt
             (Windows false) k
        = andThen (Tried attempt (Windows false)
                   :: waitIfMore maxRetries attempt retryDelay)
            (loop execProcessList parseProcessInfo getProcessListeningPorts
                  testPortConnectivity maxRetries retryDelay (S attempt)
                  (Windows false) (S k))).
Proof.
  intros Hle Hexec. apply Nat.leb_le in Hle. split.
  - intros Hnone. rewrite loop_step, Hle. unfold tryBlock.
    rewrite Hexec, Hnone. reflexivity.
  - intros info Hinfo Hdead. rewrite loop_step, Hle. unfold tryBlock.
    rewrite Hexec, Hinfo.
    destruct (getProcessListeningPorts k (pid info)) as [| port ports] eqn:El;
      [reflexivity |].
    rewrite (proj2 (findWorkingPort_none k (csrfToken info) (port :: ports))
               Hdead).
    reflexivity.
Qed.

End EffortFacts.

(* ===================================================================== *)
(** ** What a listening-port line has to contain *)
(* ===================================================================== *)

Section ListenFacts.

Import Text.

Lemma startsWith_app (n post : JsString) : startsWith n (n ++ post) = true.
Proof.
  induction n as [| c n IH]; [reflexivity |].
  cbn [startsWith app]. rewrite N.eqb_refl. exact IH.
Qed.

Lemma occurs_includes (n s : JsString) : occurs n s -> includes n s = true.
Proof.
  intros [a [b ->]]. induction a as [| c a IH].
  - destruct (n ++ b) eqn:E; cbn [app includes]; rewrite <- ?E;
      rewrite startsWith_app; reflexivity.
  - cbn [app includes]. rewrite IH. apply Bool.orb_true_r.
Qed.

Lemma includes_occurs (n s : JsString) : includes n s = true -> occurs n s.
Proof.
  assert (Hs : forall n s, startsWith n s = true -> exists b, s = n ++ b).
  { clear. induction n as [| c n IH]; intros s H.
    - exists s. reflexivity.
    - destruct s as [| d s]; [discriminate |]. cbn [startsWith] in H.
      apply Bool.andb_true_iff in H as [Hc H]. apply N.eqb_eq in Hc.
      subst d. destruct (IH _ H) as [b ->]. exists b. reflexivity. }
  induction s as [| c s IH]; cbn [includes]; intros H.
  - rewrite Bool.orb_false_r in H. apply Hs in H as [b ->].
    exists [], b. reflexivity.
  - apply Bool.orb_true_iff in H as [H | H].
    + apply Hs in H as [b ->]. exists [], b. reflexivity.
    + destruct (IH H) as [a [b ->]]. exists (c :: a), b. reflexivity.
Qed.

Lemma occurs_inside (n s pre post : JsString) :
  occurs n s -> occurs n (pre ++ s ++ post).
Proof.
  intros [a [b ->]]. exists (pre ++ a), (b ++ post).
  rewrite <- !app_assoc. reflexivity.
Qed.

Lemma occurs_after (n s pre : JsString) : occurs n s -> occurs n (pre ++ s).
Proof.
  intros H. rewrite <- (app_nil_r s). apply occurs_inside. exact H.
Qed.

Lemma occurs_trans (n t s : JsString) : occurs n t -> occurs t s -> occurs n s.
Proof. intros Hn [a [b ->]]. apply occurs_inside. exact Hn. Qed.

(** A match only moves forward through the text. *)
Lemma run_consumes (r : regex) : forall st st',
  In st' (run r st) -> exists pre, rest st = pre ++ rest st'.
Proof.
  induction r as [| p | p | p | a IHa | a IHa b IHb | a IHa b IHb
                  | n a IHa |]; intros st st' H.
  - destruct H as [<- | []]. exists []. reflexivity.
  - cbn [run] in H. destruct (rest st) as [| c s]; [destruct H |].
    destruct (p c); [| destruct H]. destruct H as [<- | []].
    exists [c]. reflexivity.
  - cbn [run] in H. apply in_map_iff in H as [[pv r] [<- H]].
    apply star_run_spec in H as [pre [-> _]]. exists pre. reflexivity.
  - apply run_plus in H as [c [pre [-> _]]]. exists (c :: pre). reflexivity.
  - cbn [run] in H. apply in_app_iff in H as [H | [<- | []]].
    + apply IHa. exact H.
    + exists []. reflexivity.
  - apply run_seq in H as [mid [H1 H2]].
    destruct (IHa _ _ H1) as [p1 ->]. destruct (IHb _ _ H2) as [p2 ->].
    exists (p1 ++ p2). apply app_assoc.
  - apply run_alt in H as [H | H]; [apply IHa | apply IHb]; exact H.
  - cbn [run] in H. apply in_map_iff in H as [st1 [<- H]].
    destruct (IHa _ _ H) as [pre E]. exists pre. exact E.
  - cbn [run] in H.
    destruct (xorb _ _); [destruct H as [<- | []] | destruct H].
    exists []. reflexivity.
Qed.

Lemma run_lit (s : JsString) : forall st st',
  In st' (run (lit s) st) -> rest st = s ++ rest st'.
Proof.
  assert (Hc : forall c st st', In st' (run (Chr (unit_is c)) st) ->
                                rest st = c :: rest st').
  { intros c st st' H. cbn [run] in H.
    destruct (rest st) as [| d t]; [destruct H |].
    unfold unit_is in H. destruct (N.eqb_spec c d) as [-> |]; [| destruct H].
    destruct H as [<- | []]. reflexivity. }
  induction s as [| c s IH]; intros st st' H.
  - destruct H as [<- | []]. reflexivity.
  - destruct s as [| d s].
    + apply Hc in H. exact H.
    + change (lit (c :: d :: s))
        with (Seq (Chr (unit_is c)) (lit (d :: s))) in H.
      apply run_seq in H as [mid [H1 H2]].
      apply Hc in H1. apply IH in H2. rewrite H1, H2. reflexivity.
Qed.

Lemma run_lit_i (s : JsString) : forall st st',
  In st' (run (lit_i s) st) ->
  exists t, rest st = t ++ rest st' /\ toLowerCase t = toLowerCase s.
Proof.
  assert (Hc : forall c st st', In st' (run (Chr (unit_is_i c)) st) ->
                 exists d, rest st = d :: rest st'
                           /\ lower_unit d = lower_unit c).
  { intros c st st' H. cbn [run] in H.
    destruct (rest st) as [| d t]; [destruct H |].
    unfold unit_is_i in H.
    destruct (N.eqb_spec (lower_unit c) (lower_unit d)) as [E |];
      [| destruct H].
    destruct H as [<- | []]. exists d. auto. }
  induction s as [| c s IH]; intros st st' H.
  - destruct H as [<- | []]. exists []. auto.
  - destruct s as [| d s].
    + apply Hc in H as [x [Hr Hx]]. exists [x]. cbn. rewrite Hx. auto.
    + change (lit_i (c :: d :: s))
        with (Seq (Chr (unit_is_i c)) (lit_i (d :: s))) in H.
      apply run_seq in H as [mid [H1 H2]].
      apply Hc in H1 as [x [Hr Hx]]. apply IH in H2 as [t [Ht Hl]].
      exists (x :: t). rewrite Hr, Ht. split; [reflexivity |].
      unfold toLowerCase in *. cbn [List.map]. rewrite Hx, Hl. reflexivity.
Qed.

Lemma needs_lit (n s : JsString) : occurs n s -> needs n (lit s).
Proof.
  intros Ho st m H. apply run_lit in H. rewrite H.
  rewrite <- (app_nil_l (s ++ rest m)). apply occurs_inside. exact Ho.
Qed.

Lemma needs_seq_l (n : JsString) (a b : regex) :
  needs n a -> needs n (Seq a b).
Proof. intros Ha st m H. apply run_seq in H as [mid [H1 _]]. eauto. Qed.

Lemma needs_seq_r (n : JsString) (a b : regex) :
  needs n b -> needs n (Seq a b).
Proof.
  intros Hb st m H. apply run_seq in H as [mid [H1 H2]].
  apply run_consumes in H1 as [pre ->]. apply occurs_after. eauto.
Qed.

Lemma needs_alt (n : JsString) (a b : regex) :
  needs n a -> needs n b -> needs n (Alt a b).
Proof. intros Ha Hb st m H. apply run_alt in H as [H | H]; eauto. Qed.

Lemma needs_i_lit (s : JsString) : needs_i (toLowerCase s) (lit_i s).
Proof.
  intros st m H. apply run_lit_i in H as [t [Hr Hl]].
  exists t. split; [exact Hl |]. exists [], (rest m). exact Hr.
Qed.

Lemma needs_i_seq_r (n : JsString) (a b : regex) :
  needs_i n b -> needs_i n (Seq a b).
Proof.
  intros Hb st m H. apply run_seq in H as [mid [H1 H2]].
  apply run_consumes in H1 as [pre ->].
  destruct (Hb _ _ H2) as [t [Ht Ho]]. exists t. split; [exact Ht |].
  apply occurs_after. exact Ho.
Qed.

(** The leftmost match starts somewhere inside the text searched. *)
Lemma search_from_inside (r : regex) (s : JsString) : forall pv m,
  search_from r pv s = Some m ->
  exists pre pv' s', s = pre ++ s' /\ In m (run r (mkM pv' s' [])).
Proof.
  induction s as [| c s IH]; intros pv m H; cbn [search_from] in H.
  - destruct (run r (mkM pv [] [])) as [| m0 ms] eqn:E; [discriminate |].
    injection H as <-. exists [], pv, []. rewrite E. split; [auto | now left].
  - destruct (run r (mkM pv (c :: s) [])) as [| m0 ms] eqn:E.
    + apply IH in H as [pre [pv' [s' [-> H]]]].
      exists (c :: pre), pv', s'. auto.
    + injection H as <-. exists [], pv, (c :: s). rewrite E.
      split; [auto | now left].
Qed.

Lemma exec_all_inside (r : regex) (s : JsString) : forall pv k m,
  In m (exec_all r pv s k) ->
  exists pre pv' s', s = pre ++ s' /\ In m (run r (mkM pv' s' [])).
Proof.
  induction s as [| c s IH]; intros pv k m H; destruct k as [| k];
    cbn [exec_all] in H.
  - destruct (run r (mkM pv [] [])) as [| m0 ms] eqn:E; [destruct H |].
    destruct H as [<- | []]. exists [], pv, []. rewrite E.
    split; [auto | now left].
  - destruct H.
  - destruct (run r (mkM pv (c :: s) [])) as [| m0 ms] eqn:E.
    + apply IH in H as [pre [pv' [s' [-> H]]]].
      exists (c :: pre), pv', s'. auto.
    + destruct H as [<- | H].
      * exists [], pv, (c :: s). rewrite E. split; [auto | now left].
      * apply IH in H as [pre [pv' [s' [-> H]]]].
        exists (c :: pre), pv', s'. auto.
  - apply IH in H as [pre [pv' [s' [-> H]]]].
    exists (c :: pre), pv', s'. auto.
Qed.

Lemma rmatch_needs (n : JsString) (r : regex) (s : JsString) (m : MState) :
  needs n r -> rmatch r s = Some m -> occurs n s.
Proof.
  intros Hn H. apply search_from_inside in H as [pre [pv [s' [-> H]]]].
  apply occurs_after. apply (Hn _ _ H).
Qed.

Lemma lsof_needs :
  needs (js "LISTEN") Unix.re_lsof /\ needs (js "127.0.0.1:") Unix.re_lsof.
Proof.
  split; unfold Unix.re_lsof.
  - do 3 apply needs_seq_r. apply needs_lit.
    exists (js "("), (js ")"). reflexivity.
  - apply needs_seq_l. apply needs_lit. exists [], []. reflexivity.
Qed.

Lemma netstat_needs :
  needs (js "LISTEN") Unix.re_netstat
  /\ needs (js "127.0.0.1:") Unix.re_netstat.
Proof.
  split; unfold Unix.re_netstat.
  - do 3 apply needs_seq_r. apply needs_lit. exists [], []. reflexivity.
  - apply needs_seq_l. apply needs_lit. exists [], []. reflexivity.
Qed.

Lemma localhost_needs :
  needs (js "LISTEN") Unix.re_localhost
  /\ needs (js "localhost:") Unix.re_localhost.
Proof.
  split; unfold Unix.re_localhost; apply needs_alt.
  - do 3 apply needs_seq_r. apply needs_lit.
    exists (js "("), (js ")"). reflexivity.
  - do 3 apply needs_seq_r. apply needs_lit. exists [], []. reflexivity.
  - apply needs_seq_l. apply needs_lit. exists [], []. reflexivity.
  - apply needs_seq_l. apply needs_lit. exists [], []. reflexivity.
Qed.

Lemma ss_needs : needs (js "LISTEN") Unix.re_ss.
Proof.
  unfold Unix.re_ss. apply needs_seq_l. apply needs_lit.
  exists [], []. reflexivity.
Qed.

(** The [ss] layout: a loopback or wildcard address right before the
    colon. *)
Lemma ss_address (st m : MState) :
  In m (run Unix.re_ss st) ->
  occurs (js "127.0.0.1:") (rest st) \/ occurs (js "*:") (rest st).
Proof.
  unfold Unix.re_ss. intros H.
  do 6 (apply run_seq in H as [? [Hpre H]];
        apply run_consumes in Hpre as [? ->]).
  apply run_seq in H as [mid [Ha H]].
  apply run_seq in H as [mid' [Hc _]].
  apply run_lit in Hc.
  apply run_alt in Ha as [Ha | Ha]; apply run_lit in Ha; rewrite Ha, Hc;
    [left | right]; do 6 apply occurs_after;
    exists [], (rest mid'); reflexivity.
Qed.

(** A line that yields a port names a listening socket on a loopback or
    wildcard address. *)
Lemma line_match_listen (line : JsString) (m : MState) :
  Unix.line_match line = Some m ->
  occurs (js "LISTEN") line
  /\ (occurs (js "127.0.0.1:") line \/ occurs (js "localhost:") line
      \/ occurs (js "*:") line).
Proof.
  unfold Unix.line_match. intros H.
  destruct (rmatch Unix.re_lsof line) as [m1 |] eqn:E1.
  { split; [| left]; eapply rmatch_needs; try exact E1; apply lsof_needs. }
  destruct (rmatch Unix.re_ss line) as [m2 |] eqn:E2.
  { split; [eapply rmatch_needs; [apply ss_needs | exact E2] |].
    apply search_from_inside in E2 as [pre [pv [s' [-> E2]]]].
    apply ss_address in E2 as [E2 | E2]; [left | right; right];
      apply occurs_after; exact E2. }
  destruct (rmatch Unix.re_netstat line) as [m3 |] eqn:E3.
  { split; [| left]; eapply rmatch_needs; try exact E3; apply netstat_needs. }
  split; [| right; left]; eapply rmatch_needs; try exact H;
    apply localhost_needs.
Qed.

Lemma split_unit_head (sep : N) (s : JsString) : forall w ws,
  split_unit sep s = w :: ws -> exists b, s = w ++ b.
Proof.
  induction s as [| c s IH]; intros w ws H; cbn [split_unit] in H.
  - injection H as <- _. exists []. reflexivity.
  - destruct (N.eqb c sep).
    + injection H as <- _. exists (c :: s). reflexivity.
    + destruct (split_unit sep s) as [| w' ws'].
      * injection H as <- _. exists s. reflexivity.
      * injection H as <- _. destruct (IH _ _ eq_refl) as [b ->].
        exists b. reflexivity.
Qed.

(** Every piece of a split is part of the text. *)
Lemma split_unit_occurs (sep : N) (s : JsString) : forall line,
  In line (split_unit sep s) -> occurs line s.
Proof.
  induction s as [| c s IH]; intros line H.
  - destruct H as [<- | []]. exists [], []. reflexivity.
  - destruct (split_unit sep (c :: s)) as [| w ws] eqn:E; [destruct H |].
    destruct H as [<- | H].
    + apply split_unit_head in E as [b ->]. exists [], b. reflexivity.
    + apply (occurs_after _ _ [c]). apply IH.
      cbn [split_unit] in E. destruct (N.eqb c sep).
      * injection E as _ <-. exact H.
      * destruct (split_unit sep s) as [| w' ws'].
        -- injection E as _ <-. destruct H.
        -- injection E as _ <-. now right.
Qed.

Lemma drop_while_suffix (p : N -> bool) (s : JsString) :
  exists pre, s = pre ++ drop_while p s.
Proof.
  induction s as [| c s [pre IH]]; [exists []; reflexivity |].
  cbn [drop_while]. destruct (p c).
  - exists (c :: pre). cbn [app]. rewrite <- IH. reflexivity.
  - exists []. reflexivity.
Qed.

Lemma trim_occurs (s : JsString) : occurs (trim s) s.
Proof.
  unfold trim, trimEnd, trimStart.
  destruct (drop_while_suffix is_space s) as [pre Hs].
  destruct (drop_while_suffix is_space (rev (drop_while is_space s)))
    as [post Ht].
  exists pre, (rev post). rewrite <- rev_app_distr, <- Ht, rev_involutive.
  exact Hs.
Qed.

Lemma toLowerCase_occurs (t s : JsString) :
  occurs t s -> occurs (toLowerCase t) (toLowerCase s).
Proof.
  intros [a [b ->]]. exists (toLowerCase a), (toLowerCase b).
  unfold toLowerCase. rewrite !map_app. reflexivity.
Qed.

Lemma portRegex_needs : needs_i (js "listening") Windows.portRegex.
Proof.
  unfold Windows.portRegex. do 6 apply needs_i_seq_r.
  exact (needs_i_lit (js "LISTENING")).
Qed.

(** X14.  The port parsers only count listening sockets.  A port that
    the Unix parser returns comes from a line that contains [LISTEN] and
    one of the addresses [127.0.0.1:], [localhost:] or [*:]; output that
    does not contain [LISTEN] at all gives no port.  The Windows parser
    gives no port either when its input nowhere says [LISTENING], in
    any letter case. *)
Theorem X14_listening_sockets_only :
  (forall stdout p,
     In p (Unix.parseListeningPorts stdout) ->
     exists line,
       In line (split_unit 10 (trim stdout))
       /\ Unix.linePort line = Some p
       /\ includes (js "LISTEN") line = true
       /\ (includes (js "127.0.0.1:") line
           || includes (js "localhost:") line
           || includes (js "*:") line)%bool = true)
  /\ (forall stdout,
        includes (js "LISTEN") stdout = false ->
        Unix.parseListeningPorts stdout = [])
  /\ (forall stdout,
        includes (js "listening") (toLowerCase stdout) = false ->
        Windows.parseListeningPorts stdout = []).
Proof.
  assert (U : forall stdout p,
     In p (Unix.parseListeningPorts stdout) ->
     exists line,
       In line (split_unit 10 (trim stdout))
       /\ Unix.linePort line = Some p
       /\ includes (js "LISTEN") line = true
       /\ (includes (js "127.0.0.1:") line
           || includes (js "localhost:") line
           || includes (js "*:") line)%bool = true).
  { intros stdout p H. unfold Unix.parseListeningPorts in H.
    destruct (negb (truthy (trim stdout))); [destruct H |].
    apply In_parse_lines in H as [line [Hin Hp]].
    exists line. split; [exact Hin | split; [exact Hp |]].
    unfold Unix.linePort in Hp.
    destruct (Unix.line_match line) as [m |] eqn:E; [| discriminate].
    apply line_match_listen in E as [Hl Ha].
    split; [apply occurs_includes; exact Hl |].
    destruct Ha as [Ha | [Ha | Ha]]; apply occurs_includes in Ha;
      rewrite Ha; rewrite ?Bool.orb_true_r; reflexivity. }
  split; [exact U | split].
  - intros stdout Hno.
    destruct (Unix.parseListeningPorts stdout) as [| p ps] eqn:E;
      [reflexivity |].
    destruct (U stdout p) as [line [Hin [_ [Hl _]]]];
      [rewrite E; now left |].
    apply includes_occurs in Hl. apply split_unit_occurs in Hin.
    pose proof (occurs_trans _ _ _ (occurs_trans _ _ _ Hl Hin)
                             (trim_occurs stdout)) as Ho.
    apply occurs_includes in Ho. congruence.
  - intros stdout Hno. unfold Windows.parseListeningPorts.
    destruct (exec_all Windows.portRegex None stdout 0) as [| m ms] eqn:E;
      [reflexivity |].
    assert (Hin : In m (exec_all Windows.portRegex None stdout 0))
      by (rewrite E; now left).
    apply exec_all_inside in Hin as [pre [pv [s' [-> Hin]]]].
    apply portRegex_needs in Hin as [t [Ht Ho]]. cbn [rest] in Ho.
    apply (occurs_after _ _ pre) in Ho. apply toLowerCase_occurs in Ho.
    rewrite Ht in Ho. apply occurs_includes in Ho. congruence.
Qed.

End ListenFacts.

(* ===================================================================== *)
(** ** The values of the command-line flags *)
(* ===================================================================== *)

Section FlagFacts.
Import Text.

Lemma drop_while_split (p : N -> bool) (s : JsString) :
  exists pre, s = pre ++ drop_while p s
              /\ Forall (fun c => p c = true) pre
              /\ ends p (drop_while p s).
Proof.
  induction s as [| c s [pre (E & F & G)]].
  - exists []. cbn. auto.
  - cbn [drop_while]. destruct (p c) eqn:Ec.
    + exists (c :: pre). cbn [app]. rewrite <- E. auto.
    + exists []. cbn. auto.
Qed.

(** The places where a greedy run can stop: the end of the run first,
    then places that are still inside it. *)
Lemma star_run_shape (p : N -> bool) (s : JsString) : forall pv,
  exists pv0 tl,
    star_run p pv s = (pv0, drop_while p s) :: tl
    /\ forall e, In e tl -> exists c r, snd e = c :: r /\ p c = true.
Proof.
  induction s as [| c s IH]; intros pv; cbn [star_run drop_while].
  - exists pv, []. split; [reflexivity | intros e []].
  - destruct (p c) eqn:Ec.
    + destruct (IH (Some c)) as [pv0 [tl [E H]]]. rewrite E.
      exists pv0, (tl ++ [(pv, c :: s)]). split; [reflexivity |].
      intros e He. apply in_app_iff in He as [He | [<- | []]].
      * apply H. exact He.
      * exists c, s. auto.
    + exists pv, []. split; [reflexivity | intros e []].
Qed.

Lemma flat_map_nil {A B} (f : A -> list B) (l : list A) :
  (forall x, In x l -> f x = []) -> flat_map f l = [].
Proof.
  induction l as [| x l IH]; intros H; [reflexivity |].
  cbn [flat_map]. rewrite (H x) by now left.
  apply IH. intros y Hy. apply H. now right.
Qed.

(** A greedy run of [p] reports its longest match first. *)
Lemma run_plus_head (p : N -> bool) (st m : MState) (ms : list MState) :
  run (Plus p) st = m :: ms ->
  exists c s, rest st = c :: s /\ p c = true
              /\ rest m = drop_while p s /\ caps m = caps st
              /\ forall m', In m' ms ->
                            exists x r, rest m' = x :: r /\ p x = true.
Proof.
  cbn [run]. destruct (rest st) as [| c s]; [discriminate |].
  destruct (p c) eqn:Ec; [| discriminate].
  destruct (star_run_shape p s (Some c)) as [pv0 [tl [E H]]]. rewrite E.
  cbn [List.map fst snd]. intros Hm. injection Hm as <- <-.
  exists c, s. repeat split; auto.
  intros m' Hm'. apply in_map_iff in Hm' as [e [<- He]].
  apply H. exact He.
Qed.

(** Literal text matches in one way at most. *)
Lemma run_lit_single (s : JsString) : forall st,
  run (lit s) st = []
  \/ exists mid, run (lit s) st = [mid] /\ rest st = s ++ rest mid
                 /\ caps mid = caps st.
Proof.
  assert (Hc : forall c st,
             run (Chr (unit_is c)) st = []
             \/ exists mid, run (Chr (unit_is c)) st = [mid]
                            /\ rest st = c :: rest mid
                            /\ caps mid = caps st).
  { intros c st. cbn [run]. destruct (rest st) as [| d t]; [now left |].
    unfold unit_is. destruct (N.eqb_spec c d) as [-> |]; [| now left].
    right. eexists. split; [reflexivity |]. cbn. auto. }
  induction s as [| c s IH]; intros st.
  - right. exists st. cbn. auto.
  - destruct s as [| d s]; [apply Hc |].
    change (lit (c :: d :: s))
      with (Seq (Chr (unit_is c)) (lit (d :: s))).
    cbn [run]. fold (run (Chr (unit_is c)) st).
    destruct (Hc c st) as [E | [mid [E [Hr Hk]]]]; rewrite E; [now left |].
    cbn [flat_map]. rewrite app_nil_r.
    destruct (IH mid) as [E' | [mid' [E' [Hr' Hk']]]]; rewrite E';
      [now left |].
    right. exists mid'. split; [reflexivity |].
    rewrite Hr, Hr'. split; [reflexivity | congruence].
Qed.

Lemma run_lit_i_single (s : JsString) : forall st,
  run (lit_i s) st = []
  \/ exists mid flag, run (lit_i s) st = [mid]
                      /\ rest st = flag ++ rest mid
                      /\ toLowerCase flag = toLowerCase s
                      /\ caps mid = caps st.
Proof.
  assert (Hc : forall c st,
             run (Chr (unit_is_i c)) st = []
             \/ exists mid d, run (Chr (unit_is_i c)) st = [mid]
                              /\ rest st = d :: rest mid
                              /\ lower_unit d = lower_unit c
                              /\ caps mid = caps st).
  { intros c st. cbn [run]. destruct (rest st) as [| d t]; [now left |].
    unfold unit_is_i.
    destruct (N.eqb_spec (lower_unit c) (lower_unit d)) as [E |];
      [| now left].
    right. eexists _, d. split; [reflexivity |]. cbn. auto. }
  induction s as [| c s IH]; intros st.
  - right. exists st, []. cbn. auto.
  - destruct s as [| d s].
    + destruct (Hc c st) as [E | [mid [x [E [Hr [Hx Hk]]]]]]; [now left |].
      right. exists mid, [x]. cbn [lit_i]. rewrite E, Hr.
      unfold toLowerCase. cbn [List.map app]. rewrite Hx. auto.
    + change (lit_i (c :: d :: s))
        with (Seq (Chr (unit_is_i c)) (lit_i (d :: s))).
      cbn [run]. fold (run (Chr (unit_is_i c)) st).
      destruct (Hc c st) as [E | [mid [x [E [Hr [Hx Hk]]]]]]; rewrite E;
        [now left |].
      cbn [flat_map]. rewrite app_nil_r.
      destruct (IH mid) as [E' | [mid' [flag [E' [Hr' [Hl Hk']]]]]];
        rewrite E'; [now left |].
      right. exists mid', (x :: flag). split; [reflexivity |].
      rewrite Hr, Hr'. split; [reflexivity |].
      unfold toLowerCase in *. cbn [List.map]. rewrite Hx, Hl.
      split; [reflexivity | congruence].
Qed.

(** The first match of [flag, separators, (value)] read from a given
    place: the separators and the value are both read to their end. *)
Lemma flag_value_head (F : regex) (isFlag : JsString -> Prop)
      (p : N -> bool) (st m : MState) (ms : list MState) :
  (forall st0,
     run F st0 = []
     \/ exists mid flag, run F st0 = [mid] /\ rest st0 = flag ++ rest mid
                         /\ isFlag flag) ->
  (forall c, eq_or_space c = true -> p c = false) ->
  run (Seq F (Seq (Plus eq_or_space) (Grp 1 (Plus p)))) st = m :: ms ->
  exists flag seps value,
    rest st = flag ++ seps ++ value ++ rest m
    /\ cap 1 (caps m) = Some value
    /\ isFlag flag
    /\ seps <> [] /\ Forall (fun c => eq_or_space c = true) seps
    /\ value <> [] /\ Forall (fun c => p c = true) value
    /\ ends p (rest m).
Proof.
  intros HF Hdis.
  set (G := Grp 1 (Plus p)).
  change (run (Seq F (Seq (Plus eq_or_space) G)) st)
    with (flat_map (run (Seq (Plus eq_or_space) G)) (run F st)).
  destruct (HF st) as [E | [mid [flag [E [Hr Hflag]]]]]; rewrite E;
    [discriminate |].
  cbn [flat_map]. rewrite app_nil_r.
  change (run (Seq (Plus eq_or_space) G) mid)
    with (flat_map (run G) (run (Plus eq_or_space) mid)).
  destruct (run (Plus eq_or_space) mid) as [| m1 ms1] eqn:E1;
    [discriminate |].
  apply run_plus_head in E1 as [c [s [Hr1 [Hc [Hm1 [_ Htl]]]]]].
  cbn [flat_map].
  assert (Hnil : flat_map (run G) ms1 = []).
  { apply flat_map_nil. intros m' Hm'.
    destruct (Htl m' Hm') as [x [r [Hx Hpx]]].
    subst G. cbn [run]. rewrite Hx, (Hdis x Hpx). reflexivity. }
  rewrite Hnil, app_nil_r.
  change (run G m1)
    with (List.map
            (fun st' => mkM (prev st') (rest st')
                            ((1%nat, captured m1 st') :: caps st'))
            (run (Plus p) m1)).
  destruct (run (Plus p) m1) as [| m2 ms2] eqn:E2; [discriminate |].
  apply run_plus_head in E2 as [c2 [s2 [Hr2 [Hc2 [Hm2 _]]]]].
  cbn [List.map]. intros Hm. injection Hm as <- _.
  destruct (drop_while_split eq_or_space s) as [seps (Es & Fs & _)].
  destruct (drop_while_split p s2) as [val (Ev & Fv & Gv)].
  exists flag, (c :: seps), (c2 :: val).
  cbn [rest caps cap Nat.eqb].
  assert (Ecap : captured m1 m2 = c2 :: val).
  { unfold captured. rewrite Hr2, Hm2.
    assert (El : (List.length (c2 :: s2) - List.length (drop_while p s2)
                  = S (List.length val))%nat).
    { rewrite Ev at 1. cbn [List.length]. rewrite length_app. lia. }
    rewrite El. cbn [firstn]. f_equal.
    rewrite Ev at 1. rewrite firstn_app, firstn_all, Nat.sub_diag.
    cbn [firstn]. apply app_nil_r. }
  rewrite Ecap, Hm2.
  split.
  { rewrite Hr, Hr1. f_equal. cbn [app]. f_equal.
    etransitivity; [exact Es |]. f_equal.
    rewrite <- Hm1, Hr2. f_equal. exact Ev. }
  split; [reflexivity |]. split; [exact Hflag |].
  split; [discriminate |]. split; [constructor; assumption |].
  split; [discriminate |]. split; [constructor; assumption | exact Gv].
Qed.

(** The leftmost match is the first success at the place it starts. *)
Lemma search_from_head (r : regex) (s : JsString) : forall pv m,
  search_from r pv s = Some m ->
  exists pre pv' s' ms, s = pre ++ s' /\ run r (mkM pv' s' []) = m :: ms.
Proof.
  induction s as [| c s IH]; intros pv m H; cbn [search_from] in H.
  - destruct (run r (mkM pv [] [])) as [| m0 ms] eqn:E; [discriminate |].
    injection H as <-. exists [], pv, [], ms. auto.
  - destruct (run r (mkM pv (c :: s) [])) as [| m0 ms] eqn:E.
    + apply IH in H as [pre [pv' [s' [ms [-> H]]]]].
      exists (c :: pre), pv', s', ms. auto.
    + injection H as <-. exists [], pv, (c :: s), ms. auto.
Qed.

Lemma space_not_value (c : N) :
  eq_or_space c = true ->
  hex_or_dash_i c = false /\ is_digit c = false.
Proof.
  unfold eq_or_space, is_space, hex_or_dash_i, is_digit, lower_unit,
    is_upper, in_range.
  intros H.
  repeat match type of H with
         | (_ || _)%bool = true => apply Bool.orb_true_iff in H as [H | H]
         end;
    repeat match type of H with
           | (_ && _)%bool = true =>
               let H1 := fresh in apply Bool.andb_true_iff in H as [H H1];
               apply N.leb_le in H1
           end;
    try apply N.leb_le in H; try apply N.eqb_eq in H;
    (split;
     [ destruct (N.leb 65 c && N.leb c 90)%bool eqn:Eu;
       [ apply Bool.andb_true_iff in Eu as [Eu1 Eu2];
         apply N.leb_le in Eu1; apply N.leb_le in Eu2 |];
       repeat (apply Bool.orb_false_iff; split);
       try (apply Bool.andb_false_iff;
            first [ left; apply N.leb_gt; lia | right; apply N.leb_gt; lia ]);
       try (apply N.eqb_neq; lia)
     | apply Bool.andb_false_iff;
       first [ left; apply N.leb_gt; lia | right; apply N.leb_gt; lia ] ]).
Qed.

Lemma csrf_token_value (cmd : JsString) (tm : MState) :
  rmatch re_csrf_token cmd = Some tm ->
  exists t, cap 1 (caps tm) = Some t
            /\ valueOf (fun f => toLowerCase f = js "--csrf_token")
                       hex_or_dash_i cmd t.
Proof.
  intros H. apply search_from_head in H as [pre [pv [s' [ms [-> H]]]]].
  unfold re_csrf_token in H.
  apply (flag_value_head _ (fun f => toLowerCase f = js "--csrf_token"))
    in H.
  - destruct H as [flag [seps [value (Hr & Hc & Hf & H)]]]. cbn [rest] in Hr.
    exists value. split; [exact Hc |].
    exists pre, flag, seps, (rest tm). rewrite Hr. auto.
  - intros st0.
    destruct (run_lit_i_single (js "--csrf_token") st0)
      as [E | [mid [flag [E [Hr [Hl _]]]]]]; [now left |].
    right. exists mid, flag. auto.
  - intros c Hc. apply space_not_value. exact Hc.
Qed.

Lemma extension_port_value (cmd : JsString) (pm : MState) :
  rmatch re_extension_server_port cmd = Some pm ->
  exists d, cap 1 (caps pm) = Some d
            /\ valueOf (fun f => f = js "--extension_server_port")
                       is_digit cmd d.
Proof.
  intros H. apply search_from_head in H as [pre [pv [s' [ms [-> H]]]]].
  unfold re_extension_server_port in H.
  apply (flag_value_head _ (fun f => f = js "--extension_server_port")) in H.
  - destruct H as [flag [seps [value (Hr & Hc & Hf & H)]]]. cbn [rest] in Hr.
    exists value. split; [exact Hc |].
    exists pre, flag, seps, (rest pm). rewrite Hr. auto.
  - intros st0.
    destruct (run_lit_single (js "--extension_server_port") st0)
      as [E | [mid [E [Hr _]]]]; [now left |].
    right. exists mid, (js "--extension_server_port"). auto.
  - intros c Hc. apply space_not_value. exact Hc.
Qed.

Lemma digits_from_nonneg (s : JsString) : forall acc,
  0 <= acc -> 0 <= digits_from acc s.
Proof.
  induction s as [| c s IH]; intros acc H; cbn [digits_from]; [exact H |].
  destruct (is_digit c); [| exact H].
  apply IH. unfold digit_val. lia.
Qed.

Lemma parseInt_digits (d : JsString) :
  d <> [] -> Forall (fun c => is_digit c = true) d ->
  exists z, parseInt d = Some z /\ 0 <= z.
Proof.
  intros Hne Hd. destruct d as [| c d]; [congruence |].
  inversion Hd as [| ? ? Hc _]; subst.
  destruct (digit_not_special c Hc) as (Hs & Hm & Hp).
  unfold parseInt, trimStart. cbn [drop_while]. rewrite Hs, Hm, Hp, Hc.
  eexists. split; [reflexivity |]. apply digits_from_nonneg. lia.
Qed.

(** X21.  The record [parseProcessInfo] returns carries the values of
    the two flags as they stand on the command line of one line of the
    listing.  The token is the whole run of hexadecimal digits and
    dashes that follows [--csrf_token] (in any letter case) and a
    non-empty run of [=] and white space: it is not empty and it is not
    cut short.  The extension port is 0 when [--extension_server_port]
    with a number does not occur, and otherwise the value of the whole
    run of decimal digits that follows the flag, never negative. *)
Theorem X21_flag_values (currentPid : Z) (stdout : JsString)
        (c : ProcessInfo) :
  Unix.parseProcessInfo currentPid stdout = Some c ->
  exists line,
    In line (split_unit 10 (trim stdout))
    /\ Unix.candidate line = Some c
    /\ valueOf (fun f => toLowerCase f = js "--csrf_token") hex_or_dash_i
               (Unix.commandLine line) (csrfToken c)
    /\ (rmatch re_extension_server_port (Unix.commandLine line) = None
        /\ extensionPort c = 0
        \/ exists d,
             valueOf (fun f => f = js "--extension_server_port") is_digit
                     (Unix.commandLine line) d
             /\ parseInt d = Some (extensionPort c)
             /\ 0 <= extensionPort c).
Proof.
  rewrite parseProcessInfo_candidates. intros H.
  assert (Hin : In c (Unix.candidates (split_unit 10 (trim stdout)))).
  { destruct (Unix.candidates (split_unit 10 (trim stdout)))
      as [| first others]; [discriminate |].
    destruct (find _ (first :: others)) as [c0 |] eqn:Ef.
    - injection H as <-. apply find_some in Ef. tauto.
    - injection H as <-. now left. }
  apply In_candidates in Hin as [line [Hl Hc]].
  exists line. split; [exact Hl | split; [exact Hc |]].
  unfold Unix.candidate in Hc. fold (Unix.commandLine line) in Hc.
  destruct (List.length (split_ws (trim line)) <? 3)%nat; [discriminate |].
  destruct (parseInt (nth 0 (split_ws (trim line)) [])); [| discriminate].
  destruct (parseInt (nth 1 (split_ws (trim line)) [])); [| discriminate].
  destruct (includes (js "graftcp") (nth 2 (split_ws (trim line)) []));
    [discriminate |].
  unfold Unix.commandLine in *.
  destruct (rmatch re_csrf_token _) as [tm |] eqn:Et; [| discriminate].
  destruct (isAntigravityProcess _); [| discriminate].
  injection Hc as <-. cbn [csrfToken extensionPort].
  apply csrf_token_value in Et as [t [Ect Ht]]. rewrite Ect.
  split; [exact Ht |].
  destruct (rmatch re_extension_server_port _) as [pm |] eqn:Ep;
    [| left; auto].
  right. apply extension_port_value in Ep as [d [Ecd Hd]]. rewrite Ecd.
  exists d. split; [exact Hd |].
  destruct Hd as [before [flag [seps [after (_ & _ & _ & _ & Hne & Hf & _)]]]].
  destruct (parseInt_digits d Hne Hf) as [v [Ev Hv]]. rewrite Ev. auto.
Qed.

(** Text that equals the literal up to letter case is matched, and
    the matcher remembers its last unit. *)
Lemma lit_i_complete (s : JsString) : forall t pv r cs,
  toLowerCase t = toLowerCase s ->
  run (lit_i s) (mkM pv (t ++ r) cs)
  = [mkM (match t with [] => pv | _ :: _ => Some (last t 0%N) end) r cs].
Proof.
  assert (Hc : forall c x pv r cs,
             lower_unit x = lower_unit c ->
             run (Chr (unit_is_i c)) (mkM pv (x :: r) cs)
             = [mkM (Some x) r cs]).
  { intros c x pv r cs H. cbn [run rest caps]. unfold unit_is_i.
    rewrite H, N.eqb_refl. reflexivity. }
  induction s as [| c s IH]; intros t pv r cs H.
  - destruct t; [reflexivity | discriminate].
  - destruct t as [| x t]; [discriminate |].
    unfold toLowerCase in H. cbn [List.map] in H. injection H as Hx Ht.
    destruct s as [| d s].
    + destruct t; [| discriminate]. cbn [lit_i app last].
      apply Hc. exact Hx.
    + change (lit_i (c :: d :: s))
        with (Seq (Chr (unit_is_i c)) (lit_i (d :: s))).
      change (run (Seq (Chr (unit_is_i c)) (lit_i (d :: s)))
                  (mkM pv ((x :: t) ++ r) cs))
        with (flat_map (run (lit_i (d :: s)))
                       (run (Chr (unit_is_i c)) (mkM pv (x :: t ++ r) cs))).
      rewrite (Hc c x pv (t ++ r) cs Hx). cbn [flat_map].
      rewrite app_nil_r, (IH t (Some x) r cs Ht).
      destruct t as [| y t]; [discriminate |]. reflexivity.
Qed.

(** The leftmost-match search finds a match wherever one starts. *)
Lemma search_from_complete (r : regex) (pre s : JsString) : forall pv,
  run r (mkM (match pre with [] => pv | _ :: _ => Some (last pre 0%N) end)
             s []) <> [] ->
  search_from r pv (pre ++ s) <> None.
Proof.
  induction pre as [| c pre IH]; intros pv H.
  - cbn [app]. destruct s as [| x s]; cbn [search_from];
      destruct (run r _); try congruence; discriminate.
  - cbn [app search_from].
    destruct (run r (mkM pv (c :: pre ++ s) [])); [| discriminate].
    apply IH. destruct pre as [| d pre]; exact H.
Qed.

Lemma drop_while_spaces (sp : JsString) (x : N) (r : JsString) :
  Forall (fun c => is_space c = true) sp -> is_space x = false ->
  drop_while is_space (sp ++ x :: r) = x :: r.
Proof.
  induction sp as [| c sp IH]; intros H Hx; cbn [app drop_while].
  - rewrite Hx. reflexivity.
  - inversion H; subst.
    match goal with E : is_space c = true |- _ => rewrite E end. auto.
Qed.

Lemma antigravity_word (word : JsString) :
  toLowerCase word = js "antigravity" ->
  exists x w, word = x :: w /\ is_space x = false
              /\ is_word (last word 0%N) = true.
Proof.
  intros H.
  assert (Hy : forall c, lower_unit c = 121%N -> is_word c = true).
  { intros c. unfold lower_unit, is_word, is_digit, is_upper, is_lower,
      in_range.
    destruct (N.leb 65 c && N.leb c 90)%bool eqn:E; intros Hc.
    - assert (c = 89%N) by lia. subst c. reflexivity.
    - subst c. reflexivity. }
  assert (Ha : forall c, lower_unit c = 97%N -> is_space c = false).
  { intros c. unfold lower_unit, is_upper, in_range.
    destruct (N.leb 65 c && N.leb c 90)%bool eqn:E; intros Hc.
    - assert (c = 65%N) by lia. subst c. reflexivity.
    - subst c. reflexivity. }
  unfold toLowerCase in H.
  do 11 (destruct word as [| ? word]; [discriminate |]).
  destruct word; [| discriminate].
  cbn [List.map] in H. change (js "antigravity")
    with [97; 110; 116; 105; 103; 114; 97; 118; 105; 116; 121]%N in H.
  injection H as H1 _ _ _ _ _ _ _ _ _ H11.
  eexists _, _. split; [reflexivity |].
  split; [apply Ha; exact H1 | cbn [last]; apply Hy; exact H11].
Qed.

Lemma app_data_dir_sound (cmd : JsString) :
  rtest re_app_data_dir cmd = true -> namesDataDir cmd.
Proof.
  unfold rtest. destruct (rmatch re_app_data_dir cmd) as [m |] eqn:E;
    [intros _ | discriminate].
  apply search_from_inside in E as [pre [pv [s' [-> H]]]].
  unfold re_app_data_dir in H.
  apply run_seq in H as [m1 [H1 H]].
  apply run_seq in H as [m2 [H2 H]].
  apply run_seq in H as [m3 [H3 H]].
  pose proof H1 as H1'. apply run_lit_i in H1' as [flag [Hr1 Hl1]].
  apply run_plus in H2 as [c [sp [Hr2 [Hc [Hsp _]]]]].
  destruct (run_lit_i_single (js "antigravity") m2)
    as [E3 | [mid [word [E3 [Hr3 [Hl3 _]]]]]];
    [rewrite E3 in H3; destruct H3 |].
  rewrite E3 in H3. destruct H3 as [<- | []].
  assert (Hprev : prev mid = Some (last word 0%N)).
  { destruct m2 as [pv2 r2 cs2]. cbn [rest] in Hr3. subst r2.
    rewrite (lit_i_complete (js "antigravity") word pv2 (rest mid) cs2 Hl3)
      in E3.
    injection E3 as <-. cbn [prev].
    destruct (antigravity_word word Hl3) as [x [w [-> _]]]. reflexivity. }
  cbn [run] in H. rewrite Hprev in H. cbn [opt_word] in H.
  destruct (antigravity_word word Hl3) as [x [w [_ [_ Hw]]]].
  rewrite Hw in H.
  exists pre, flag, (c :: sp), word, (rest mid).
  cbn [rest] in Hr1. rewrite Hr1, Hr2, Hr3. cbn [app].
  split; [reflexivity |]. split; [exact Hl1 |].
  split; [discriminate |]. split; [constructor; assumption |].
  split; [exact Hl3 |].
  unfold ends. destruct (rest mid) as [| y r]; [exact I |].
  cbn [hd_error opt_word xorb] in H.
  destruct (is_word y); [destruct H | reflexivity].
Qed.

Lemma app_data_dir_complete (cmd : JsString) :
  namesDataDir cmd -> rtest re_app_data_dir cmd = true.
Proof.
  intros [pre [flag [sp [word [rest0 (-> & Hf & Hne & Hsp & Hw & He)]]]]].
  unfold rtest, rmatch.
  destruct (search_from re_app_data_dir None
              (pre ++ flag ++ sp ++ word ++ rest0)) eqn:E; [reflexivity |].
  exfalso. revert E. apply search_from_complete.
  set (pv := match pre with [] => None | _ :: _ => Some (last pre 0%N) end).
  unfold re_app_data_dir.
  change (run (lit_i (js "--app_data_dir") >> Plus is_space
               >> lit_i (js "antigravity") >> WordB)%re
              (mkM pv (flag ++ sp ++ word ++ rest0) []))
    with (flat_map (run (Plus is_space >> lit_i (js "antigravity")
                         >> WordB)%re)
            (run (lit_i (js "--app_data_dir"))
                 (mkM pv (flag ++ sp ++ word ++ rest0) []))).
  rewrite (lit_i_complete (js "--app_data_dir") flag pv _ [] Hf).
  cbn [flat_map]. rewrite app_nil_r.
  set (st1 := mkM _ (sp ++ word ++ rest0) []).
  change (run (Plus is_space >> lit_i (js "antigravity") >> WordB)%re st1)
    with (flat_map (run (lit_i (js "antigravity") >> WordB)%re)
                   (run (Plus is_space) st1)).
  destruct (antigravity_word word Hw) as [x [w [Ew [Hx Hlast]]]].
  destruct sp as [| c sp]; [congruence |].
  pose proof (Forall_inv Hsp) as Hc. cbv beta in Hc.
  pose proof (Forall_inv_tail Hsp) as Hsp'.
  destruct (run (Plus is_space) st1) as [| m1 ms1] eqn:E1.
  { exfalso. subst st1. cbn [run rest app] in E1. rewrite Hc in E1.
    destruct (star_run_shape is_space (sp ++ word ++ rest0) (Some c))
      as [pv0 [tl [E0 _]]].
    rewrite E0 in E1. discriminate. }
  apply run_plus_head in E1 as [c' [s [Hr [_ [Hm1 [Hk _]]]]]].
  subst st1. cbn [rest app caps] in Hr, Hk. injection Hr as <- <-.
  rewrite Ew in Hm1. cbn [app] in Hm1.
  rewrite (drop_while_spaces sp x (w ++ rest0) Hsp' Hx) in Hm1.
  cbn [flat_map]. intros Hnil. apply app_eq_nil in Hnil as [Hnil _].
  destruct m1 as [pv1 r1 cs1]. cbn [rest] in Hm1. subst r1.
  change (run (lit_i (js "antigravity") >> WordB)%re
              (mkM pv1 (x :: w ++ rest0) cs1))
    with (flat_map (run WordB)
            (run (lit_i (js "antigravity"))
                 (mkM pv1 ((x :: w) ++ rest0) cs1))) in Hnil.
  rewrite <- Ew in Hnil.
  rewrite (lit_i_complete (js "antigravity") word pv1 rest0 cs1 Hw) in Hnil.
  rewrite Ew in Hnil. cbn [flat_map run prev rest opt_word] in Hnil.
  rewrite <- Ew, Hlast in Hnil.
  unfold ends in He. destruct rest0 as [| y r]; cbn [hd_error opt_word] in Hnil.
  - discriminate.
  - rewrite He in Hnil. discriminate.
Qed.

(** X29.  The identity test, spelled out.  [isAntigravityProcess]
    accepts a command line exactly when it names the application's
    data directory (the flag [--app_data_dir], white space, then
    [antigravity] ending at a word boundary, all in any letter case),
    or when its lower-cased text contains [/antigravity/] or
    [\antigravity\]. *)
Theorem X29_identity_test (cmd : JsString) :
  isAntigravityProcess cmd = true
  <-> namesDataDir cmd
      \/ occurs (js "/antigravity/") (toLowerCase cmd)
      \/ occurs (js "\antigravity\") (toLowerCase cmd).
Proof.
  unfold isAntigravityProcess. rewrite !Bool.orb_true_iff. split.
  - intros [[H | H] | H].
    + left. apply app_data_dir_sound. exact H.
    + right. left. apply includes_occurs. exact H.
    + right. right. apply includes_occurs. exact H.
  - intros [H | [H | H]].
    + left. left. apply app_data_dir_complete. exact H.
    + left. right. apply occurs_includes. exact H.
    + right. apply occurs_includes. exact H.
Qed.

End FlagFacts.

(* ===================================================================== *)
(** ** The port-listing tool *)
(* ===================================================================== *)

Section PortToolFacts.
Import PortTools.

Lemma lookups_kept (darwin : bool) (calls : list (World * JsString))
      (c : PortCommand) :
  let (effects, final) := lookups darwin calls (Some c) in
  final = Some c
  /\ filter isWhich effects = []
  /\ List.map (fun e => match e with
                        | Exec command => command
                        | _ => []
                        end) effects
     = List.map (fun call => getPortListCommand (Some c) (snd call)) calls.
Proof.
  induction calls as [| [w pid] calls IH]; cbn [lookups]; [auto |].
  unfold getProcessListeningPorts, ensurePortCommandAvailable.
  destruct (execAsync w (getPortListCommand (Some c) pid));
    destruct (lookups darwin calls (Some c)) as [e2 final];
    destruct IH as (I1 & I2 & I3);
    cbn [app filter isWhich List.map snd]; rewrite I2, I3; auto.
Qed.

Lemma parseListeningPorts_sorted (stdout : JsString) :
  StronglySorted Z.lt (Unix.parseListeningPorts stdout).
Proof.
  unfold Unix.parseListeningPorts.
  destruct (negb (truthy (trim stdout)));
    [constructor | apply parse_lines_ascending].
Qed.

(** X22.  The Unix strategy chooses its port-listing tool once.  A
    look-up of listening ports never throws and returns an ascending
    list.  With no tool chosen yet it probes [lsof], [ss] and [netstat]
    in this order, stops at the first that exists and keeps it; if none
    exists it shows the error message, runs nothing, returns no port
    and chooses nothing, so that the next look-up probes again.  The
    command it runs is always the one of the chosen tool, never the
    combined default.  Once a tool is chosen, every later look-up runs
    that tool's command without probing, whatever is installed or
    removed meanwhile. *)
Theorem X22_port_tool_chosen_once :
  (forall w darwin pid availablePortCommand,
     let '(effects, available, ports) :=
       getProcessListeningPorts w darwin pid availablePortCommand in
     StronglySorted Z.lt ports
     /\ (forall command,
           In (Exec command) effects ->
           exists c, available = Some c
                     /\ command = getPortListCommand (Some c) pid)
     /\ (available = None ->
         availablePortCommand = None /\ ports = []
         /\ (forall c, commandExists w c = false)
         /\ effects = [Which lsof; Which ss; Which netstat;
                       ShowErrorMessage darwin])
     /\ (forall c,
           availablePortCommand = None -> available = Some c ->
           exists before after,
             commands = before ++ c :: after
             /\ commandExists w c = true
             /\ (forall b, In b before -> commandExists w b = false)
             /\ filter isWhich effects = List.map Which (before ++ [c])))
  /\ (forall darwin calls c,
        let (effects, final) := lookups darwin calls (Some c) in
        final = Some c
        /\ filter isWhich effects = []
        /\ List.map (fun e => match e with
                              | Exec command => command
                              | _ => []
                              end) effects
           = List.map (fun call => getPortListCommand (Some c) (snd call))
                      calls).
Proof.
  split; [| intros darwin calls c; apply lookups_kept].
  intros w darwin pid availablePortCommand.
  unfold getProcessListeningPorts, ensurePortCommandAvailable.
  destruct availablePortCommand as [c0 |].
  - destruct (execAsync w (getPortListCommand (Some c0) pid)) eqn:Ex;
      (split; [first [constructor | apply parseListeningPorts_sorted] |]);
      (split; [intros command [H | []]; injection H as <-; eauto |]);
      (split; [discriminate | intros c H; discriminate]).
  - cbn [firstExisting commands].
    destruct (commandExists w lsof) eqn:E1;
      [| destruct (commandExists w ss) eqn:E2;
         [| destruct (commandExists w netstat) eqn:E3]].
    all: cbn [app].
    4: { split; [constructor |]. split; [intros command H; cbn in H;
           repeat destruct H as [H | H]; try discriminate; destruct H |].
         split; [intros _; repeat split; auto; intros []; assumption |].
         intros c _ H. discriminate. }
    all: match goal with
         | |- context [execAsync ?w0 ?cmd] => destruct (execAsync w0 cmd)
         end;
      (split; [first [constructor | apply parseListeningPorts_sorted] |]);
      (split; [intros command H; cbn in H;
               repeat destruct H as [H | H]; try discriminate;
               [injection H as <-; eauto | destruct H] |]);
      (split; [discriminate |]);
      intros c _ H; injection H as <-.
    + exists [], [ss; netstat]. repeat split; auto. intros b [].
    + exists [], [ss; netstat]. repeat split; auto. intros b [].
    + exists [lsof], [netstat]. repeat split; auto.
      intros b [<- | []]. assumption.
    + exists [lsof], [netstat]. repeat split; auto.
      intros b [<- | []]. assumption.
    + exists [lsof; ss], []. repeat split; auto.
      intros b [<- | [<- | []]]; assumption.
    + exists [lsof; ss], []. repeat split; auto.
      intros b [<- | [<- | []]]; assumption.
Qed.

End PortToolFacts.

(* ===================================================================== *)
(** ** SafePowerShellPath *)
(* ===================================================================== *)

Section PowerShellPathFacts.
Import SafePowerShellPath.

Variable KNOWN_SAFE_PATHS : list JsString.

Lemma findFrom_spec (existsSync : JsString -> bool) (paths : list JsString) :
  forall i,
  (fst (findFrom existsSync i paths) = js "powershell"
   /\ snd (findFrom existsSync i paths) = path_fallback
   /\ forall p, In p paths -> existsSync p = false)
  \/ (exists before p after,
        paths = before ++ p :: after
        /\ existsSync p = true
        /\ (forall b, In b before -> existsSync b = false)
        /\ fst (findFrom existsSync i paths) = [34%N] ++ p ++ [34%N]
        /\ snd (findFrom existsSync i paths)
           = if Nat.eqb (i + List.length before) 0 then system32
             else pwsh7).
Proof.
  induction paths as [| q paths IH]; intros i; cbn [findFrom].
  - left. repeat split; auto. intros p [].
  - destruct (existsSync q) eqn:E.
    + right. exists [], q, paths. cbn [List.length fst snd app].
      rewrite Nat.add_0_r. repeat split; auto. intros b [].
    + destruct (IH (S i)) as [(A & B & C) | [before [p [after H]]]].
      * left. repeat split; auto. intros p [<- | Hp]; auto.
      * right. destruct H as (-> & Hp & Hb & Hf & Ht).
        exists (q :: before), p, after. cbn [List.length app].
        replace (i + S (List.length before))%nat
          with (S i + List.length before)%nat by lia.
        repeat split; auto. intros b [<- | Hb']; auto.
Qed.

(** X23.  The PowerShell path is resolved once.  The first
    [getSafePath()] after loading or after [clearCache()] returns the
    first known path that exists, in double quotes, or the bare name
    [powershell] when none exists; it is never the empty string.  From
    then on [getSafePath()], [getPathInfo()] and
    [isUsingPathFallback()] answer from the cache whatever the file
    system has become: the same path, the cache unchanged, and the
    path fall-back reported exactly when no known path existed at the
    time of that first call. *)
Theorem X23_powershell_path_resolved_once
        (existsSync laterExistsSync : JsString -> bool) :
  let first := getSafePath KNOWN_SAFE_PATHS existsSync clearCache in
  let path := fst first in
  let st := snd first in
  path <> []
  /\ cachedPath st = Some path
  /\ ((path = js "powershell"
       /\ forall p, In p KNOWN_SAFE_PATHS -> existsSync p = false)
      \/ exists before p after,
           KNOWN_SAFE_PATHS = before ++ p :: after
           /\ existsSync p = true
           /\ (forall b, In b before -> existsSync b = false)
           /\ path = [34%N] ++ p ++ [34%N]
           /\ pathType st = (if Nat.eqb (List.length before) 0
                             then system32 else pwsh7))
  /\ getSafePath KNOWN_SAFE_PATHS laterExistsSync st = (path, st)
  /\ getPathInfo KNOWN_SAFE_PATHS laterExistsSync st
     = ((path, pathType st), st)
  /\ isUsingPathFallback KNOWN_SAFE_PATHS laterExistsSync st
     = (if existsb existsSync KNOWN_SAFE_PATHS then false else true, st).
Proof.
  cbv zeta.
  assert (Efirst : getSafePath KNOWN_SAFE_PATHS existsSync clearCache
                   = (fst (findFrom existsSync 0 KNOWN_SAFE_PATHS),
                      mkCache
                        (Some (fst (findFrom existsSync 0 KNOWN_SAFE_PATHS)))
                        (snd (findFrom existsSync 0 KNOWN_SAFE_PATHS))))
    by reflexivity.
  rewrite Efirst. cbn [fst snd cachedPath pathType].
  set (path := fst (findFrom existsSync 0 KNOWN_SAFE_PATHS)).
  set (type := snd (findFrom existsSync 0 KNOWN_SAFE_PATHS)).
  assert (Hcases :
            (path = js "powershell" /\ type = path_fallback
             /\ existsb existsSync KNOWN_SAFE_PATHS = false
             /\ forall p, In p KNOWN_SAFE_PATHS -> existsSync p = false)
            \/ (exists before p after,
                  KNOWN_SAFE_PATHS = before ++ p :: after
                  /\ existsSync p = true
                  /\ (forall b, In b before -> existsSync b = false)
                  /\ path = [34%N] ++ p ++ [34%N]
                  /\ type = (if Nat.eqb (List.length before) 0
                             then system32 else pwsh7)
                  /\ existsb existsSync KNOWN_SAFE_PATHS = true)).
  { subst path type.
    destruct (findFrom_spec existsSync KNOWN_SAFE_PATHS 0)
      as [(A & B & C) | [before [p [after (E & Hp & Hb & Hf & Ht)]]]].
    - left. repeat split; auto.
      clear - C. induction KNOWN_SAFE_PATHS as [| q l IH]; [reflexivity |].
      cbn. rewrite (C q) by now left. apply IH.
      intros p Hp. apply C. now right.
    - right. exists before, p, after. repeat split; auto.
      apply existsb_exists. exists p. split; [| exact Hp].
      rewrite E. apply in_or_app. right. now left. }
  assert (Hne : path <> []).
  { destruct Hcases as [(A & _) | [before [p [after (_ & _ & _ & A & _)]]]];
      rewrite A; discriminate. }
  split; [exact Hne |]. split; [reflexivity |].
  split.
  { destruct Hcases as [(A & _ & _ & C)
                       | [before [p [after (E & Hp & Hb & A & T & _)]]]].
    - left. auto.
    - right. exists before, p, after. auto. }
  unfold getSafePath, getPathInfo, isUsingPathFallback.
  cbn [cachedPath fst snd pathType].
  split; [reflexivity |].
  split.
  { destruct path as [| u path']; [congruence | reflexivity]. }
  destruct Hcases as [(_ & T & Hn & _)
                     | [before [p [after (_ & _ & _ & _ & T & Hy)]]]].
  - rewrite T, Hn. reflexivity.
  - rewrite T, Hy. destruct (Nat.eqb (List.length before) 0); reflexivity.
Qed.

End PowerShellPathFacts.

(* ===================================================================== *)
(** ** The columns of a process line *)
(* ===================================================================== *)

Section ColumnFacts.

Lemma of_Z_digits (n : Z) : Forall (fun c => is_digit c = true) (of_Z n).
Proof.
  assert (H : forall d,
             Forall (fun c => is_digit c = true)
                    (js (NilEmpty.string_of_uint d))).
  { induction d; cbn [NilEmpty.string_of_uint]; rewrite ?js_String;
      constructor; auto. }
  unfold of_Z, NilZero.string_of_uint.
  destruct (N.to_uint (Z.to_N n)) eqn:E; try (rewrite <- E; apply H).
  repeat constructor.
Qed.

Lemma split_ws_from_word (w : JsString) : forall acc b rest,
  Forall (fun c => is_space c = false) w ->
  split_ws_from acc b (w ++ rest)
  = split_ws_from (rev w ++ acc) (match w with [] => b | _ => false end)
                  rest.
Proof.
  induction w as [| x w IH]; intros acc b rest H; [reflexivity |].
  inversion H as [| ? ? Hx Hw]; subst.
  cbn [app split_ws_from]. rewrite Hx, (IH _ _ _ Hw).
  cbn [rev]. rewrite <- app_assoc. cbn [app].
  destruct w; reflexivity.
Qed.

Lemma split_ws_from_spaces (sp : JsString) : forall rest,
  Forall (fun c => is_space c = true) sp ->
  split_ws_from [] true (sp ++ rest) = split_ws_from [] true rest.
Proof.
  induction sp as [| c sp IH]; intros rest H; [reflexivity |].
  inversion H as [| ? ? Hc Hsp]; subst.
  cbn [app split_ws_from]. rewrite Hc. apply IH. exact Hsp.
Qed.

(** A word followed by white space is the next piece of the split. *)
Lemma split_ws_from_column (w sp rest : JsString) :
  w <> [] -> Forall (fun c => is_space c = false) w ->
  sp <> [] -> Forall (fun c => is_space c = true) sp ->
  forall b,
  split_ws_from [] b (w ++ sp ++ rest) = w :: split_ws_from [] true rest.
Proof.
  intros Hw Fw Hsp Fsp b. rewrite (split_ws_from_word w [] b _ Fw).
  destruct w as [| x w]; [congruence |].
  destruct sp as [| c sp]; [congruence |].
  inversion Fsp as [| ? ? Hc Fsp']; subst.
  cbn [app split_ws_from]. rewrite Hc, app_nil_r, rev_involutive.
  f_equal. apply split_ws_from_spaces. exact Fsp'.
Qed.

Lemma split_ws_from_start (x : N) (s : JsString) (b : bool) :
  is_space x = false ->
  split_ws_from [] b (x :: s) = split_ws (x :: s).
Proof. intros H. unfold split_ws. cbn [split_ws_from]. rewrite H. reflexivity. Qed.

Lemma digits_nonspace (w : JsString) :
  Forall (fun c => is_digit c = true) w ->
  Forall (fun c => is_space c = false) w.
Proof.
  intros H. eapply Forall_impl; [| exact H].
  intros c Hc. apply digit_not_special. exact Hc.
Qed.

(** X24.  The first two columns of a process line are read back as
    they were printed.  If, once trimmed, a line consists of a
    non-negative pid and parent pid in decimal, each followed by white
    space of any length, and then the command, every record the parser
    makes of that line carries exactly these two numbers, and the
    command line it examines is the command with each run of white
    space collapsed to one space. *)
Theorem X24_ps_columns (line sp1 sp2 cmd : JsString) (x : N)
        (n m : Z) (c : ProcessInfo) :
  0 <= n -> 0 <= m ->
  sp1 <> [] -> Forall (fun u => is_space u = true) sp1 ->
  sp2 <> [] -> Forall (fun u => is_space u = true) sp2 ->
  is_space x = false ->
  trim line = of_Z n ++ sp1 ++ of_Z m ++ sp2 ++ x :: cmd ->
  Unix.commandLine line = join (js " ") (split_ws (x :: cmd))
  /\ (Unix.candidate line = Some c -> pid c = n /\ ppid c = m).
Proof.
  intros Hn Hm Hs1 Fs1 Hs2 Fs2 Hx Ht.
  assert (Hparts : split_ws (trim line)
                   = of_Z n :: of_Z m :: split_ws (x :: cmd)).
  { rewrite Ht. unfold split_ws at 1.
    destruct (of_Z_head n) as [c1 [r1 [E1 _]]].
    destruct (of_Z_head m) as [c2 [r2 [E2 _]]].
    rewrite split_ws_from_column;
      [| rewrite E1; discriminate
       | apply digits_nonspace, of_Z_digits | exact Hs1 | exact Fs1].
    rewrite split_ws_from_column;
      [| rewrite E2; discriminate
       | apply digits_nonspace, of_Z_digits | exact Hs2 | exact Fs2].
    rewrite (split_ws_from_start x cmd true Hx). reflexivity. }
  split.
  - unfold Unix.commandLine. rewrite Hparts. reflexivity.
  - unfold Unix.candidate. rewrite Hparts. cbn [nth skipn].
    rewrite <- (app_nil_r (of_Z n)), <- (app_nil_r (of_Z m)).
    rewrite (parseInt_of_Z n [] Hn eq_refl), (parseInt_of_Z m [] Hm eq_refl).
    destruct (_ <? 3)%nat; [discriminate |].
    destruct (includes (js "graftcp") _); [discriminate |].
    destruct (rmatch re_csrf_token _); [| discriminate].
    destruct (isAntigravityProcess _); [| discriminate].
    intros H. injection H as <-. auto.
Qed.

End ColumnFacts.

(* ===================================================================== *)
(** ** SessionController *)
(* ===================================================================== *)

Section ControllerFacts.
Import Client Controller.

Variable parseDate : JsString -> option Z.
Variable toStr : JsValue -> JsString.
Variable now : nat -> Z.

(** The closures touch the cache and the reconnect flag only. *)
Lemma react_frame (es : list Effect) : forall (s : Session) (n : nat),
  let s' := fst (fst (react toStr now es s n)) in
  client s' = client s /\ isInitialized s' = isInitialized s
  /\ portDetectionService s' = portDetectionService s
  /\ updateListeners s' = updateListeners s.
Proof.
  induction es as [| e es IH]; intros s n; cbn [react].
  - cbn. auto.
  - cbv zeta. unfold bind.
    set (h := match e with
              | UpdateCalled _ snapshot => onQuotaUpdateHandler now snapshot s
              | ErrorCalled _ error => ret (onErrorHandler toStr error s)
              | _ => ret (s, [])
              end).
    assert (Hh : let s1 := fst (fst (h n)) in
                 client s1 = client s /\ isInitialized s1 = isInitialized s
                 /\ portDetectionService s1 = portDetectionService s
                 /\ updateListeners s1 = updateListeners s).
    { subst h. destruct e; cbn; auto.
      - unfold onQuotaUpdateHandler, bind.
        destruct (transformSnapshotToQuotaData now snapshot n) as [data n1].
        cbn. auto.
      - unfold onErrorHandler, tryReconnect.
        destruct (isConnectionError _).
        + destruct (isReconnecting s); [cbn; auto |].
          destruct (portDetectionService s) eqn:Es; cbn; rewrite ?Es; auto.
        + destruct (isLoginError _); cbn; auto. }
    destruct (h n) as [[s1 o1] n1]. cbn [fst snd] in *.
    specialize (IH s1 n1).
    destruct (react toStr now es s1 n1) as [[s2 o2] n2]. cbn in *.
    destruct Hh as (A & B & C & D). destruct IH as (A' & B' & C' & D').
    repeat split; congruence.
Qed.

Lemma drive_frame (method : State -> State * list Effect) (s : Session)
      (n : nat) :
  let s' := fst (fst (drive toStr now method s n)) in
  client s' = match client s with
              | Some c => Some (fst (method c))
              | None => None
              end
  /\ isInitialized s' = isInitialized s
  /\ portDetectionService s' = portDetectionService s
  /\ updateListeners s' = updateListeners s.
Proof.
  unfold drive. destruct (client s) as [c |] eqn:Ec.
  - destruct (method c) as [c' es].
    pose proof (react_frame es (withClient s (Some c')) n) as H.
    cbv zeta in H. cbn [fst]. exact H.
  - cbn. auto.
Qed.

Lemma drive_wired (method : State -> State * list Effect) (s : Session)
      (n : nat) :
  (forall c, client s = Some c -> wired c) ->
  (forall c, wired c -> wired (fst (method c))) ->
  forall c, client (fst (fst (drive toStr now method s n))) = Some c ->
            wired c.
Proof.
  intros Hw Hm c. destruct (drive_frame method s n) as (A & _).
  rewrite A. destruct (client s) as [c0 |]; [| discriminate].
  intros E. injection E as <-. apply Hm. apply Hw. reflexivity.
Qed.

Lemma drive_managed (method : State -> State * list Effect) (s : Session)
      (n : nat) :
  managed s ->
  (forall c, wired c -> wired (fst (method c))) ->
  managed (fst (fst (drive toStr now method s n))).
Proof.
  intros (Hi & Hs & Hw) Hm.
  split; [| split; [| apply drive_wired; assumption]];
    destruct (drive_frame method s n) as (A & B & C & D);
    rewrite A, ?B, ?C; destruct (client s) as [c |] eqn:Ec.
  - split; [discriminate | intros _; apply Hi; discriminate].
  - exact Hi.
  - intros _. apply Hs. discriminate.
  - exact Hs.
Qed.

Lemma doFetchQuota_wired (w : World) (c : State) :
  wired c -> wired (fst (doFetchQuota parseDate w c)).
Proof.
  intros (Hp & Ht & Hh & Hu & He & Hst & Hr).
  pose proof (doFetchQuota_frame parseDate w c) as F. cbv zeta in F.
  destruct F as (F1 & F2 & F3 & _ & F5 & F6 & F7 & _).
  unfold wired. rewrite F1, F2, F3, F5, F6, F7.
  repeat split; auto. apply doFetchQuota_bounded. exact Hr.
Qed.

Lemma fetchQuota_wired (w : World) (c : State) :
  wired c -> wired (fst (fetchQuota parseDate w c)).
Proof.
  intros H. unfold fetchQuota. destruct (isRetrying c); [exact H |].
  apply doFetchQuota_wired. exact H.
Qed.

Lemma retryTimer_wired (w : World) (c : State) :
  wired c -> wired (fst (retryTimer parseDate w c)).
Proof. intros H. unfold retryTimer. apply fetchQuota_wired. exact H. Qed.

Lemma stopPolling_wired (c : State) : wired c -> wired (fst (stopPolling c)).
Proof.
  intros H. unfold stopPolling. destruct (pollingInterval c); exact H.
Qed.

Lemma startPolling_wired (w : World) (ms : Z) (timer : nat) (c : State) :
  wired c -> wired (fst (startPolling parseDate w ms timer c)).
Proof.
  intros H. unfold startPolling.
  pose proof (stopPolling_wired c H) as H1.
  destruct (stopPolling c) as [c1 e1]. cbn [fst] in H1.
  pose proof (fetchQuota_wired w c1 H1) as H2.
  destruct (fetchQuota parseDate w c1) as [c2 e2]. exact H2.
Qed.

Lemma rebound_wired (c : State) (r : PortDetectionResult) :
  wired c -> usable (Some r) = true ->
  wired (setAuthInfo (setPorts c (pd_port r) (Some (pd_httpPort r)))
                     (Some (pd_csrfToken r))).
Proof.
  intros (Hp & Ht & Hh & Hu & He & Hst & Hr) Hus.
  cbn [usable] in Hus. apply Bool.andb_true_iff in Hus as [Hport Htok].
  apply Bool.negb_true_iff, Z.eqb_neq in Hport.
  unfold wired. cbn.
  repeat split; eauto. apply Nat.le_0_l.
Qed.

Lemma initialize_managed (detection : Detection) (w1 w2 : World)
      (timer httpsAgent httpAgent : nat) (s : Session) (n : nat) :
  managed s ->
  managed (fst (snd (fst (initialize parseDate toStr now detection w1 w2
                                     timer httpsAgent httpAgent s n)))).
Proof.
  intros Hm. unfold initialize.
  destruct (isInitialized s) eqn:Ei; [exact Hm |].
  destruct detection as [| processInfo]; [exact Hm |].
  assert (Hm0 : managed (withService s true)).
  { destruct Hm as (Hi & Hs & Hw).
    split; [exact Hi | split; [intros _; reflexivity | exact Hw]]. }
  destruct (detectPort processInfo) as [r |]; [| exact Hm0].
  destruct (usable (Some r)) eqn:Hus; [| exact Hm0].
  set (c := onError _ errorHandler).
  assert (Hc : wired c).
  { subst c. cbn [usable] in Hus.
    apply Bool.andb_true_iff in Hus as [Hport Htok].
    apply Bool.negb_true_iff, Z.eqb_neq in Hport.
    unfold wired. cbn. repeat split; eauto. apply Nat.le_0_l. }
  set (s1 := withClient (withService s true) (Some c)).
  unfold bind.
  pose proof (drive_frame (startPolling parseDate w1 15000 timer) s1 n) as F1.
  pose proof (drive_wired (startPolling parseDate w1 15000 timer) s1 n) as W1.
  destruct (drive toStr now (startPolling parseDate w1 15000 timer) s1 n)
    as [[s2 o1] n1].
  cbn [fst snd].
  pose proof (drive_frame (quickRefresh parseDate w2) s2 n1) as F2.
  pose proof (drive_wired (quickRefresh parseDate w2) s2 n1) as W2.
  destruct (drive toStr now (quickRefresh parseDate w2) s2 n1)
    as [[s3 o2] n2].
  cbv zeta in F1, F2. cbn [fst snd ret] in *.
  destruct F1 as (A1 & B1 & C1 & D1). destruct F2 as (A2 & B2 & C2 & D2).
  unfold managed. cbn [isInitialized client portDetectionService
                                     withInitialized].
  rewrite A2, C2, A1, C1. cbn.
  split; [split; [discriminate | reflexivity] |].
  split; [reflexivity |].
  intros c' E. apply W2.
  - apply W1; [| apply startPolling_wired].
    subst s1. cbn. intros c0 E0. injection E0 as <-. exact Hc.
  - intros c0 H0. apply doFetchQuota_wired. exact H0.
  - rewrite A2, A1. exact E.
Qed.

Lemma step_managed (ev : Event) (s : Session) (n : nat) :
  managed s -> managed (fst (fst (step parseDate toStr now ev s n))).
Proof.
  intros Hm. destruct ev as [d w1 w2 t a1 a2 | w | w | info w | w | l |];
    cbn [step].
  - unfold bind.
    pose proof (initialize_managed d w1 w2 t a1 a2 s n Hm) as H.
    destruct (initialize parseDate toStr now d w1 w2 t a1 a2 s n)
      as [[b r] n1].
    exact H.
  - apply drive_managed; [exact Hm | apply fetchQuota_wired].
  - apply drive_managed; [exact Hm | apply retryTimer_wired].
  - destruct (isReconnecting s); [| exact Hm].
    assert (Hflag : forall r : Session * list Output * nat,
               managed (fst (fst r)) ->
               managed (withReconnecting (fst (fst r)) false)).
    { intros r (Hi & Hs & Hw). split; [exact Hi | split; assumption]. }
    unfold reconnected, bind.
    destruct (detectPort info) as [r |];
      [| apply (Hflag (s, [], n)); exact Hm].
    destruct (usable (Some r)) eqn:Hus;
      [| apply (Hflag (s, [], n)); exact Hm].
    match goal with
    | |- context [drive toStr now ?m s n] =>
        pose proof (drive_managed m s n Hm) as H;
        destruct (drive toStr now m s n) as [[s1 o1] n1]
    end.
    apply (Hflag (s1, o1, n1)). apply H.
    intros c Hc. apply doFetchQuota_wired. apply rebound_wired; assumption.
  - unfold fetchQuotaData, bind.
    destruct (negb (isInitialized s)); [exact Hm |].
    destruct (cachedData s); [exact Hm |].
    destruct (client s) eqn:Ec; [| exact Hm].
    pose proof (drive_managed (quickRefresh parseDate w) s n Hm
                  (fun c H => doFetchQuota_wired w c H)) as H.
    destruct (drive toStr now (quickRefresh parseDate w) s n)
      as [[s1 o1] n1].
    exact H.
  - destruct Hm as (Hi & Hs & Hw).
    split; [exact Hi | split; assumption].
  - apply drive_managed; [exact Hm | apply stopPolling_wired].
Qed.

Lemma steps_managed (evs : list Event) : forall (s : Session) (n : nat),
  managed s -> managed (fst (fst (steps parseDate toStr now evs s n))).
Proof.
  induction evs as [| ev evs IH]; intros s n Hm; cbn [steps].
  - exact Hm.
  - unfold bind. pose proof (step_managed ev s n Hm) as H1.
    destruct (step parseDate toStr now ev s n) as [[s1 o1] n1].
    cbn [fst] in *. specialize (IH s1 n1 H1).
    destruct (steps parseDate toStr now evs s1 n1) as [[s2 o2] n2].
    exact IH.
Qed.

(** X15.  Whatever happens to a controller, its client stays as
    [initialize] wired it.  The controller is initialised exactly when
    it has a client, and then it has a detection service; the client
    has a non-zero port, a non-empty token, a fallback port, the two
    closures of [initialize] and at most [MAX_RETRY_COUNT] retries used.
    So none of its fetches can fail for a missing token: each one puts
    an HTTPS request to the client's port on the wire. *)
Theorem X15_managed_client (evs : list Event) (n : nat) :
  let s := fst (fst (steps parseDate toStr now evs shared n)) in
  managed s
  /\ (forall c w,
        client s = Some c ->
        In (Sent (Https (port c))) (snd (doFetchQuota parseDate w c))).
Proof.
  cbv zeta.
  assert (Hm : managed (fst (fst (steps parseDate toStr now evs shared n)))).
  { apply steps_managed. unfold managed, shared. cbn.
    split; [split; [discriminate | intros H; exfalso; apply H; reflexivity] |].
    split; [intros H; exfalso; apply H; reflexivity | discriminate]. }
  split; [exact Hm |].
  intros c w Ec. destruct Hm as (_ & _ & Hw).
  destruct (Hw c Ec) as (_ & [t [Ht Htr]] & _).
  apply doFetchQuota_sends. eapply attempt_sends_https; eassumption.
Qed.

Lemma clientEffects_app (a b : list Output) :
  clientEffects (a ++ b) = clientEffects a ++ clientEffects b.
Proof. unfold clientEffects. apply flat_map_app. Qed.

Lemma clientEffects_notify (s : Session) :
  clientEffects (notifyListeners s) = [].
Proof.
  unfold notifyListeners. destruct (cachedData s); [| reflexivity].
  induction (updateListeners s); [reflexivity | assumption].
Qed.

Lemma clientEffects_ClientDid (es : list Effect) :
  clientEffects (List.map ClientDid es) = es.
Proof.
  unfold clientEffects.
  induction es as [| e es IH]; simpl; [| rewrite IH]; reflexivity.
Qed.

(** The outputs of a client run, read back, are what the client did. *)
Lemma react_clientEffects (es : list Effect) : forall (s : Session) (n : nat),
  clientEffects (snd (fst (react toStr now es s n))) = es.
Proof.
  induction es as [| e es IH]; intros s n; cbn [react]; [reflexivity |].
  unfold bind.
  set (h := match e with
            | UpdateCalled _ snapshot => onQuotaUpdateHandler now snapshot s
            | ErrorCalled _ error => ret (onErrorHandler toStr error s)
            | _ => ret (s, [])
            end).
  assert (Hh : clientEffects (snd (fst (h n))) = []).
  { subst h. destruct e; try reflexivity.
    - unfold onQuotaUpdateHandler, bind.
      destruct (transformSnapshotToQuotaData now snapshot n) as [data n1].
      cbn [ret fst snd]. apply clientEffects_notify.
    - cbn [ret fst snd]. unfold onErrorHandler, tryReconnect.
      destruct (isConnectionError _).
      + destruct (isReconnecting s); [reflexivity |].
        destruct (portDetectionService s); reflexivity.
      + destruct (isLoginError _); [| reflexivity].
        cbn [snd]. apply clientEffects_notify. }
  destruct (h n) as [[s1 o1] n1]. cbn [fst snd] in *.
  specialize (IH s1 n1).
  destruct (react toStr now es s1 n1) as [[s2 o2] n2]. cbn [ret fst snd] in *.
  change (ClientDid e :: o1 ++ o2) with ([ClientDid e] ++ o1 ++ o2).
  rewrite !clientEffects_app, Hh, IH. reflexivity.
Qed.

Lemma filter_notify (s : Session) :
  filter isDetectionStarted (notifyListeners s) = [].
Proof.
  unfold notifyListeners. destruct (cachedData s); [| reflexivity].
  induction (updateListeners s); [reflexivity | assumption].
Qed.

(** A client run that reports no error starts no detection and leaves
    the reconnect flag alone. *)
Lemma react_no_error (es : list Effect) : forall (s : Session) (n : nat),
  errorCalls es = [] ->
  let r := fst (react toStr now es s n) in
  isReconnecting (fst r) = isReconnecting s
  /\ filter isDetectionStarted (snd r) = [].
Proof.
  induction es as [| e es IH]; intros s n He; cbn [react]; [cbn; auto |].
  cbv zeta. unfold bind.
  assert (He' : errorCalls es = [] /\ isErrorCall e = false).
  { unfold errorCalls in *. cbn [filter] in He.
    destruct (isErrorCall e); [discriminate | auto]. }
  destruct He' as [He' Hne].
  set (h := match e with
            | UpdateCalled _ snapshot => onQuotaUpdateHandler now snapshot s
            | ErrorCalled _ error => ret (onErrorHandler toStr error s)
            | _ => ret (s, [])
            end).
  assert (Hh : isReconnecting (fst (fst (h n))) = isReconnecting s
               /\ filter isDetectionStarted (snd (fst (h n))) = []).
  { subst h. destruct e; try discriminate; cbn; auto.
    unfold onQuotaUpdateHandler, bind.
    destruct (transformSnapshotToQuotaData now snapshot n) as [data n1].
    cbn [ret fst snd]. split; [reflexivity | apply filter_notify]. }
  destruct (h n) as [[s1 o1] n1]. cbn [fst snd] in *.
  specialize (IH s1 n1 He'). cbv zeta in IH.
  destruct (react toStr now es s1 n1) as [[s2 o2] n2]. cbn [ret fst snd] in *.
  destruct Hh as [A B]. destruct IH as [A' B'].
  split; [congruence |].
  change (ClientDid e :: o1 ++ o2) with ([ClientDid e] ++ o1 ++ o2).
  rewrite !filter_app, B, B'. reflexivity.
Qed.

(** A fetch with a fresh retry budget reports no error. *)
Lemma doFetchQuota_fresh (w : World) (c : State) :
  (retryCount c < MAX_RETRY_COUNT)%nat ->
  errorCalls (snd (doFetchQuota parseDate w c)) = [].
Proof.
  intros Hlt. destruct (attemptFails parseDate w c) eqn:E.
  - pose proof (doFetchQuota_retry parseDate w c E Hlt) as H.
    destruct (doFetchQuota parseDate w c) as [c' es]. cbn. tauto.
  - pose proof (doFetchQuota_success parseDate w c E) as H.
    destruct (doFetchQuota parseDate w c) as [c' es]. cbn. tauto.
Qed.

(** What a fetch sends is what its attempt sends. *)
Lemma doFetchQuota_sent (w : World) (c : State) (r : Request) :
  In (Sent r) (snd (doFetchQuota parseDate w c)) ->
  In r (fst (attempt parseDate w c)).
Proof.
  unfold doFetchQuota.
  set (announced := if isFirstAttempt c then _ else _).
  assert (Ha : ~ In (Sent r) announced).
  { subst announced. destruct (isFirstAttempt c); [| tauto].
    destruct (statusCallback c); cbn; [intros [H | []]; discriminate | tauto]. }
  assert (Hcb : forall (cb : option nat) (f : nat -> Effect),
             (forall x, f x <> Sent r) -> ~ In (Sent r) (callIf cb f)).
  { intros cb f Hf. destruct cb; cbn; [intros [H | []]; eapply Hf; eauto
                                      | tauto]. }
  destruct (attempt parseDate w c) as [sent outcome]. cbn [fst].
  assert (Hm : In (Sent r) (List.map Sent sent) -> In r sent).
  { intros Hi. apply in_map_iff in Hi as [x [Hx Hi]].
    injection Hx as ->. exact Hi. }
  destruct outcome as [error | snapshot];
    [destruct (retryCount c <? MAX_RETRY_COUNT)%nat |];
    cbn [snd]; rewrite !in_app_iff; intros H.
  - destruct H as [H | [H | [H | [H | []]]]]; try tauto; try discriminate.
    exfalso. revert H. apply Hcb. discriminate.
  - destruct H as [H | [H | H]]; try tauto.
    exfalso. revert H. apply Hcb. discriminate.
  - destruct H as [H | [H | H]]; try tauto.
    exfalso. revert H. apply Hcb. discriminate.
Qed.

(** An attempt talks to the client's port over HTTPS and, at most, to
    its fallback port over HTTP. *)
Lemma attempt_requests (w : World) (c : State) (r : Request) :
  In r (fst (attempt parseDate w c)) ->
  r = Https (port c) \/ exists h, httpPort c = Some h /\ r = Http h.
Proof.
  unfold attempt, makeRequest.
  destruct (csrfToken c) as [[| u t] |]; cbn [fst];
    [intros [] | | intros []].
  destruct (doRequest w true (port c)) as [error | response].
  - destruct (httpPort c) as [fallback |].
    + destruct (isProtocolMismatch error); cbn [fst].
      * intros [<- | [<- | []]]; [now left | right; eauto].
      * intros [<- | []]. now left.
    + cbn [fst]. intros [<- | []]. now left.
  - cbn [fst]. intros [<- | []]. now left.
Qed.

(** X16.  How a reconnect ends.  When the detection resolves while the
    controller is reconnecting, the flag is released whatever was found,
    no further detection starts and no error is reported.  If nothing
    usable was found (no process, port 0, or an empty token), the
    session is otherwise untouched: the client keeps its old endpoint
    and the cache its old data.  If a process was found, the client is
    re-bound to the connect port, the extension port as HTTP fallback
    and the token found, and the refresh that follows goes to that port
    over HTTPS and nowhere else but the fallback. *)
Theorem X16_reconnect_rebinds (info : option Detector.Detected) (w : World)
        (s : Session) (c : State) (n : nat) :
  isReconnecting s = true ->
  client s = Some c ->
  let r := fst (step parseDate toStr now (Reconnected info w) s n) in
  isReconnecting (fst r) = false
  /\ filter isDetectionStarted (snd r) = []
  /\ errorCalls (clientEffects (snd r)) = []
  /\ (usable (detectPort info) = false ->
      r = (withReconnecting s false, []))
  /\ (forall d,
        info = Some d ->
        Detector.d_connectPort d <> 0 ->
        Detector.d_csrfToken d <> [] ->
        exists c',
          client (fst r) = Some c'
          /\ port c' = Detector.d_connectPort d
          /\ httpPort c' = Some (Detector.d_extensionPort d)
          /\ csrfToken c' = Some (Detector.d_csrfToken d)
          /\ In (Sent (Https (Detector.d_connectPort d)))
                (clientEffects (snd r))
          /\ (forall q,
                In (Sent q) (clientEffects (snd r)) ->
                q = Https (Detector.d_connectPort d)
                \/ q = Http (Detector.d_extensionPort d))).
Proof.
  intros Hrec Hc. cbv zeta. cbn [step]. rewrite Hrec.
  unfold reconnected, bind.
  destruct info as [d |]; cbn [detectPort];
    [| cbn; repeat split; auto; intros d E; discriminate].
  destruct (usable (Some _)) eqn:Hus;
    cbn [usable pd_port pd_csrfToken pd_httpPort] in *.
  2: { cbn. split; [reflexivity | split; [reflexivity | split;
         [reflexivity | split; [reflexivity |]]]].
       intros d' E Hp Ht. injection E as <-.
       apply Z.eqb_neq in Hp. rewrite Hp in Hus.
       destruct (Detector.d_csrfToken d); [congruence | discriminate]. }
  apply Bool.andb_true_iff in Hus as [Hport Htok].
  unfold drive. rewrite Hc. unfold quickRefresh.
  set (c0 := setAuthInfo _ _).
  pose proof (doFetchQuota_frame parseDate w c0) as F. cbv zeta in F.
  pose proof (doFetchQuota_fresh w c0 ltac:(cbn; unfold MAX_RETRY_COUNT; lia))
    as Herr.
  pose proof (doFetchQuota_sends parseDate w c0 (Https (port c0))
                (attempt_sends_https parseDate w c0 _ eq_refl Htok)) as Hs.
  pose proof (fun q => doFetchQuota_sent w c0 q) as Hq.
  destruct (doFetchQuota parseDate w c0) as [c1 es]. cbn [fst snd] in *.
  pose proof (react_frame es (withClient s (Some c1)) n) as Fr.
  pose proof (react_clientEffects es (withClient s (Some c1)) n) as Ce.
  pose proof (react_no_error es (withClient s (Some c1)) n Herr) as Ne.
  cbv zeta in Fr, Ne.
  destruct (react toStr now es (withClient s (Some c1)) n) as [[s2 o2] n2].
  cbn [fst snd ret isReconnecting withReconnecting] in *.
  destruct Fr as (A & _). destruct Ne as (_ & Nd).
  destruct F as (F1 & F2 & F3 & _).
  split; [reflexivity | split; [exact Nd | split; [congruence |]]].
  split; [discriminate |].
  intros d' E Hp Ht. injection E as <-. exists c1. rewrite Ce.
  split; [exact A |]. split; [exact F1 |]. split; [exact F2 |].
  split; [exact F3 |]. split; [exact Hs |].
  intros q Hin. apply Hq in Hin. apply attempt_requests in Hin.
  destruct Hin as [-> | [h [Hh ->]]]; [now left |].
  right. cbn in Hh. injection Hh as <-. reflexivity.
Qed.

(** A run of the client without error and update callbacks passes the
    controller by. *)
Lemma react_silent (es : list Effect) (s : Session) (n : nat) :
  Forall (fun e => isErrorCall e = false /\ Calls.isUpdateCall e = false)
         es ->
  react toStr now es s n = ((s, List.map ClientDid es), n).
Proof.
  induction es as [| e es IH]; intros H; cbn [react]; [reflexivity |].
  inversion H as [| ? ? [He Hu] H']; subst. unfold bind.
  assert (Hh : match e with
               | UpdateCalled _ snapshot =>
                   onQuotaUpdateHandler now snapshot s
               | ErrorCalled _ error => ret (onErrorHandler toStr error s)
               | _ => ret (s, [])
               end n = ((s, []), n)).
  { destruct e; try discriminate; reflexivity. }
  rewrite Hh. cbn [fst snd]. rewrite (IH H'). reflexivity.
Qed.

(** A failed attempt within the budget calls nobody back. *)
Lemma doFetchQuota_retry_silent (w : World) (c : State) :
  attemptFails parseDate w c = true ->
  (retryCount c < MAX_RETRY_COUNT)%nat ->
  statusCallback c = None ->
  Forall (fun e => isErrorCall e = false /\ Calls.isUpdateCall e = false)
         (snd (doFetchQuota parseDate w c))
  /\ Calls.count Calls.isRetryScheduled (snd (doFetchQuota parseDate w c))
     = 1%nat.
Proof.
  unfold attemptFails, doFetchQuota. intros Hf Hlt Hst.
  destruct (attempt parseDate w c) as [sent [e | snap]]; [| discriminate].
  apply Nat.ltb_lt in Hlt. rewrite Hlt, Hst. cbn [snd callIf].
  destruct (isFirstAttempt c); cbn [app]; split.
  - rewrite Forall_app. split; [apply Forall_sent; auto |].
    repeat constructor.
  - rewrite count_app, (count_sent _ sent) by reflexivity. reflexivity.
  - rewrite Forall_app. split; [apply Forall_sent; auto |].
    repeat constructor.
  - rewrite count_app, (count_sent _ sent) by reflexivity. reflexivity.
Qed.

(** X17.  What [initialize] amounts to on a controller that is not
    initialised.  It returns true, and marks the controller initialised,
    exactly when the detection found a process with a non-zero connect
    port and a non-empty token; otherwise the controller gets no client
    and nothing is sent.  When it succeeds, its client is a new client
    for the detected endpoint after [startPolling(15000)] followed by
    [quickRefresh()]: two fetches in a row, neither of which can reach
    the error handler.  Success does not mean that anything was
    fetched: when both attempts fail, [initialize] still returns true,
    with two of the three retries used, two retry timers pending, the
    cache as it was and no listener called. *)
Theorem X17_initialize (detection : Detection) (w1 w2 : World)
        (timer httpsAgent httpAgent : nat) (s : Session) (n : nat) :
  isInitialized s = false ->
  let r := fst (initialize parseDate toStr now detection w1 w2 timer
                           httpsAgent httpAgent s n) in
  let ok := match detection with
            | Resolved processInfo => usable (detectPort processInfo)
            | Unsupported => false
            end in
  fst r = ok
  /\ isInitialized (fst (snd r)) = ok
  /\ (ok = false ->
      client (fst (snd r)) = client s
      /\ cachedData (fst (snd r)) = cachedData s
      /\ clientEffects (snd (snd r)) = [])
  /\ (forall d,
        detection = Resolved (Some d) -> ok = true ->
        let c0 :=
          onError
            (onQuotaUpdate
               (constructor (Detector.d_connectPort d)
                            (Some (Detector.d_csrfToken d))
                            (Some (Detector.d_extensionPort d))
                            httpsAgent httpAgent)
               updateHandler)
            errorHandler in
        let run :=
          Calls.calls parseDate
            [Calls.StartPolling w1 15000 timer; Calls.QuickRefresh w2] c0 in
        client (fst (snd r)) = Some (fst run)
        /\ clientEffects (snd (snd r)) = snd run
        /\ errorCalls (snd run) = []
        /\ (attemptFails parseDate w1 c0 = true ->
            attemptFails parseDate w2 c0 = true ->
            retryCount (fst run) = 2%nat
            /\ isRetrying (fst run) = true
            /\ Calls.count Calls.isRetryScheduled (snd run) = 2%nat
            /\ cachedData (fst (snd r)) = cachedData s
            /\ filter isNotified (snd (snd r)) = [])).
Proof.
  intros Hinit. cbv zeta. unfold initialize. rewrite Hinit.
  destruct detection as [| [d |]]; cbn [detectPort ret fst].
  - split; [reflexivity | split; [exact Hinit | split]].
    + intros _. auto.
    + intros d0 E. discriminate.
  - shelve.
  - split; [reflexivity | split; [exact Hinit | split]].
    + intros _. auto.
    + intros d0 E. discriminate.
  Unshelve.
  destruct (usable (Some _)) eqn:Hus.
  2: { cbn [ret fst snd].
       split; [reflexivity | split; [exact Hinit | split]].
       - intros _. auto.
       - intros d0 _ E. discriminate. }
  cbn [usable pd_port pd_csrfToken pd_httpPort] in *.
  apply Bool.andb_true_iff in Hus as [Hport Htok].
  set (c0 := onError _ errorHandler).
  unfold bind, drive. cbn [client withClient].
  assert (Est : startPolling parseDate w1 15000 timer c0
                = (withInterval (fst (doFetchQuota parseDate w1 c0))
                                (Some timer),
                   snd (doFetchQuota parseDate w1 c0)
                   ++ [IntervalSet timer 15000])).
  { unfold startPolling, stopPolling, fetchQuota. subst c0.
    cbn [pollingInterval isRetrying onError onQuotaUpdate constructor].
    destruct (doFetchQuota parseDate w1 _). reflexivity. }
  rewrite Est.
  set (c1 := withInterval _ (Some timer)). set (e1 := _ ++ [IntervalSet _ _]).
  set (s1 := withClient _ (Some c1)).
  pose proof (react_frame e1 s1 n) as Fr1.
  pose proof (react_clientEffects e1 s1 n) as Ce1.
  cbv zeta in Fr1.
  destruct (react toStr now e1 s1 n) as [[s2 o1] n1] eqn:R1.
  cbn [fst snd] in *. destruct Fr1 as (A1 & _).
  change (client s1) with (Some c1) in A1.
  rewrite A1. unfold quickRefresh.
  destruct (doFetchQuota parseDate w2 c1) as [c2 e2] eqn:D2.
  pose proof (react_frame e2 (withClient s2 (Some c2)) n1) as Fr2.
  pose proof (react_clientEffects e2 (withClient s2 (Some c2)) n1) as Ce2.
  cbv zeta in Fr2.
  destruct (react toStr now e2 (withClient s2 (Some c2)) n1)
    as [[s3 o2] n2] eqn:R2.
  cbn [fst snd ret isInitialized withInitialized client cachedData] in *.
  destruct Fr2 as (A2 & _). cbn [client withClient] in A2.
  split; [reflexivity | split; [reflexivity | split; [discriminate |]]].
  intros d' E _. injection E as <-. fold c0.
  assert (Erun : Calls.calls parseDate
                   [Calls.StartPolling w1 15000 timer; Calls.QuickRefresh w2]
                   c0
                 = (c2, e1 ++ e2)).
  { cbn [Calls.calls Calls.call]. fold c0. rewrite Est. fold c1 e1.
    unfold quickRefresh. rewrite D2. rewrite app_nil_r. reflexivity. }
  rewrite Erun. cbn [fst snd].
  assert (Hr1 : (retryCount c1 <= 1)%nat
                /\ errorCalls e1 = []).
  { subst c1 e1. cbn [retryCount withInterval]. rewrite errorCalls_app.
    pose proof (doFetchQuota_fresh w1 c0
                  ltac:(cbn; unfold MAX_RETRY_COUNT; lia)) as H0.
    rewrite H0. split; [| reflexivity].
    destruct (attemptFails parseDate w1 c0) eqn:Ef.
    - pose proof (doFetchQuota_retry parseDate w1 c0 Ef
                    ltac:(cbn; unfold MAX_RETRY_COUNT; lia)) as H.
      destruct (doFetchQuota parseDate w1 c0) as [c' es]. cbn [fst].
      destruct H as [-> _]. cbn. lia.
    - pose proof (doFetchQuota_success parseDate w1 c0 Ef) as H.
      destruct (doFetchQuota parseDate w1 c0) as [c' es]. cbn [fst].
      destruct H as [-> _]. lia. }
  destruct Hr1 as [Hr1 He1].
  assert (He2 : errorCalls e2 = []).
  { pose proof (doFetchQuota_fresh w2 c1
                  ltac:(unfold MAX_RETRY_COUNT; lia)) as H.
    rewrite D2 in H. exact H. }
  split; [exact A2 |].
  split; [change (DetectionStarted :: o1 ++ o2)
            with ([DetectionStarted] ++ o1 ++ o2);
          rewrite !clientEffects_app, Ce1, Ce2; reflexivity |].
  split; [rewrite errorCalls_app, He1, He2; reflexivity |].
  intros Hf1 Hf2.
  pose proof (doFetchQuota_retry parseDate w1 c0 Hf1
                ltac:(cbn; unfold MAX_RETRY_COUNT; lia)) as H1.
  pose proof (doFetchQuota_retry_silent w1 c0 Hf1
                ltac:(cbn; unfold MAX_RETRY_COUNT; lia) eq_refl) as S1.
  pose proof (doFetchQuota_frame parseDate w1 c0) as F1. cbv zeta in F1.
  destruct (doFetchQuota parseDate w1 c0) as [c' es1] eqn:D1.
  cbn [fst snd] in *. destruct H1 as (Hrc1 & Hrt1 & _).
  destruct F1 as (P1 & P2 & P3 & _ & _ & _ & P7 & _).
  assert (Hf2' : attemptFails parseDate w2 c1 = true).
  { rewrite (attemptFails_same_endpoint parseDate w2 c0 c1); [exact Hf2 | | |];
      subst c1; cbn [port httpPort csrfToken withInterval]; assumption. }
  assert (Hlt2 : (retryCount c1 < MAX_RETRY_COUNT)%nat).
  { subst c1. cbn [retryCount withInterval]. rewrite Hrc1.
    cbn. unfold MAX_RETRY_COUNT. lia. }
  pose proof (doFetchQuota_retry parseDate w2 c1 Hf2' Hlt2) as H2.
  pose proof (doFetchQuota_retry_silent w2 c1 Hf2' Hlt2
                ltac:(subst c1; cbn [statusCallback withInterval];
                      rewrite P7; reflexivity)) as S2.
  rewrite D2 in H2, S2. cbn [snd] in S2.
  destruct H2 as (Hrc2 & Hrt2 & _). destruct S1 as [Q1 N1].
  destruct S2 as [Q2 N2].
  assert (Q1' : Forall (fun e => isErrorCall e = false
                                 /\ Calls.isUpdateCall e = false) e1).
  { subst e1. rewrite Forall_app. split; [exact Q1 | repeat constructor]. }
  rewrite (react_silent e1 s1 n Q1') in R1. injection R1 as <- <- <-.
  rewrite (react_silent e2 _ n Q2) in R2. injection R2 as <- <- <-.
  split; [rewrite Hrc2; subst c1; cbn [retryCount withInterval];
          rewrite Hrc1; reflexivity |].
  split; [exact Hrt2 |].
  split; [subst e1; rewrite !count_app, N1, N2; reflexivity |].
  split; [reflexivity |].
  cbn [filter isNotified]. rewrite filter_app.
  assert (Hn : forall es, filter isNotified (List.map ClientDid es) = []).
  { intros es. induction es; [reflexivity | assumption]. }
  rewrite !Hn. reflexivity.
Qed.

Lemma started_app (a b : list Output) :
  started (a ++ b) = (started a + started b)%nat.
Proof. unfold started. rewrite filter_app, length_app. reflexivity. Qed.

Lemma started_notify (s : Session) : started (notifyListeners s) = O.
Proof. unfold started. rewrite filter_notify. reflexivity. Qed.

(** A closure starts a detection exactly when it raises the reconnect
    flag. *)
Lemma react_detections (es : list Effect) : forall (s : Session) (n : nat),
  let r := fst (react toStr now es s n) in
  (started (snd r) + flag (isReconnecting s))%nat
  = flag (isReconnecting (fst r)).
Proof.
  induction es as [| e es IH]; intros s n; cbn [react]; [reflexivity |].
  cbv zeta. unfold bind.
  set (h := match e with
            | UpdateCalled _ snapshot => onQuotaUpdateHandler now snapshot s
            | ErrorCalled _ error => ret (onErrorHandler toStr error s)
            | _ => ret (s, [])
            end).
  assert (Hh : (started (snd (fst (h n))) + flag (isReconnecting s))%nat
               = flag (isReconnecting (fst (fst (h n))))).
  { subst h. destruct e; try reflexivity.
    - unfold onQuotaUpdateHandler, bind.
      destruct (transformSnapshotToQuotaData now snapshot n) as [data n1].
      cbn [ret fst snd]. rewrite started_notify. reflexivity.
    - cbn [ret fst snd]. unfold onErrorHandler, tryReconnect.
      destruct (isConnectionError _).
      + destruct (isReconnecting s) eqn:Er; [cbn; rewrite Er; reflexivity |].
        destruct (portDetectionService s); cbn; rewrite ?Er; reflexivity.
      + destruct (isLoginError _); [| reflexivity].
        cbn [fst snd]. rewrite started_notify. reflexivity. }
  destruct (h n) as [[s1 o1] n1]. cbn [fst snd] in *.
  specialize (IH s1 n1). cbv zeta in IH.
  destruct (react toStr now es s1 n1) as [[s2 o2] n2]. cbn [ret fst snd] in *.
  change (ClientDid e :: o1 ++ o2) with ([ClientDid e] ++ o1 ++ o2).
  rewrite !started_app. change (started [ClientDid e]) with O. lia.
Qed.

Lemma drive_detections (method : State -> State * list Effect)
      (s : Session) (n : nat) :
  let r := fst (drive toStr now method s n) in
  (started (snd r) + flag (isReconnecting s))%nat
  = flag (isReconnecting (fst r)).
Proof.
  unfold drive. destruct (client s) as [c |]; [| reflexivity].
  destruct (method c) as [c' es].
  apply (react_detections es (withClient s (Some c')) n).
Qed.

Lemma flag_le (b : bool) : (flag b <= 1)%nat.
Proof. destruct b; cbn; lia. Qed.

Lemma step_detections (ev : Event) (s : Session) (n : nat) :
  let r := fst (step parseDate toStr now ev s n) in
  (started (snd r) + flag (isReconnecting s)
   <= flag (isInitialize ev) + flag (isReconnected ev)
      + flag (isReconnecting (fst r)))%nat.
Proof.
  cbv zeta.
  destruct ev as [d w1 w2 t a1 a2 | w | w | info w | w | l |]; cbn [step].
  - unfold bind, initialize.
    destruct (isInitialized s); [cbn; lia |].
    destruct d as [| processInfo]; [cbn; lia |].
    destruct (detectPort processInfo) as [r |]; [| cbn; lia].
    destruct (usable (Some r)); [| cbn; lia].
    unfold bind.
    match goal with
    | |- context [drive toStr now ?m ?s1 n] =>
        pose proof (drive_detections m s1 n) as H1;
        destruct (drive toStr now m s1 n) as [[s2 o1] n1]
    end.
    cbn [fst snd] in *.
    pose proof (drive_detections (quickRefresh parseDate w2) s2 n1) as H2.
    destruct (drive toStr now (quickRefresh parseDate w2) s2 n1)
      as [[s3 o2] n2].
    cbv zeta in H1, H2.
    cbn [fst snd ret isReconnecting withInitialized withClient withService
             isInitialize isReconnected flag] in *.
    change (DetectionStarted :: o1 ++ o2)
      with ([DetectionStarted] ++ o1 ++ o2).
    rewrite !started_app. change (started [DetectionStarted]) with 1%nat.
    lia.
  - pose proof (drive_detections (fetchQuota parseDate w) s n) as H.
    cbv zeta in H. lia.
  - pose proof (drive_detections (retryTimer parseDate w) s n) as H.
    cbv zeta in H. lia.
  - destruct (isReconnecting s) eqn:Er; [| cbn; rewrite Er; cbn; lia].
    unfold reconnected, bind.
    destruct (detectPort info) as [r |]; [| cbn; lia].
    destruct (usable (Some r)); [| cbn; lia].
    match goal with
    | |- context [drive toStr now ?m s n] =>
        pose proof (drive_detections m s n) as H;
        destruct (drive toStr now m s n) as [[s1 o1] n1]
    end.
    cbv zeta in H. rewrite Er in H.
    pose proof (flag_le (isReconnecting s1)) as Hb.
    cbn [fst snd ret isReconnecting withReconnecting isInitialize
             isReconnected flag] in *.
    lia.
  - unfold bind, fetchQuotaData.
    destruct (negb (isInitialized s)); [cbn; lia |].
    destruct (cachedData s); [cbn; lia |].
    destruct (client s) eqn:Ec; [| cbn; lia].
    unfold bind.
    pose proof (drive_detections (quickRefresh parseDate w) s n) as H.
    destruct (drive toStr now (quickRefresh parseDate w) s n)
      as [[s1 o1] n1].
    cbv zeta in H. cbn [fst snd ret] in *. lia.
  - unfold onDataUpdate. destruct (cachedData s); cbn; lia.
  - pose proof (drive_detections stopPolling s n) as H.
    cbv zeta in H. unfold stop. lia.
Qed.

(** X18.  At most one detection is under way on behalf of a reconnect.
    Over everything that can happen to a controller, the detections it
    starts never outnumber its [initialize] calls plus the reconnects
    that have resolved, except by the one it is waiting for while the
    reconnect flag is up: errors reported meanwhile start nothing. *)
Theorem X18_one_detection_at_a_time (evs : list Event) (n : nat) :
  let r := fst (steps parseDate toStr now evs shared n) in
  (started (snd r)
   <= initializations evs + reconnects evs
      + flag (isReconnecting (fst r)))%nat.
Proof.
  cbv zeta.
  assert (H : forall evs s n,
             let r := fst (steps parseDate toStr now evs s n) in
             (started (snd r) + flag (isReconnecting s)
              <= initializations evs + reconnects evs
                 + flag (isReconnecting (fst r)))%nat).
  { clear. intros evs. induction evs as [| ev evs IH]; intros s n;
      cbn [steps]; [cbn; lia |].
    cbv zeta. unfold bind.
    pose proof (step_detections ev s n) as H1. cbv zeta in H1.
    destruct (step parseDate toStr now ev s n) as [[s1 o1] n1].
    cbn [fst snd] in *. specialize (IH s1 n1). cbv zeta in IH.
    destruct (steps parseDate toStr now evs s1 n1) as [[s2 o2] n2].
    cbn [fst snd ret] in *. rewrite started_app.
    unfold initializations, reconnects in *. cbn [filter].
    destruct (isInitialize ev), (isReconnected ev);
      cbn [List.length flag] in *; lia. }
  specialize (H evs shared n). cbv zeta in H. cbn [shared isReconnecting flag] in H.
  lia.
Qed.

(** The closures fill the cache, they never empty it. *)
Lemma react_cache (es : list Effect) : forall (s : Session) (n : nat),
  cachedData s <> None ->
  cachedData (fst (fst (react toStr now es s n))) <> None.
Proof.
  induction es as [| e es IH]; intros s n Hc; cbn [react]; [exact Hc |].
  unfold bind.
  set (h := match e with
            | UpdateCalled _ snapshot => onQuotaUpdateHandler now snapshot s
            | ErrorCalled _ error => ret (onErrorHandler toStr error s)
            | _ => ret (s, [])
            end).
  assert (Hh : cachedData (fst (fst (h n))) <> None).
  { subst h. destruct e; try exact Hc.
    - unfold onQuotaUpdateHandler, bind.
      destruct (transformSnapshotToQuotaData now snapshot n) as [data n1].
      cbn. discriminate.
    - cbn [ret fst]. unfold onErrorHandler, tryReconnect.
      destruct (isConnectionError _).
      + destruct (isReconnecting s); [exact Hc |].
        destruct (portDetectionService s); exact Hc.
      + destruct (isLoginError _); [cbn; discriminate | exact Hc]. }
  destruct (h n) as [[s1 o1] n1]. cbn [fst snd] in *.
  specialize (IH s1 n1 Hh).
  destruct (react toStr now es s1 n1) as [[s2 o2] n2]. exact IH.
Qed.

Lemma drive_cache (method : State -> State * list Effect) (s : Session)
      (n : nat) :
  cachedData s <> None ->
  cachedData (fst (fst (drive toStr now method s n))) <> None.
Proof.
  intros Hc. unfold drive. destruct (client s) as [c |]; [| exact Hc].
  destruct (method c) as [c' es].
  apply (react_cache es (withClient s (Some c')) n). exact Hc.
Qed.

Lemma step_cache (ev : Event) (s : Session) (n : nat) :
  cachedData s <> None ->
  cachedData (fst (fst (step parseDate toStr now ev s n))) <> None.
Proof.
  intros Hc.
  destruct ev as [d w1 w2 t a1 a2 | w | w | info w | w | l |]; cbn [step].
  - unfold bind, initialize.
    destruct (isInitialized s); [exact Hc |].
    destruct d as [| processInfo]; [exact Hc |].
    destruct (detectPort processInfo) as [r |]; [| exact Hc].
    destruct (usable (Some r)); [| exact Hc].
    unfold bind.
    match goal with
    | |- context [drive toStr now ?m ?s1 n] =>
        pose proof (drive_cache m s1 n Hc) as H1;
        destruct (drive toStr now m s1 n) as [[s2 o1] n1]
    end.
    cbn [fst snd] in *.
    pose proof (drive_cache (quickRefresh parseDate w2) s2 n1 H1) as H2.
    destruct (drive toStr now (quickRefresh parseDate w2) s2 n1)
      as [[s3 o2] n2].
    exact H2.
  - apply drive_cache. exact Hc.
  - apply drive_cache. exact Hc.
  - destruct (isReconnecting s); [| exact Hc].
    unfold reconnected, bind.
    destruct (detectPort info) as [r |]; [| exact Hc].
    destruct (usable (Some r)); [| exact Hc].
    match goal with
    | |- context [drive toStr now ?m s n] =>
        pose proof (drive_cache m s n Hc) as H;
        destruct (drive toStr now m s n) as [[s1 o1] n1]
    end.
    exact H.
  - unfold bind, fetchQuotaData.
    destruct (negb (isInitialized s)); [exact Hc |].
    destruct (cachedData s) eqn:E; [cbn; rewrite E; discriminate |].
    congruence.
  - exact Hc.
  - apply drive_cache. exact Hc.
Qed.

(** X19.  The cache is never emptied, and [fetchQuotaData] trusts it.
    Once the controller has cached anything (a snapshot, or the marker
    that a login is needed), nothing that happens to it empties the
    cache again, and from then on [fetchQuotaData] answers from the
    cache alone: it returns what is cached, sends nothing, calls nobody
    and changes nothing, however old the data is. *)
Theorem X19_cache_is_kept (evs : list Event) (s : Session) (n : nat) :
  cachedData s <> None ->
  let s' := fst (fst (steps parseDate toStr now evs s n)) in
  cachedData s' <> None
  /\ (forall w n',
        fetchQuotaData parseDate toStr now w s' n'
        = ((if isInitialized s' then cachedData s' else None, (s', [])),
           n')).
Proof.
  intros Hc. cbv zeta.
  assert (H : cachedData (fst (fst (steps parseDate toStr now evs s n)))
              <> None).
  { revert s n Hc. induction evs as [| ev evs IH]; intros s n Hc;
      cbn [steps]; [exact Hc |].
    unfold bind. pose proof (step_cache ev s n Hc) as H1.
    destruct (step parseDate toStr now ev s n) as [[s1 o1] n1].
    cbn [fst] in *. specialize (IH s1 n1 H1).
    destruct (steps parseDate toStr now evs s1 n1) as [[s2 o2] n2].
    exact IH. }
  set (s' := fst (fst (steps parseDate toStr now evs s n))) in *.
  split; [exact H |].
  intros w n'. unfold fetchQuotaData.
  destruct (isInitialized s'); [| reflexivity]. cbn [negb].
  destruct (cachedData s') eqn:E; [reflexivity | congruence].
Qed.

(** The entries of a transformed snapshot, one per model and in the
    same order; the clock is read once for each model that still has
    time left. *)
Lemma transformModels_spec (ms : list ModelQuotaInfo) : forall n : nat,
  let r := transformModels now ms n in
  List.map qm_id (fst r) = List.map modelId ms
  /\ List.map qm_time (fst r)
     = List.map (fun m => formatTime (timeUntilReset m)) ms
  /\ List.map qm_name (fst r)
     = List.map (fun m => if truthy (label m) then label m else modelId m) ms
  /\ Forall2 (fun m q =>
                if timeUntilReset m >? 0
                then exists k, (n <= k)%nat
                               /\ qm_resetTime q = now k + timeUntilReset m
                else qm_resetTime q = 0) ms (fst r)
  /\ snd r
     = (n + List.length (filter (fun m => timeUntilReset m >? 0) ms))%nat.
Proof.
  induction ms as [| m ms IH]; intros n; cbn [transformModels].
  - cbn. repeat split; auto; try lia; try constructor.
  - cbv zeta. unfold bind at 1. unfold transformModel, bind, ret, Date_now.
    destruct (timeUntilReset m >? 0) eqn:E.
    + specialize (IH (S n)). cbv zeta in IH.
      destruct (transformModels now ms (S n)) as [qs n1].
      cbn [fst snd List.map filter] in *. rewrite E.
      destruct IH as (I1 & I2 & I3 & I4 & I5).
      rewrite I1, I2, I3, I5. cbn [List.length].
      split; [reflexivity | split; [reflexivity | split; [reflexivity |]]].
      split; [| lia].
      constructor.
      * rewrite E. exists n. cbn. split; [lia | reflexivity].
      * eapply Forall2_impl; [| exact I4].
        intros a b H. cbv beta in *. destruct (timeUntilReset a >? 0); auto.
        destruct H as [k [Hk Hq]]. exists k. split; [lia | exact Hq].
    + specialize (IH n). cbv zeta in IH.
      destruct (transformModels now ms n) as [qs n1].
      cbn [fst snd List.map filter] in *. rewrite E.
      destruct IH as (I1 & I2 & I3 & I4 & I5).
      rewrite I1, I2, I3, I5.
      split; [reflexivity | split; [reflexivity | split; [reflexivity |]]].
      split; [| reflexivity].
      constructor; [rewrite E; reflexivity | exact I4].
Qed.

Lemma filter_isNotified_ClientDid (es : list Effect) :
  filter isNotified (List.map ClientDid es) = [].
Proof. induction es; [reflexivity | assumption]. Qed.

Lemma filter_isNotified_notify (s : Session) :
  filter isNotified (notifyListeners s) = notifyListeners s.
Proof.
  unfold notifyListeners. destruct (cachedData s); [| reflexivity].
  induction (updateListeners s) as [| l ls IH]; [reflexivity |].
  cbn. rewrite IH. reflexivity.
Qed.

(** X20.  An update reaches the cache and every listener.  When a
    polling tick of a controller's client fetches a snapshot, the
    snapshot is transformed, cached, and handed to every subscribed
    listener once, in the order of subscription.  The cached data
    carries the plan name, no needs-login mark, and one entry per model
    in the snapshot's order, each with the model's id, its label (or
    the id when the label is empty) and the formatted time left; its
    reset time is a clock reading plus the time left, or 0 when no time
    is left. *)
Theorem X20_update_reaches_listeners (w : World) (s : Session) (c : State)
        (cb : nat) (snapshot : QuotaSnapshot) (n : nat) :
  client s = Some c ->
  isRetrying c = false ->
  updateCallback c = Some cb ->
  snd (attempt parseDate w c) = inr snapshot ->
  let r := step parseDate toStr now (Tick w) s n in
  let data := fst (transformSnapshotToQuotaData now snapshot n) in
  cachedData (fst (fst r)) = Some data
  /\ filter isNotified (snd (fst r))
     = List.map (fun l => Notified l data) (updateListeners s)
  /\ client (fst (fst r)) = Some (succeeded c)
  /\ qd_planName data = planName snapshot
  /\ qd_needsLogin data = None
  /\ List.map qm_id (qd_models data) = List.map modelId (models snapshot)
  /\ List.map qm_name (qd_models data)
     = List.map (fun m => if truthy (label m) then label m else modelId m)
                (models snapshot)
  /\ List.map qm_time (qd_models data)
     = List.map (fun m => formatTime (timeUntilReset m)) (models snapshot)
  /\ Forall2 (fun m q =>
                if timeUntilReset m >? 0
                then exists k, (n <= k)%nat
                               /\ qm_resetTime q = now k + timeUntilReset m
                else qm_resetTime q = 0)
             (models snapshot) (qd_models data).
Proof.
  intros Hc Hr Hu Ha. cbv zeta. cbn [step]. unfold drive. rewrite Hc.
  unfold fetchQuota. rewrite Hr. unfold doFetchQuota.
  destruct (attempt parseDate w c) as [sent outcome]. cbn [snd] in Ha.
  subst outcome. rewrite Hu. cbn [callIf].
  set (announced := if isFirstAttempt c then _ else _).
  assert (Hq : Forall (fun e => isErrorCall e = false
                                /\ Calls.isUpdateCall e = false)
                      (announced ++ List.map Sent sent)).
  { rewrite Forall_app. split; [| apply Forall_sent; auto].
    subst announced. destruct (isFirstAttempt c); [| constructor].
    destruct (statusCallback c); repeat constructor. }
  assert (Hreact : forall es s0 n0,
             Forall (fun e => isErrorCall e = false
                              /\ Calls.isUpdateCall e = false) es ->
             react toStr now (es ++ [UpdateCalled cb snapshot]) s0 n0
             = (let (data, n1) := transformSnapshotToQuotaData now snapshot n0
                in ((withCachedData s0 (Some data),
                     List.map ClientDid (es ++ [UpdateCalled cb snapshot])
                     ++ notifyListeners (withCachedData s0 (Some data))),
                    n1))).
  { clear. intros es. induction es as [| e es IH]; intros s0 n0 H.
    - cbn [app react]. unfold bind, onQuotaUpdateHandler, bind.
      destruct (transformSnapshotToQuotaData now snapshot n0) as [data n1].
      cbn [ret fst snd List.map app]. rewrite app_nil_r. reflexivity.
    - inversion H as [| ? ? [He Hu] H']; subst.
      cbn [app react]. unfold bind.
      assert (Hh : match e with
                   | UpdateCalled _ snapshot0 =>
                       onQuotaUpdateHandler now snapshot0 s0
                   | ErrorCalled _ error =>
                       ret (onErrorHandler toStr error s0)
                   | _ => ret (s0, [])
                   end n0 = ((s0, []), n0)).
      { destruct e; try discriminate; reflexivity. }
      rewrite Hh. cbn [fst snd]. rewrite (IH s0 n0 H').
      destruct (transformSnapshotToQuotaData now snapshot n0) as [data n1].
      reflexivity. }
  rewrite app_assoc. rewrite (Hreact _ _ _ Hq).
  unfold transformSnapshotToQuotaData, bind.
  pose proof (transformModels_spec (models snapshot) n) as T. cbv zeta in T.
  destruct (transformModels now (models snapshot) n) as [qs n1].
  cbn [ret fst snd cachedData withCachedData client withClient
           qd_planName qd_needsLogin qd_models] in *.
  destruct T as (T1 & T2 & T3 & T4 & _).
  split; [reflexivity |].
  split; [rewrite filter_app, filter_isNotified_ClientDid,
            filter_isNotified_notify; reflexivity |].
  repeat (split; [first [reflexivity | assumption] |]). exact T4.
Qed.

Lemma react_then_error (cb : nat) (error : Thrown) (es : list Effect) :
  forall (s : Session) (n : nat),
  Forall (fun e => isErrorCall e = false /\ Calls.isUpdateCall e = false)
         es ->
  react toStr now (es ++ [ErrorCalled cb error]) s n
  = ((fst (onErrorHandler toStr error s),
      List.map ClientDid (es ++ [ErrorCalled cb error])
      ++ snd (onErrorHandler toStr error s)),
     n).
Proof.
  induction es as [| e es IH]; intros s n H.
  - cbn [app react]. unfold bind, ret.
    destruct (onErrorHandler toStr error s) as [s' o].
    cbn [fst snd List.map app]. rewrite app_nil_r. reflexivity.
  - inversion H as [| ? ? [He Hu] H']; subst.
    cbn [app react]. unfold bind.
    assert (Hh : match e with
                 | UpdateCalled _ snapshot =>
                     onQuotaUpdateHandler now snapshot s
                 | ErrorCalled _ error0 =>
                     ret (onErrorHandler toStr error0 s)
                 | _ => ret (s, [])
                 end n = ((s, []), n)).
    { destruct e; try discriminate; reflexivity. }
    rewrite Hh. cbn [fst snd]. rewrite (IH s n H'). reflexivity.
Qed.

Lemma started_ClientDid (es : list Effect) :
  started (List.map ClientDid es) = O.
Proof. induction es; [reflexivity | assumption]. Qed.

(** X26.  What the controller makes of its client giving up.  When a
    retry timer fires on a client whose retry budget is used up and the
    attempt fails again, the client starts a fresh budget and hands the
    error to the controller, which looks at its message only.  A
    connection error (ECONNREFUSED, ETIMEDOUT, socket hang up, network)
    leaves cache and listeners alone and starts a detection, unless one
    is pending.  Any other error that mentions [quota info] or
    [not logged in] replaces the cache by the needs-login mark and
    tells every listener.  Every other error is dropped without a
    trace, and the client's own [Timeout] is such an error. *)
Theorem X26_giving_up (w : World) (s : Session) (c : State) (cb : nat)
        (error : Thrown) (n : nat) :
  client s = Some c ->
  errorCallback c = Some cb ->
  retryCount c = MAX_RETRY_COUNT ->
  snd (attempt parseDate w c) = inl error ->
  let r := fst (step parseDate toStr now (RetryFired w) s n) in
  let msg := errorMessage toStr error in
  let mark := mkQuotaData None [] (Some true) in
  (exists c', client (fst r) = Some c' /\ retryCount c' = O
              /\ isRetrying c' = false)
  /\ (isConnectionError msg = true ->
      cachedData (fst r) = cachedData s
      /\ filter isNotified (snd r) = []
      /\ (isReconnecting s = true ->
          started (snd r) = O /\ isReconnecting (fst r) = true)
      /\ (isReconnecting s = false -> portDetectionService s = true ->
          started (snd r) = 1%nat /\ isReconnecting (fst r) = true))
  /\ (isConnectionError msg = false -> isLoginError msg = true ->
      cachedData (fst r) = Some mark
      /\ filter isNotified (snd r)
         = List.map (fun l => Notified l mark) (updateListeners s)
      /\ started (snd r) = O
      /\ isReconnecting (fst r) = isReconnecting s)
  /\ (isConnectionError msg = false -> isLoginError msg = false ->
      cachedData (fst r) = cachedData s
      /\ filter isNotified (snd r) = []
      /\ started (snd r) = O
      /\ isReconnecting (fst r) = isReconnecting s)
  /\ (forall code,
        error = Failed (mkError (js "Timeout") code) ->
        isConnectionError msg = false /\ isLoginError msg = false).
Proof.
  intros Hc Hcb Hrc Ha. cbv zeta. cbn [step]. unfold drive. rewrite Hc.
  unfold retryTimer, fetchQuota. cbn [isRetrying withRetrying].
  unfold doFetchQuota.
  rewrite (attempt_same_endpoint parseDate w c (withRetrying c false))
    by reflexivity.
  destruct (attempt parseDate w c) as [sent outcome]. cbn [snd] in Ha.
  subst outcome. cbn [retryCount withRetrying]. rewrite Hrc.
  change (MAX_RETRY_COUNT <? MAX_RETRY_COUNT)%nat with false. cbv iota.
  cbn [errorCallback withRetrying]. rewrite Hcb. cbn [callIf].
  set (announced := if isFirstAttempt _ then _ else _).
  assert (Hq : Forall (fun e => isErrorCall e = false
                                /\ Calls.isUpdateCall e = false)
                      (announced ++ List.map Sent sent)).
  { rewrite Forall_app. split; [| apply Forall_sent; auto].
    subst announced. destruct (isFirstAttempt _); [| constructor].
    destruct (statusCallback _); repeat constructor. }
  rewrite app_assoc, (react_then_error cb error _ _ n Hq).
  cbn [fst snd].
  set (es := (announced ++ List.map Sent sent) ++ [ErrorCalled cb error]).
  set (s1 := withClient s _).
  assert (Hst : forall o, started (List.map ClientDid es ++ o) = started o).
  { intros o. rewrite started_app, started_ClientDid. reflexivity. }
  assert (Hnt : forall o, filter isNotified (List.map ClientDid es ++ o)
                          = filter isNotified o).
  { intros o. rewrite filter_app, filter_isNotified_ClientDid. reflexivity. }
  rewrite Hst, Hnt.
  assert (Hcl : client (fst (onErrorHandler toStr error s1)) = client s1).
  { unfold onErrorHandler, tryReconnect.
    destruct (isConnectionError _).
    - destruct (isReconnecting s1); [reflexivity |].
      destruct (portDetectionService s1); reflexivity.
    - destruct (isLoginError _); reflexivity. }
  split.
  { rewrite Hcl. subst s1. cbn [client withClient]. eexists.
    split; [reflexivity |]. cbn. auto. }
  unfold onErrorHandler, tryReconnect.
  split; [| split; [| split]].
  - intros Hm. rewrite Hm.
    change (isReconnecting s1) with (isReconnecting s).
    change (portDetectionService s1) with (portDetectionService s).
    destruct (isReconnecting s) eqn:Er.
    + cbn [fst snd]. repeat split; auto; discriminate.
    + destruct (portDetectionService s) eqn:Es; cbn [fst snd];
        (split; [reflexivity |]); (split; [reflexivity |]);
        (split; [discriminate |]); intros _ H;
        [split; reflexivity | discriminate].
  - intros Hm Hl. rewrite Hm, Hl. cbn [fst snd cachedData withCachedData].
    split; [reflexivity |].
    split; [rewrite filter_isNotified_notify; reflexivity |].
    split; [apply started_notify | reflexivity].
  - intros Hm Hl. rewrite Hm, Hl. cbn. auto.
  - intros code ->. cbn [errorMessage message]. split; vm_compute; reflexivity.
Qed.

(** X27.  The two formatters agree.  The time the controller shows and
    the text the client formats are both "Expired" for the same
    durations.  Under an hour the controller shows the client's minutes
    and drops its seconds (so "0m" within the last minute); from one
    hour to one day the client's text is the controller's followed by
    " from now"; from one day on the controller shows no days but the
    total of hours, 24 times the client's days plus its hours. *)
Theorem X27_formatters_agree (ms : Z) :
  (formatTime ms = js "Expired" <-> formatTimeUntilReset ms = js "Expired")
  /\ (0 < ms < 60000 ->
      formatTime ms = js "0m"
      /\ exists s, formatTimeUntilReset ms = of_Z s ++ js "s from now")
  /\ (60000 <= ms < 3600000 ->
      exists m s,
        formatTime ms = of_Z m ++ js "m"
        /\ formatTimeUntilReset ms
           = of_Z m ++ js "m " ++ of_Z s ++ js "s from now"
        /\ 1 <= m < 60)
  /\ (3600000 <= ms < 86400000 ->
      formatTimeUntilReset ms = formatTime ms ++ js " from now"
      /\ exists h m, formatTime ms = of_Z h ++ js "h " ++ of_Z m ++ js "m"
                     /\ 1 <= h < 24 /\ 0 <= m < 60)
  /\ (86400000 <= ms ->
      exists d h m,
        formatTime ms = of_Z (24 * d + h) ++ js "h " ++ of_Z m ++ js "m"
        /\ formatTimeUntilReset ms
           = of_Z d ++ js "d" ++ of_Z h ++ js "h from now"
        /\ 1 <= d /\ 0 <= h < 24 /\ 0 <= m < 60).
Proof.
  split; [| split; [| split; [| split]]].
  - rewrite formatTimeUntilReset_Expired. unfold formatTime.
    destruct (ms <=? 0) eqn:E.
    + apply Z.leb_le in E. tauto.
    + apply Z.leb_gt in E. split; [| lia].
      intros H. exfalso. destruct (ms / 1000 / 60 / 60 >? 0);
        apply of_Z_not_Expired in H; exact H.
  - intros H. unfold formatTime, formatTimeUntilReset.
    decide_unit E0 ((ms <=? 0) = false).
    decide_unit E1 ((ms / 1000 / 60 / 60 / 24 >? 0) = false).
    decide_unit E2 ((ms / 1000 / 60 / 60 >? 0) = false).
    decide_unit E3 ((ms / 1000 / 60 >? 0) = false).
    rewrite E0, E1, E2, E3.
    assert (Em : ms / 1000 / 60 = 0)
      by (Z.to_euclidean_division_equations; lia).
    rewrite Em. split; [reflexivity | eexists; reflexivity].
  - intros H. unfold formatTime, formatTimeUntilReset.
    decide_unit E0 ((ms <=? 0) = false).
    decide_unit E1 ((ms / 1000 / 60 / 60 / 24 >? 0) = false).
    decide_unit E2 ((ms / 1000 / 60 / 60 >? 0) = false).
    decide_unit E3 ((ms / 1000 / 60 >? 0) = true).
    rewrite E0, E1, E2, E3.
    exists (ms / 1000 / 60), ((ms / 1000) mod 60).
    split; [reflexivity | split; [reflexivity |]].
    Z.to_euclidean_division_equations; lia.
  - intros H. unfold formatTime, formatTimeUntilReset.
    decide_unit E0 ((ms <=? 0) = false).
    decide_unit E1 ((ms / 1000 / 60 / 60 / 24 >? 0) = false).
    decide_unit E2 ((ms / 1000 / 60 / 60 >? 0) = true).
    rewrite E0, E1, E2. split.
    + rewrite <- !app_assoc. reflexivity.
    + exists (ms / 1000 / 60 / 60), ((ms / 1000 / 60) mod 60).
      split; [reflexivity |]. Z.to_euclidean_division_equations; lia.
  - intros H. unfold formatTime, formatTimeUntilReset.
    decide_unit E0 ((ms <=? 0) = false).
    decide_unit E1 ((ms / 1000 / 60 / 60 / 24 >? 0) = true).
    decide_unit E2 ((ms / 1000 / 60 / 60 >? 0) = true).
    rewrite E0, E1, E2.
    exists (ms / 1000 / 60 / 60 / 24), ((ms / 1000 / 60 / 60) mod 24),
      ((ms / 1000 / 60) mod 60).
    assert (Eh : 24 * (ms / 1000 / 60 / 60 / 24)
                 + (ms / 1000 / 60 / 60) mod 24 = ms / 1000 / 60 / 60)
      by (symmetry; apply Z.div_mod; lia).
    rewrite Eh. split; [reflexivity | split; [reflexivity |]].
    Z.to_euclidean_division_equations; lia.
Qed.

End ControllerFacts.

(* ===================================================================== *)
(** ** From the detection to the controller *)
(* ===================================================================== *)

Section DetectionFacts.
Import Detector.

Variable execProcessList : Platform -> nat -> JsString + JsString.
Variable getProcessListeningPorts : nat -> Z -> list Z.
Variable testPortConnectivity : nat -> Z -> JsString -> bool.

(** [process.pid] of the extension host. *)
Variable currentPid : Z.

Lemma parseProcessInfo_token (stdout : JsString) (info : ProcessInfo) :
  Unix.parseProcessInfo currentPid stdout = Some info ->
  csrfToken info <> [].
Proof.
  rewrite parseProcessInfo_candidates. intros H.
  assert (Hin : In info (Unix.candidates (split_unit 10 (trim stdout)))).
  { destruct (Unix.candidates (split_unit 10 (trim stdout)))
      as [| first others]; [discriminate |].
    destruct (find _ (first :: others)) as [c0 |] eqn:Ef.
    - injection H as <-. apply find_some in Ef. tauto.
    - injection H as <-. now left. }
  apply In_candidates in Hin as [line [_ Hc]].
  apply candidate_needs_both in Hc. tauto.
Qed.

(** X25.  With the Unix strategy, whatever [detectProcessInfo] finds
    passes the guard of the controller: the result that [detectPort]
    makes of it has a non-zero port and a non-empty token, so
    [initialize] and [tryReconnect] never discard a process that was
    found. *)
Theorem X25_found_is_usable (maxRetries : nat) (retryDelay : Z)
        (p : Platform) (d : Detected) :
  result (detectProcessInfo execProcessList
            (fun _ => Unix.parseProcessInfo currentPid)
            getProcessListeningPorts testPortConnectivity
            maxRetries retryDelay p) = Some d ->
  Controller.usable (Controller.detectPort (Some d)) = true
  /\ exists r, Controller.detectPort (Some d) = Some r
               /\ Controller.pd_port r = d_connectPort d
               /\ Controller.pd_httpPort r = d_extensionPort d
               /\ Controller.pd_csrfToken r = d_csrfToken d.
Proof.
  unfold detectProcessInfo. intros H.
  apply loop_sound in H as [p' [k' H]].
  apply tryBlock_sound in H
    as [stdout [info (_ & Hparse & _ & Htok & _ & _ & Hport)]].
  apply parseProcessInfo_token in Hparse.
  split.
  - cbn [Controller.detectPort Controller.usable Controller.pd_port
           Controller.pd_csrfToken].
    apply Z.eqb_neq in Hport. rewrite Hport, Htok.
    destruct (csrfToken info); [congruence | reflexivity].
  - eexists. split; [reflexivity |]. cbn. auto.
Qed.

(** X30.  The strategy a platform gets, and what it means for the tool
    switch.  [getStrategy] succeeds exactly on the platforms that have a
    process name; the strategy it returns is the Windows one exactly
    when [getPlatformName] says "Windows", which is the test
    [detectProcessInfo] makes before it switches tools.  The strategy
    can switch to PowerShell only on win32 with [forcePowerShell]
    configured as false: everywhere else, and with the default
    configuration, a detection never switches tools, keeps its strategy
    and executes at most [maxRetries] listings. *)
Theorem X30_default_never_switches (os : PlatformTools.NodePlatform)
        (forcePowerShell : option bool) :
  (PlatformTools.getStrategy os forcePowerShell = None
   <-> PlatformTools.getProcessName os = None)
  /\ (forall strategy,
        PlatformTools.getStrategy os forcePowerShell = Some strategy ->
        isWindows strategy
        = str_eqb (PlatformTools.getPlatformName os) (js "Windows")
        /\ (canSwitchToPowerShell strategy = true
            <-> os = PlatformTools.win32
                /\ forcePowerShell = Some false)
        /\ (forall parseProcessInfo maxRetries retryDelay,
              canSwitchToPowerShell strategy = false ->
              let r := detectProcessInfo execProcessList parseProcessInfo
                         getProcessListeningPorts testPortConnectivity
                         maxRetries retryDelay strategy in
              switches (events r) = O
              /\ platform r = strategy
              /\ (Effort.tries (events r) <= maxRetries)%nat)).
Proof.
  split.
  - destruct os; cbn; split; intros H; congruence.
  - intros strategy Hs. split; [| split].
    + destruct os; cbn in Hs; try discriminate;
        injection Hs as <-; reflexivity.
    + destruct os; cbn in Hs; try discriminate; injection Hs as <-;
        cbn [canSwitchToPowerShell].
      * destruct forcePowerShell as [[|] |]; cbn; split;
          try discriminate; try (intros [_ H]; discriminate); auto.
      * split; [discriminate | intros [H _]; discriminate].
      * split; [discriminate | intros [H _]; discriminate].
    + intros parse maxRetries retryDelay Hc. cbv zeta.
      unfold detectProcessInfo.
      pose proof (loop_switches execProcessList parse
                    getProcessListeningPorts testPortConnectivity
                    maxRetries retryDelay 1 strategy 0) as H.
      pose proof (loop_effort execProcessList parse
                    getProcessListeningPorts testPortConnectivity
                    maxRetries retryDelay 1 strategy 0) as He.
      cbv zeta in H, He. rewrite Hc in H. destruct H as [H1 H2].
      destruct He as (He & _).
      assert (E0 : switches
                     (events
                        (loop execProcessList parse getProcessListeningPorts
                              testPortConnectivity maxRetries retryDelay 1
                              strategy 0)) = O) by lia.
      split; [exact E0 | split; [| lia]].
      destruct H2 as [H2 | H2]; [exact H2 |].
      rewrite H2. destruct strategy as [[|] | |]; try reflexivity.
      discriminate.
Qed.

End DetectionFacts.

(* ===================================================================== *)
(** ** Instances of the properties above *)
(* ===================================================================== *)

Section MoreInstances.
Import Client Fixtures Samples.

Lemma X4_fetching_only_before_first_success_witness :
  Calls.count Calls.isFetchingStatus
    (snd (Calls.calls noDates
            [Calls.Tick offline; Calls.QuickRefresh online;
             Calls.RetryFired offline]
            (fst (doFetchQuota noDates online watched)))) = O.
Proof.
  apply (X4_fetching_only_before_first_success noDates online watched).
  - vm_compute. lia.
  - vm_compute. reflexivity.
Defined.

Lemma X5_stop_keeps_pending_retry_witness :
  let run := Calls.calls noDates [Calls.StopPolling; Calls.RetryFired offline]
                         pending in
  pollingInterval (fst run) = None
  /\ In (Sent (Https (port pending))) (snd run)
  /\ (attemptFails noDates offline pending = true ->
      (retryCount pending < MAX_RETRY_COUNT)%nat ->
      In (RetryScheduled RETRY_DELAY_MS) (snd run)
      /\ isRetrying (fst run) = true).
Proof.
  apply (X5_stop_keeps_pending_retry noDates offline pending token).
  - reflexivity.
  - reflexivity.
Defined.

Lemma X9_parsed_reset_time_witness :
  let quotaInfo := mkQuotaInfo (Some (1 # 2)) (Some (js "tomorrow")) in
  let m := fst (parseModelQuota oneDate ticking
                  (mkModelConfig (js "Model") (js "M1") (Some quotaInfo))
                  quotaInfo O) in
  resetTime m = 5000
  /\ timeUntilReset m = 5000 - ticking 0
  /\ (timeUntilResetFormatted m = js "Expired" <-> 5000 <= ticking 0).
Proof.
  apply (X9_parsed_reset_time oneDate ticking
           (mkModelConfig (js "Model") (js "M1")
              (Some (mkQuotaInfo (Some (1 # 2)) (Some (js "tomorrow")))))
           (mkQuotaInfo (Some (1 # 2)) (Some (js "tomorrow"))) O
           (js "tomorrow") 5000).
  - reflexivity.
  - discriminate.
  - vm_compute. discriminate.
  - reflexivity.
Defined.

Lemma X28_one_error_per_four_failures_witness :
  let (st', es) := fetches noDates
                     [offline; offline; offline; offline; offline; offline]
                     (withInterval fresh None) in
  (Calls.count isErrorCall es = 6 / 4
   /\ retryCount st' = 6 mod 4
   /\ Calls.count Calls.isRetryScheduled es = 6 - 6 / 4)%nat.
Proof.
  apply (X28_one_error_per_four_failures noDates
           [offline; offline; offline; offline; offline; offline]
           (withInterval fresh None) 9).
  - reflexivity.
  - reflexivity.
  - repeat constructor.
Defined.

End MoreInstances.

Section DetectorInstances.
Import Detector Fixtures Samples.

Lemma X12_detection_sound_witness :
  exists p' k stdout info,
    firstCommandRejected p' k = inr stdout
    /\ parsesServer p' stdout = Some info
    /\ d_extensionPort found = extensionPort info
    /\ d_csrfToken found = csrfToken info
    /\ In (d_connectPort found) (listens k (pid info))
    /\ answers k (d_connectPort found) (csrfToken info) = true
    /\ d_connectPort found <> 0.
Proof.
  apply (X12_detection_sound firstCommandRejected parsesServer listens
           answers 3 2000 (Windows false) found).
  vm_compute. reflexivity.
Defined.

Lemma X13_which_failures_switch_witness :
  loop lists parsesNothing listens answers 3 2000 1 (Windows false) 0
  = andThen [Tried 1 (Windows false); Switched]
      (loop lists parsesNothing listens answers 3 2000 1 (Windows true) 1).
Proof.
  apply (proj1 (X13_which_failures_switch lists parsesNothing listens
                  answers 3 2000 1 0 (js "(process listing)")
                  ltac:(lia) eq_refl)).
  reflexivity.
Defined.

Lemma X21_flag_values_witness :
  exists line,
    In line (split_unit 10 (trim (output psLines)))
    /\ Unix.candidate line = Some (mkInfo 101 77 6060 (js "DEAD-beef"))
    /\ Text.valueOf (fun f => toLowerCase f = js "--csrf_token")
                    hex_or_dash_i (Unix.commandLine line) (js "DEAD-beef")
    /\ (rmatch re_extension_server_port (Unix.commandLine line) = None
        /\ 6060 = 0
        \/ exists d,
             Text.valueOf (fun f => f = js "--extension_server_port")
                          is_digit (Unix.commandLine line) d
             /\ parseInt d = Some 6060
             /\ 0 <= 6060).
Proof.
  apply (X21_flag_values 77 (output psLines)
           (mkInfo 101 77 6060 (js "DEAD-beef"))).
  vm_compute. reflexivity.
Defined.

Lemma X24_ps_columns_witness :
  Unix.commandLine childLine
  = join (js " ") (split_ws (47%N :: childCommand))
  /\ (Unix.candidate childLine = Some (mkInfo 101 77 6060 (js "DEAD-beef")) ->
      pid (mkInfo 101 77 6060 (js "DEAD-beef")) = 101
      /\ ppid (mkInfo 101 77 6060 (js "DEAD-beef")) = 77).
Proof.
  apply (X24_ps_columns childLine (js "    ") (js " ") childCommand 47%N
           101 77 (mkInfo 101 77 6060 (js "DEAD-beef"))).
  - lia.
  - lia.
  - discriminate.
  - repeat constructor.
  - discriminate.
  - repeat constructor.
  - reflexivity.
  - vm_compute. reflexivity.
Defined.

Lemma X25_found_is_usable_witness :
  Controller.usable
    (Controller.detectPort (Some (mkDetected 6060 7070 (js "DEAD-beef"))))
  = true
  /\ exists r,
       Controller.detectPort (Some (mkDetected 6060 7070 (js "DEAD-beef")))
       = Some r
       /\ Controller.pd_port r = 7070
       /\ Controller.pd_httpPort r = 6060
       /\ Controller.pd_csrfToken r = js "DEAD-beef".
Proof.
  apply (X25_found_is_usable psTable listens answers 77 3 2000 Linux
           (mkDetected 6060 7070 (js "DEAD-beef"))).
  vm_compute. reflexivity.
Defined.

End DetectorInstances.

Section ControllerInstances.
Import Client Controller Fixtures Samples.

Lemma X16_reconnect_rebinds_witness :
  isReconnecting
    (fst (fst (step noDates noText ticking (Reconnected (Some found) online)
                    reconnecting O))) = false.
Proof.
  apply (proj1 (X16_reconnect_rebinds noDates noText ticking (Some found)
                  online reconnecting fresh 0 eq_refl eq_refl)).
Defined.

Lemma X17_initialize_witness :
  fst (fst (initialize noDates noText ticking (Resolved (Some found))
                       offline offline 4 1 2 shared O)) = true.
Proof.
  apply (proj1 (X17_initialize noDates noText ticking (Resolved (Some found))
                  offline offline 4 1 2 shared 0 eq_refl)).
Defined.

Lemma X19_cache_is_kept_witness :
  cachedData (fst (fst (steps noDates noText ticking
                              [Tick offline; Stop; FetchQuotaData online]
                              loggedOut O))) <> None.
Proof.
  apply (proj1 (X19_cache_is_kept noDates noText ticking
                  [Tick offline; Stop; FetchQuotaData online] loggedOut 0
                  ltac:(discriminate))).
Defined.

Lemma X20_update_reaches_listeners_witness :
  let r := step noDates noText ticking (Tick online) listening O in
  let data := fst (transformSnapshotToQuotaData ticking okSnapshot O) in
  cachedData (fst (fst r)) = Some data
  /\ filter isNotified (snd (fst r))
     = [Notified 3 data; Notified 6 data].
Proof.
  pose proof (X20_update_reaches_listeners noDates noText ticking online
                listening fresh 8 okSnapshot 0 eq_refl eq_refl eq_refl
                eq_refl) as H.
  cbv zeta in H. cbv zeta.
  split; [exact (proj1 H) | exact (proj1 (proj2 H))].
Defined.

Lemma X26_giving_up_witness :
  started (snd (fst (step noDates noText ticking (RetryFired offline)
                          lost O))) = 1%nat
  /\ isReconnecting (fst (fst (step noDates noText ticking
                                    (RetryFired offline) lost O))) = true.
Proof.
  pose proof (X26_giving_up noDates noText ticking offline lost exhausted 9
                (Failed refused) O eq_refl eq_refl eq_refl eq_refl) as H.
  cbv zeta in H. destruct H as (_ & H & _).
  apply H; reflexivity.
Defined.

End ControllerInstances.
